(** * The interview session orchestrator

    A shallow embedding of the interview application: the candidates slice of
    the Redux store ([Slice]), the Perplexity adapter with its model fallback
    loop ([PerplexityAPI]) and the [InterviewChat] component that drives
    question generation, the countdown, answer submission and the final
    aggregation.

    Conventions of the embedding.
    - A JavaScript string is a [string]; its characters are UTF-16 code units
      below 256, so [String.length] is the [length] property.
    - Counters and seconds are [nat] or [Z]. A JavaScript number that may
      carry a fraction is a binary64 float ([Double.t]), and the arithmetic
      on such numbers is that of binary64, rounding to nearest, ties to even.
      An answer score is recorded as the rational [Q] that the reply or the
      adapter names; the number the program holds for it is the float
      nearest to that rational ([Double.ofQ]), which is what [parseFloat]
      returns and what clamping between 0 and 10 preserves.
    - [undefined]/[null] are [None]; [x || d] is written out by the helper
      that fits the type of [x]. Where the code tells a missing key from
      [null] (the [completedAt] of a candidate), [None] is the missing key
      and [Some None] is [null].
    - The network is an oracle [nat -> Request -> Response] answering the
      n-th request issued, and every adapter function threads the log of the
      requests it has issued. *)

From Stdlib Require Import ZArith QArith Qround String Ascii List Bool Lia DecimalString.
From Stdlib.Floats Require SpecFloat.
From stdpp Require Import base list strings.
Import ListNotations.

(** ** JavaScript numbers *)

(** Binary64, as the specification of the floating-point operations of the
    Standard Library defines it. *)
Module Double.

Definition t := SpecFloat.spec_float.

Definition prec : Z := 53.
Definition emax : Z := 1024.

Definition ofZ (z : Z) : t := SpecFloat.binary_normalize prec emax z 0 false.

Definition add (x y : t) : t := SpecFloat.SFadd prec emax x y.
Definition mul (x y : t) : t := SpecFloat.SFmul prec emax x y.
Definition div (x y : t) : t := SpecFloat.SFdiv prec emax x y.

(** [x <= y] *)
Definition leb (x y : t) : bool := SpecFloat.SFleb x y.

(** The float nearest to [p / d], ties to even: the quotient is taken with
    at least 56 bits and a last bit that tells whether anything was left,
    and rounded from there. *)
Definition nearest (negative : bool) (p d : positive) : t :=
  let k := Z.max 0 (56 + Z.log2 (Zpos d) - Z.log2 (Zpos p)) in
  let n := (Zpos p * 2 ^ k)%Z in
  let m := (n / Zpos d)%Z in
  let sticky := if (n mod Zpos d =? 0)%Z then 0%Z else 1%Z in
  SpecFloat.binary_normalize prec emax
    (if negative then - (2 * m + sticky) else 2 * m + sticky)%Z (- k - 1) false.

(** The float a decimal literal of value [q] denotes. *)
Definition ofQ (q : Q) : t :=
  match Qnum q with
  | Z0 => SpecFloat.S754_zero false
  | Zpos p => nearest false p (Qden q)
  | Zneg p => nearest true p (Qden q)
  end.

(** The real number a finite float is. Infinities and NaN, which no sum of
    scores between 0 and 10 reaches, are given 0. *)
Definition toQ (x : t) : Q :=
  match x with
  | SpecFloat.S754_finite s m e =>
      let n := if s then Zneg m else Zpos m in
      if (0 <=? e)%Z then inject_Z (n * 2 ^ e) else Qmake n (Z.to_pos (2 ^ (- e)))
  | _ => 0%Q
  end.

End Double.

(** ** JavaScript primitives used by the sources *)

Module JS.

Definition code (c : ascii) : nat := nat_of_ascii c.

(** White space as [String.prototype.trim] and the regular expression
    class [\s] see it, among code units below 256. *)
Definition isWhiteSpace (c : ascii) : bool :=
  let n := code c in
  (n =? 9) || (n =? 10) || (n =? 11) || (n =? 12) || (n =? 13)
  || (n =? 32) || (n =? 160).

(** The characters the regular expression [.] refuses. *)
Definition isLineTerminator (c : ascii) : bool :=
  let n := code c in (n =? 10) || (n =? 13).

Definition isDigit (c : ascii) : bool :=
  let n := code c in (48 <=? n) && (n <=? 57).

Definition lowerChar (c : ascii) : ascii :=
  let n := code c in
  if ((65 <=? n) && (n <=? 90))
     || ((192 <=? n) && (n <=? 222) && negb (n =? 215))
  then ascii_of_nat (n + 32) else c.

Fixpoint toLowerCase (s : string) : string :=
  match s with
  | EmptyString => EmptyString
  | String c t => String (lowerChar c) (toLowerCase t)
  end.

Fixpoint trimStart (s : string) : string :=
  match s with
  | EmptyString => EmptyString
  | String c t => if isWhiteSpace c then trimStart t else s
  end.

Fixpoint trimEnd (s : string) : string :=
  match s with
  | EmptyString => EmptyString
  | String c t =>
      match trimEnd t with
      | EmptyString => if isWhiteSpace c then EmptyString else String c EmptyString
      | t' => String c t'
      end
  end.

Definition trim (s : string) : string := trimEnd (trimStart s).

Definition startsWith (s p : string) : bool := String.prefix p s.

(** [s.includes(sub)] *)
Fixpoint includes (s sub : string) : bool :=
  if String.prefix sub s then true
  else match s with
       | EmptyString => false
       | String _ t => includes t sub
       end.

Definition newline : ascii := ascii_of_nat 10.
Definition nl : string := String newline EmptyString.

(** [s.split('\n')] *)
Fixpoint splitLines (s : string) : list string :=
  match s with
  | EmptyString => [EmptyString]
  | String c t =>
      if Ascii.eqb c newline then EmptyString :: splitLines t
      else match splitLines t with
           | [] => [String c EmptyString]
           | l :: ls => String c l :: ls
           end
  end.

(** [xs.join(sep)] *)
Definition join (sep : string) (xs : list string) : string := String.concat sep xs.

(** [xs.slice(0, n)] *)
Definition slice0 {A} (n : nat) (xs : list A) : list A := take n xs.

(** [xs.findIndex(f)], with [None] for -1. *)
Fixpoint findIndex {A} (f : A -> bool) (xs : list A) : option nat :=
  match xs with
  | [] => None
  | x :: r => if f x then Some 0 else S <$> findIndex f r
  end.

(** [xs.find(f)] *)
Fixpoint find {A} (f : A -> bool) (xs : list A) : option A :=
  match xs with
  | [] => None
  | x :: r => if f x then Some x else find f r
  end.

(** Template interpolation of a non-negative integer. *)
Definition showNat (n : nat) : string := NilZero.string_of_uint (Nat.to_uint n).
Definition showZ (z : Z) : string := NilZero.string_of_int (Z.to_int z).

(** [Math.round]: the integer nearest to the number the float is, halves
    towards plus infinity. *)
Definition round (x : Double.t) : Z := Qfloor (Double.toQ x + (1 # 2)).

(** [Math.max(lo, Math.min(hi, x))] on integers and on rationals. *)
Definition clampZ (lo hi x : Z) : Z := Z.max lo (Z.min hi x).
Definition Qmin (a b : Q) : Q := if Qle_bool a b then a else b.
Definition Qmax (a b : Q) : Q := if Qle_bool a b then b else a.
Definition clampQ (lo hi x : Q) : Q := Qmax lo (Qmin hi x).

(** [x.toFixed(1)]: the sign, then the integer [n] nearest to ten times the
    magnitude of the number the float is (the larger one on a tie), printed
    with one decimal. *)
Definition toFixed1 (x : Double.t) : string :=
  let neg := negb (Qle_bool 0 (Double.toQ x)) in
  let m := if neg then Qopp (Double.toQ x) else Double.toQ x in
  let n := Qfloor (m * 10 + (1 # 2)) in
  (if neg then "-" else "") +:+ showZ (n / 10) +:+ "." +:+ showZ (n mod 10).

(** [s || d] on strings: the empty string is falsy. *)
Definition orString (s d : string) : string :=
  match s with EmptyString => d | _ => s end.

(** [n || d] on numbers: zero is falsy. *)
Definition orZ (n d : Z) : Z := if (n =? 0)%Z then d else n.

(** [x || 0] on a score that may be [undefined] or [null]: the number the
    program adds up. *)
Definition orZero (x : option Q) : Double.t := Double.ofQ (default 0%Q x).

End JS.

(** ** The data model *)

Inductive InterviewStatus := not_started | in_progress | completed.

Definition InterviewStatus_eqb (a b : InterviewStatus) : bool :=
  match a, b with
  | not_started, not_started | in_progress, in_progress | completed, completed => true
  | _, _ => false
  end.

(** A question as providers and the question bank give it, before the
    component attaches an id. *)
Module Item.
Record t := mk { question : string; difficulty : string; timeLimit : Z }.
End Item.

Module Question.
Record t := mk { id : string; question : string; difficulty : string; timeLimit : Z }.
Definition item (q : t) : Item.t := Item.mk (question q) (difficulty q) (timeLimit q).
End Question.

Module Answer.
Record t := mk {
  questionId : string;
  text : string;
  score : option Q;
  feedback : option string;
  timestamp : string }.
End Answer.

(** A candidate session as [IntervieweeTab.onFinish] creates it. [skills] is
    [resumeData?.skills]; the stored resume file takes no part in the
    interview logic and is left out. *)
Module Candidate.
Record t := mk {
  id : string;
  name : string;
  email : string;
  phone : string;
  skills : option (list string);
  interviewStatus : InterviewStatus;
  answers : list Answer.t;
  questions : list Question.t;
  currentQuestionIndex : nat;
  timeLeft : Z;
  isPaused : bool;
  score : option Z;
  summary : string;
  createdAt : string;
  completedAt : option (option string) }.
End Candidate.

(** The payload of an [updateCandidate] action: an object in which any field
    may be missing ([None] is [undefined]). *)
Module Payload.
Record t := mk {
  id : option string;
  name : option string;
  email : option string;
  phone : option string;
  skills : option (option (list string));
  interviewStatus : option InterviewStatus;
  answers : option (list Answer.t);
  questions : option (list Question.t);
  currentQuestionIndex : option nat;
  timeLeft : option Z;
  isPaused : option bool;
  score : option (option Z);
  summary : option string;
  createdAt : option string;
  completedAt : option (option string) }.

(** The payload [{...candidate}]: every field of the candidate, and
    [completedAt] when the candidate has that key. *)
Definition of_candidate (c : Candidate.t) : t :=
  mk (Some (Candidate.id c)) (Some (Candidate.name c)) (Some (Candidate.email c))
     (Some (Candidate.phone c)) (Some (Candidate.skills c))
     (Some (Candidate.interviewStatus c)) (Some (Candidate.answers c))
     (Some (Candidate.questions c)) (Some (Candidate.currentQuestionIndex c))
     (Some (Candidate.timeLeft c)) (Some (Candidate.isPaused c))
     (Some (Candidate.score c)) (Some (Candidate.summary c))
     (Some (Candidate.createdAt c)) (Candidate.completedAt c).
End Payload.

(** ** The candidates slice (candidatesSlice.js) *)

Module Slice.

Record State := mkState {
  candidates : list Candidate.t;
  currentCandidateId : option string;
  activeTab : string;
  viewMode : string }.

Definition initialState : State := mkState [] None "interviewee" "tabs".

Definition addCandidate (state : State) (payload : Candidate.t) : State :=
  mkState (candidates state ++ [payload]) (currentCandidateId state)
          (activeTab state) (viewMode state).

(** [c.id === action.payload.id] *)
Definition idMatches (pid : option string) (c : Candidate.t) : bool :=
  match pid with
  | Some i => String.eqb (Candidate.id c) i
  | None => false
  end.

(** [{ ...current, ...incoming, answers: incoming.answers !== undefined ?
    incoming.answers : current.answers, ... }]: a field the payload holds
    replaces the stored one, for the spread fields and for the eight
    fields merged by hand alike. *)
Definition merge (current : Candidate.t) (incoming : Payload.t) : Candidate.t :=
  Candidate.mk
    (default (Candidate.id current) (Payload.id incoming))
    (default (Candidate.name current) (Payload.name incoming))
    (default (Candidate.email current) (Payload.email incoming))
    (default (Candidate.phone current) (Payload.phone incoming))
    (default (Candidate.skills current) (Payload.skills incoming))
    (default (Candidate.interviewStatus current) (Payload.interviewStatus incoming))
    (default (Candidate.answers current) (Payload.answers incoming))
    (default (Candidate.questions current) (Payload.questions incoming))
    (default (Candidate.currentQuestionIndex current) (Payload.currentQuestionIndex incoming))
    (default (Candidate.timeLeft current) (Payload.timeLeft incoming))
    (default (Candidate.isPaused current) (Payload.isPaused incoming))
    (default (Candidate.score current) (Payload.score incoming))
    (default (Candidate.summary current) (Payload.summary incoming))
    (default (Candidate.createdAt current) (Payload.createdAt incoming))
    (match Payload.completedAt incoming with
     | Some completedAt => Some completedAt
     | None => Candidate.completedAt current
     end).

Definition updateCandidate (state : State) (payload : Payload.t) : State :=
  match JS.findIndex (idMatches (Payload.id payload)) (candidates state) with
  | None => state
  | Some index =>
      match candidates state !! index with
      | None => state
      | Some current =>
          mkState (<[index := merge current payload]> (candidates state))
                  (currentCandidateId state) (activeTab state) (viewMode state)
      end
  end.

Definition setCurrentCandidateId (state : State) (payload : option string) : State :=
  mkState (candidates state) payload (activeTab state) (viewMode state).

Definition setActiveTab (state : State) (payload : string) : State :=
  mkState (candidates state) (currentCandidateId state) payload (viewMode state).

Definition setViewMode (state : State) (payload : string) : State :=
  mkState (candidates state) (currentCandidateId state) (activeTab state) payload.

Definition resetCandidate (candidate : Candidate.t) : Candidate.t :=
  Candidate.mk (Candidate.id candidate) (Candidate.name candidate)
    (Candidate.email candidate) (Candidate.phone candidate) (Candidate.skills candidate)
    not_started [] [] 0 0%Z false None "" (Candidate.createdAt candidate) (Some None).

Definition resetInterview (state : State) (candidateId : string) : State :=
  match JS.findIndex (idMatches (Some candidateId)) (candidates state) with
  | None => state
  | Some candidateIndex =>
      match candidates state !! candidateIndex with
      | None => state
      | Some candidate =>
          mkState (<[candidateIndex := resetCandidate candidate]> (candidates state))
                  (currentCandidateId state) (activeTab state) (viewMode state)
      end
  end.

(** [candidates.find(c => c.id === currentCandidateId)] *)
Definition activeCandidate (state : State) : option Candidate.t :=
  JS.find (idMatches (currentCandidateId state)) (candidates state).

End Slice.

(** ** The Perplexity adapter (perplexityAPI.js) *)

Module PerplexityAPI.

(** What a chat-completion request asks for. The prompt text is a function
    of these arguments and is not spelled out. *)
Inductive Purpose :=
| Hello
| AskQuestions (position difficulty : string) (count : nat)
| AskEvaluation (question answer position : string)
| AskSummary (name : string) (answers : list Answer.t)
             (questions : list Question.t) (position : string).

Record Request := mkRequest { model : string; purpose : Purpose }.

(** The outcome of [perplexityAxios.post]: the call throws (network error,
    timeout, a status outside 2xx, or a reply whose first choice holds no
    message), or it resolves with a status and, when [data.choices] is a
    non-empty array, the content of its first message. *)
Inductive Response :=
| Rejected
| Replied (status : Z) (content : option string).

Definition Network := nat -> Request -> Response.

(** Computations that issue requests: the log of requests goes in and
    comes out. *)
Definition Net (A : Type) : Type := list Request -> A * list Request.

Definition ret {A} (a : A) : Net A := fun log => (a, log).

Definition bind {A B} (m : Net A) (k : A -> Net B) : Net B :=
  fun log => let (a, log') := m log in k a log'.

Notation "'let*' x ':=' m 'in' k" := (bind m (fun x => k))
  (at level 10, x name, m at level 100, k at level 200).

(** [response.status === 200 && response.data && response.data.choices &&
    response.data.choices.length > 0], then [choices[0].message.content]. *)
Definition usable (r : Response) : option string :=
  match r with
  | Replied 200 (Some content) => Some content
  | _ => None
  end.

Definition models : list string :=
  [ "llama-3.1-sonar-small-128k-online";
    "llama-3.1-sonar-large-128k-online";
    "sonar-small-online";
    "sonar-medium-online";
    "sonar" ].

Record Evaluation := mkEvaluation { score : Q; feedback : string }.

Inductive ConnectionTest :=
| Connected (message model : string)
| Unreachable (error : string).

Definition success (t : ConnectionTest) : bool :=
  match t with Connected _ _ => true | Unreachable _ => false end.

(** *** Parsing of replies *)

Fixpoint spanDigits (s : string) : string * string :=
  match s with
  | String c t =>
      if JS.isDigit c then let (d, r) := spanDigits t in (String c d, r)
      else (EmptyString, s)
  | EmptyString => (EmptyString, EmptyString)
  end.

Definition isEmpty (s : string) : bool :=
  match s with EmptyString => true | _ => false end.

Fixpoint forallChars (p : ascii -> bool) (s : string) : bool :=
  match s with
  | EmptyString => true
  | String c t => p c && forallChars p t
  end.

Fixpoint lastChar (s : string) : option ascii :=
  match s with
  | EmptyString => None
  | String c EmptyString => Some c
  | String _ t => lastChar t
  end.

(** [line.match(/^\d+\.\s*(.+)$/)], giving the captured group. After the
    digits and the dot, [\s*] takes all the white space it can; the group
    must then run to the end of the line over characters [.] accepts. When
    only white space follows the dot, [\s*] gives its last character back
    to the group. *)
Definition matchNumbered (line : string) : option string :=
  let (digits, rest) := spanDigits line in
  if isEmpty digits then None
  else match rest with
       | String "."%char tail =>
           let body := JS.trimStart tail in
           if isEmpty body then
             match lastChar tail with
             | Some c => if JS.isLineTerminator c then None
                         else Some (String c EmptyString)
             | None => None
             end
           else if forallChars (fun c => negb (JS.isLineTerminator c)) body
                then Some body else None
       | _ => None
       end.

Definition timeLimitOf (difficulty : string) : Z :=
  if String.eqb difficulty "easy" then 20%Z
  else if String.eqb difficulty "medium" then 60%Z else 120%Z.

Definition mkItem (difficulty text : string) : Item.t :=
  Item.mk text difficulty (timeLimitOf difficulty).

(** The first loop over the lines: numbered questions longer than ten
    characters. *)
Fixpoint numberedQuestions (difficulty : string) (lines : list string) : list Item.t :=
  match lines with
  | [] => []
  | line :: rest =>
      match matchNumbered line with
      | Some group =>
          let questionText := JS.trim group in
          if 10 <? String.length questionText
          then mkItem difficulty questionText :: numberedQuestions difficulty rest
          else numberedQuestions difficulty rest
      | None => numberedQuestions difficulty rest
      end
  end.

(** The second loop, run when the first found nothing: any line longer
    than twenty characters holding a question mark, until [count] are
    found. [found] counts the questions pushed so far. *)
Fixpoint looseQuestions (difficulty : string) (count found : nat)
         (lines : list string) : list Item.t :=
  match lines with
  | [] => []
  | line :: rest =>
      let trimmed := JS.trim line in
      if (20 <? String.length trimmed) && JS.includes trimmed "?"
      then mkItem difficulty trimmed ::
           (if count <=? S found then []
            else looseQuestions difficulty count (S found) rest)
      else looseQuestions difficulty count found rest
  end.

Definition parseQuestions (difficulty : string) (count : nat) (raw : string)
  : list Item.t :=
  let content := JS.trim raw in
  let lines := filter (fun line => negb (isEmpty (JS.trim line))) (JS.splitLines content) in
  let questions := numberedQuestions difficulty lines in
  match questions with
  | [] => looseQuestions difficulty count 0 lines
  | _ => questions
  end.

(** Decimal digits to a number, as [parseFloat] reads them. *)
Definition digitValue (c : ascii) : Z := Z.of_nat (JS.code c) - 48.

Fixpoint digitsToZ (acc : Z) (s : string) : Z :=
  match s with
  | EmptyString => acc
  | String c t => digitsToZ (acc * 10 + digitValue c) t
  end.

Definition decimal (int frac : string) : Q :=
  Qmake (digitsToZ 0 (int +:+ frac)) (Z.to_pos (10 ^ Z.of_nat (String.length frac))).

Definition isColonOrSpace (c : ascii) : bool :=
  Ascii.eqb c ":"%char || JS.isWhiteSpace c.

Fixpoint skipColonSpace (s : string) : string :=
  match s with
  | String c t => if isColonOrSpace c then skipColonSpace t else s
  | EmptyString => EmptyString
  end.

(** The remainder of [/score[:\s]*(\d+(?:\.\d+)?)/i] once the word has been
    read: the number, a fraction included when digits follow the point. *)
Definition scoreAfterWord (s : string) : option Q :=
  let (int, r1) := spanDigits (skipColonSpace s) in
  if isEmpty int then None
  else match r1 with
       | String "."%char r2 =>
           let (frac, _) := spanDigits r2 in
           Some (if isEmpty frac then decimal int EmptyString else decimal int frac)
       | _ => Some (decimal int EmptyString)
       end.

Fixpoint dropChars (n : nat) (s : string) : string :=
  match n, s with
  | S n', String _ t => dropChars n' t
  | _, _ => s
  end.

(** Does [word] (in lower case) start [s], letter case ignored? *)
Definition startsWithWord (word s : string) : bool :=
  String.prefix word (JS.toLowerCase s).

(** [content.match(/score[:\s]*(\d+(?:\.\d+)?)/i)]: the leftmost match. *)
Fixpoint scoreMatch (s : string) : option Q :=
  match (if startsWithWord "score" s then scoreAfterWord (dropChars 5 s) else None) with
  | Some q => Some q
  | None => match s with
            | EmptyString => None
            | String _ t => scoreMatch t
            end
  end.

Fixpoint spanLine (s : string) : string * string :=
  match s with
  | String c t =>
      if JS.isLineTerminator c then (EmptyString, s)
      else let (g, r) := spanLine t in (String c g, r)
  | EmptyString => (EmptyString, EmptyString)
  end.

(** [(.+?)(?:\n|$)] at [s]: the shortest non-empty run of characters [.]
    accepts that ends before a newline or at the end of the input. *)
Definition lazyGroup (s : string) : option string :=
  let (group, rest) := spanLine s in
  if isEmpty group then None
  else match rest with
       | EmptyString => Some group
       | String c _ => if Ascii.eqb c JS.newline then Some group else None
       end.

(** [[:\s]*(.+?)(?:\n|$)] at [s]: the longest run of colons and white space
    first, one character given back at a time. *)
Fixpoint feedbackAfterWord (s : string) : option string :=
  match s with
  | String c t =>
      if isColonOrSpace c then
        match feedbackAfterWord t with
        | Some g => Some g
        | None => lazyGroup s
        end
      else lazyGroup s
  | EmptyString => None
  end.

(** [content.match(/feedback[:\s]*(.+?)(?:\n|$)/i)]: the leftmost match. *)
Fixpoint feedbackMatch (s : string) : option string :=
  match (if startsWithWord "feedback" s then feedbackAfterWord (dropChars 8 s) else None) with
  | Some g => Some g
  | None => match s with
            | EmptyString => None
            | String _ t => feedbackMatch t
            end
  end.

(** The [try] block of a successful evaluation reply; nothing in it
    throws, so its [catch] is never entered. *)
Definition parseEvaluation (content : string) : Evaluation :=
  mkEvaluation
    (match scoreMatch content with
     | Some x => JS.clampQ 0 10 x
     | None => 5%Q
     end)
    (match feedbackMatch content with
     | Some g => JS.trim g
     | None => JS.trim content
     end).

(** *** The basic evaluation used when every model has failed *)

Definition technicalKeywords : list string :=
  [ "function"; "variable"; "scope"; "closure"; "async"; "promise";
    "component"; "state"; "props"; "api"; "database"; "server"; "client" ].

Definition foundKeywords (answer : string) : list string :=
  let answerLower := JS.toLowerCase answer in
  filter (fun keyword => JS.includes answerLower keyword) technicalKeywords.

Definition basicScore (answer : string) : nat :=
  let score := 3 in
  let score := if 50 <? String.length answer then score + 1 else score in
  let score := if 100 <? String.length answer then score + 1 else score in
  let score := score + Nat.min (length (foundKeywords answer)) 3 in
  Nat.min 10 score.

Definition basicFeedback (score : nat) (found : list string) : string :=
  "Basic evaluation: Answer shows "
  +:+ (if 7 <=? score then "good" else if 5 <=? score then "moderate" else "limited")
  +:+ " technical understanding. "
  +:+ (match found with
       | [] => ""
       | _ => "Mentioned relevant concepts: " +:+ JS.join ", " (JS.slice0 3 found) +:+ "."
       end)
  +:+ " Consider providing more detailed explanations.".

Definition basicEvaluation (answer : string) : Evaluation :=
  mkEvaluation (inject_Z (Z.of_nat (basicScore answer)))
               (basicFeedback (basicScore answer) (foundKeywords answer)).

(** *** The default summary used when every model has failed *)

Definition sumScores (answers : list Answer.t) : Double.t :=
  fold_left (fun sum a => Double.add sum (JS.orZero (Answer.score a))) answers
            (Double.ofZ 0).

Definition avgScore (answers : list Answer.t) : Double.t :=
  match answers with
  | [] => Double.ofZ 0
  | _ => Double.div (sumScores answers) (Double.ofZ (Z.of_nat (length answers)))
  end.

Inductive Band := Strong | Moderate | BelowAverage.

Definition band (avg : Double.t) : Band :=
  if Double.leb (Double.ofZ 7) avg then Strong
  else if Double.leb (Double.ofZ 5) avg then Moderate else BelowAverage.

Definition overview (b : Band) : string :=
  match b with
  | Strong => "Strong performance with good technical understanding."
  | Moderate => "Moderate performance with room for improvement."
  | BelowAverage => "Below average performance, significant gaps in technical knowledge."
  end.

Definition recommendation (b : Band) : string :=
  match b with
  | Strong => "Consider for next round"
  | Moderate => "Requires further evaluation"
  | BelowAverage => "Not recommended at this time"
  end.

Definition defaultSummary (name : string) (answers : list Answer.t) : string :=
  let avg := avgScore answers in
  "Interview Summary for " +:+ JS.orString name "Candidate" +:+ JS.nl +:+ JS.nl
  +:+ "Technical Skills Assessment: The candidate completed "
  +:+ JS.showNat (length answers)
  +:+ " out of 6 interview questions with an average score of "
  +:+ JS.toFixed1 avg +:+ "/10." +:+ JS.nl +:+ JS.nl
  +:+ "Performance Overview: " +:+ overview (band avg) +:+ JS.nl +:+ JS.nl
  +:+ "Areas for Improvement: Based on the interview responses, the candidate would benefit from additional practice and study in the technical areas covered."
  +:+ JS.nl +:+ JS.nl
  +:+ "Recommendation: " +:+ recommendation (band avg)
  +:+ " based on current technical assessment." +:+ JS.nl +:+ JS.nl
  +:+ "Note: This is an automated summary. Manual review recommended for final hiring decisions.".

(** *** The fallback questions of [generateQuestions]

    The table is an object literal read with the lower-cased difficulty.
    It gives one of its three lists for its own keys. For [constructor] and
    [__proto__], the two names without a capital that every object
    inherits, it gives a value that is truthy and cannot be spread, so that
    [[...availableQuestions]] throws a [TypeError]; for any other key it
    gives [undefined], and the medium list is taken. *)

Definition fallbackQuestions (difficultyKey : string) : option (list string) :=
  if String.eqb difficultyKey "easy" then Some
    [ "What is the difference between let, const, and var in JavaScript?";
      "Explain what a function is and how to create one.";
      "What is the purpose of HTML and CSS?";
      "Describe what an API is in simple terms." ]
  else if String.eqb difficultyKey "medium" then Some
    [ "How do you handle asynchronous operations in JavaScript?";
      "Explain the concept of state management in React.";
      "What are the differences between SQL and NoSQL databases?";
      "Describe how you would optimize a slow-loading web page." ]
  else if String.eqb difficultyKey "hard" then Some
    [ "Design a scalable architecture for a high-traffic web application.";
      "Explain how you would implement real-time features in a web app.";
      "Describe your approach to handling security in a full-stack application.";
      "How would you design a system to handle millions of concurrent users?" ]
  else None.

Definition inherited (difficultyKey : string) : bool :=
  String.eqb difficultyKey "constructor" || String.eqb difficultyKey "__proto__".

(** [fallbackQuestions[difficultyKey] || fallbackQuestions['medium']] as
    far as it can be spread: [None] is the [TypeError]. *)
Definition availableQuestions (difficulty : string) : option (list string) :=
  let difficultyKey := JS.toLowerCase difficulty in
  match fallbackQuestions difficultyKey with
  | Some qs => Some qs
  | None => if inherited difficultyKey then None else fallbackQuestions "medium"
  end.

(** The summary a reply carries: the trimmed content of a usable reply,
    when it is longer than fifty characters. *)
Definition summaryOf (r : Response) : option string :=
  match usable r with
  | Some raw =>
      let content := JS.trim raw in
      if 50 <? String.length content then Some content else None
  | None => None
  end.

(** *** The adapter, over a key, a network and a shuffle *)

Section Adapter.

(** [PerplexityAPI.apiKey], the empty string when the variable is unset. *)
Variable apiKey : string.
Variable net : Network.
(** The order in which [sort(() => 0.5 - Math.random())] leaves an array. *)
Variable shuffle : list string -> list string.

Definition post (req : Request) : Net Response :=
  fun log => (net (length log) req, log ++ [req]).

Definition isApiKeyAvailable : bool :=
  let key := apiKey in
  if isEmpty key then false
  else if String.eqb key "undefined" then false
  else
    let trimmedKey := JS.trim key in
    if isEmpty trimmedKey then false
    else if String.eqb trimmedKey "your_perplexity_api_key_here" then false
    else if negb (JS.startsWith trimmedKey "pplx-") then false
    else if String.length trimmedKey <? 30 then false
    else true.

Definition checkApiKey : bool :=
  let key := apiKey in
  if isEmpty key || String.eqb key "undefined" || isEmpty (JS.trim key) then false
  else
    let trimmedKey := JS.trim key in
    if negb (JS.startsWith trimmedKey "pplx-") then false
    else true.

Fixpoint testModels (ms : list string) : Net ConnectionTest :=
  match ms with
  | [] => ret (Unreachable "All test models failed. Please check your API key and account status.")
  | model :: rest =>
      let* response := post (mkRequest model Hello) in
      match usable response with
      | Some content => ret (Connected content model)
      | None => testModels rest
      end
  end.

Definition testConnection : Net ConnectionTest :=
  if negb checkApiKey
  then ret (Unreachable "API key not available or invalid format")
  else testModels models.

Definition selectedQuestions (difficulty : string) (count : nat) : option (list Item.t) :=
  match availableQuestions difficulty with
  | Some availableQuestions =>
      let shuffled := shuffle availableQuestions in
      Some (map (mkItem difficulty) (take (Nat.min count (length shuffled)) shuffled))
  | None => None
  end.

(** The loop over the models and the fallback after it. The result [None]
    is the promise rejected by the [TypeError] of the fallback. *)
Fixpoint generateWith (position difficulty : string) (count : nat)
         (ms : list string) : Net (option (list Item.t)) :=
  match ms with
  | [] => ret (selectedQuestions difficulty count)
  | model :: rest =>
      let* response := post (mkRequest model (AskQuestions position difficulty count)) in
      match usable response with
      | Some raw =>
          match parseQuestions difficulty count raw with
          | [] => generateWith position difficulty count rest
          | questions => ret (Some (JS.slice0 count questions))
          end
      | None => generateWith position difficulty count rest
      end
  end.

Definition generateQuestions (position difficulty : string) (count : nat)
  : Net (option (list Item.t)) :=
  if negb checkApiKey then ret (Some [])
  else generateWith position difficulty count models.

Fixpoint evaluateWith (question answer position : string) (ms : list string)
  : Net Evaluation :=
  match ms with
  | [] => ret (basicEvaluation answer)
  | model :: rest =>
      let* response := post (mkRequest model (AskEvaluation question answer position)) in
      match usable response with
      | Some raw => ret (parseEvaluation (JS.trim raw))
      | None => evaluateWith question answer position rest
      end
  end.

Definition evaluateAnswer (question answer position : string) : Net Evaluation :=
  if negb checkApiKey
  then ret (mkEvaluation 5%Q "Using default evaluation due to missing API key.")
  else evaluateWith question answer position models.

Fixpoint summariseWith (candidateData : Candidate.t) (position : string)
         (ms : list string) : Net string :=
  match ms with
  | [] => ret (defaultSummary (Candidate.name candidateData)
                              (Candidate.answers candidateData))
  | model :: rest =>
      let* response :=
        post (mkRequest model
                (AskSummary (JS.orString (Candidate.name candidateData) "this candidate")
                            (Candidate.answers candidateData)
                            (Candidate.questions candidateData) position)) in
      match summaryOf response with
      | Some content => ret content
      | None => summariseWith candidateData position rest
      end
  end.

Definition generateSummary (candidateData : Candidate.t) (position : string)
  : Net string :=
  if negb checkApiKey
  then ret "Using default summary due to missing API key."
  else summariseWith candidateData position models.

End Adapter.

End PerplexityAPI.

(** ** The question bank (defaultQuestions.js) *)

Definition defaultQuestions : list Item.t :=
  [ Item.mk "What is the difference between let, const, and var in JavaScript?" "Easy" 20;
    Item.mk "Explain how React's virtual DOM works and why it's beneficial." "Easy" 20;
    Item.mk "Describe the concept of closures in JavaScript with an example." "Medium" 60;
    Item.mk "How would you implement a debounce function in JavaScript?" "Medium" 60;
    Item.mk "Explain the concept of server-side rendering in React and its advantages." "Hard" 120;
    Item.mk "Design a scalable state management solution for a complex React application." "Hard" 120 ].

(** ** The interview component (InterviewChat.jsx) *)

Module InterviewChat.

Import PerplexityAPI.

Definition getTimeLimit (index : nat) : Z :=
  if index <? 2 then 20%Z else if index <? 4 then 60%Z else 120%Z.

Definition getDifficulty (index : nat) : string :=
  if index <? 2 then "Easy" else if index <? 4 then "Medium" else "Hard".

(** [resumeData?.skills?.join(', ') || 'Full Stack Developer (React/Node.js)'] *)
Definition roleInfo (skills : option (list string)) : string :=
  JS.orString (match skills with Some l => JS.join ", " l | None => "" end)
              "Full Stack Developer (React/Node.js)".

(** [`${prefix}-${Date.now()}-${idx}`] *)
Definition questionId (prefix : string) (now idx : nat) : string :=
  prefix +:+ "-" +:+ JS.showNat now +:+ "-" +:+ JS.showNat idx.

Definition defaultBatch (now : nat) : list Question.t :=
  imap (fun idx q =>
          Question.mk (questionId "default" now idx) (Item.question q) (Item.difficulty q)
                      (JS.orZ (Item.timeLimit q) (getTimeLimit idx)))
       defaultQuestions.

Definition generatedBatch (now : nat) (allQuestions : list Item.t) : list Question.t :=
  imap (fun idx q =>
          Question.mk (questionId "generated" now idx) (Item.question q)
                      (JS.orString (Item.difficulty q) (getDifficulty idx))
                      (JS.orZ (Item.timeLimit q) (getTimeLimit idx)))
       allQuestions.

(** [activeCandidate?.currentQuestionIndex || 0] *)
Definition indexOf (active : option Candidate.t) : nat :=
  match active with Some c => Candidate.currentQuestionIndex c | None => 0 end.

Definition sentinel : string := "No answer provided (time ran out)".

(** [answer || "No answer provided (time ran out)"] *)
Definition answerToSubmit (answer : string) : string := JS.orString answer sentinel.

(** The objects the component dispatches: spreads of a candidate with a
    few fields replaced. *)
Definition withQuestions (c : Candidate.t) (batch : list Question.t) (first : Z) : Candidate.t :=
  Candidate.mk (Candidate.id c) (Candidate.name c) (Candidate.email c) (Candidate.phone c)
    (Candidate.skills c) in_progress (Candidate.answers c) batch 0 first false
    (Candidate.score c) (Candidate.summary c) (Candidate.createdAt c) (Candidate.completedAt c).

Definition withAnswer (c : Candidate.t) (updatedAnswers : list Answer.t)
           (nextIndex : nat) (nextTimeLeft : Z) : Candidate.t :=
  Candidate.mk (Candidate.id c) (Candidate.name c) (Candidate.email c) (Candidate.phone c)
    (Candidate.skills c) (Candidate.interviewStatus c) updatedAnswers (Candidate.questions c)
    nextIndex nextTimeLeft false
    (Candidate.score c) (Candidate.summary c) (Candidate.createdAt c) (Candidate.completedAt c).

Definition withCompletion (c : Candidate.t) (averageScore : Z) (summary completedAt : string)
  : Candidate.t :=
  Candidate.mk (Candidate.id c) (Candidate.name c) (Candidate.email c) (Candidate.phone c)
    (Candidate.skills c) completed (Candidate.answers c) (Candidate.questions c)
    (Candidate.currentQuestionIndex c) (Candidate.timeLeft c) (Candidate.isPaused c)
    (Some averageScore) summary (Candidate.createdAt c) (Some (Some completedAt)).

Definition withPause (c : Candidate.t) (newPausedState : bool) (timeLeft : Z) : Candidate.t :=
  Candidate.mk (Candidate.id c) (Candidate.name c) (Candidate.email c) (Candidate.phone c)
    (Candidate.skills c) (Candidate.interviewStatus c) (Candidate.answers c)
    (Candidate.questions c) (Candidate.currentQuestionIndex c) timeLeft newPausedState
    (Candidate.score c) (Candidate.summary c) (Candidate.createdAt c) (Candidate.completedAt c).

Definition withIndex (c : Candidate.t) (safeIndex : nat) (newTimeLeft : Z) : Candidate.t :=
  Candidate.mk (Candidate.id c) (Candidate.name c) (Candidate.email c) (Candidate.phone c)
    (Candidate.skills c) (Candidate.interviewStatus c) (Candidate.answers c)
    (Candidate.questions c) safeIndex newTimeLeft (Candidate.isPaused c)
    (Candidate.score c) (Candidate.summary c) (Candidate.createdAt c) (Candidate.completedAt c).

(** The final score of [finishInterview]:
    [perQuestionScores.reduce((s, n) => s + n, 0) / 6], times ten, rounded
    and kept within 0 and 100. *)
Definition perQuestionScores (answers : list Answer.t) : list Double.t :=
  map (fun a => JS.orZero (Answer.score a)) answers.

Definition totalOutOfTen (answers : list Answer.t) : Double.t :=
  fold_left (fun s n => Double.add s n) (perQuestionScores answers) (Double.ofZ 0).

Definition averageScore (answers : list Answer.t) : Z :=
  let averageOutOfTen := Double.div (totalOutOfTen answers) (Double.ofZ 6) in
  Z.max 0 (Z.min 100 (JS.round (Double.mul averageOutOfTen (Double.ofZ 10)))).

Section Component.

Variable apiKey : string.
Variable net : Network.
Variable shuffle : list string -> list string.
(** [Date.now()] and [new Date().toISOString()]; the clock stands still. *)
Variable now : nat.
Variable isoNow : string.
(** Every call of [generateQuestionsBatch] creates a thirty-second promise
    of its own and races its three requests against it. [timeoutAt start]
    is the race, counted from 0, that this promise wins, if it wins one, in
    the call that begins when [start] requests have been issued. *)
Variable timeoutAt : nat -> option nat.

Definition lostRace (start k : nat) : bool :=
  match timeoutAt start with Some j => j =? k | None => false end.

(** [await Promise.race([generateQuestions(...), timeoutPromise])]: the
    questions, or [None] when the race is lost or the call throws; either
    way the inner [catch] is entered. *)
Definition raced (start k : nat) (questions : option (list Item.t))
  : option (list Item.t) :=
  if lostRace start k then None else questions.

(** [generateQuestionsBatch]. The inner [catch] leaves [allQuestions]
    empty; nothing throws into the outer one. *)
Definition generateQuestionsBatch (active : Candidate.t) : Net (list Question.t) :=
  fun log =>
  let start := length log in
  let position := roleInfo (Candidate.skills active) in
  let finish (allQuestions : list Item.t) : list Question.t :=
    match allQuestions with
    | [] => defaultBatch now
    | _ => generatedBatch now allQuestions
    end in
  (if isApiKeyAvailable apiKey then
     let* connectionTest := testConnection apiKey net in
     if success connectionTest then
       let* easy := generateQuestions apiKey net shuffle position "easy" 2 in
       match raced start 0 easy with
       | None => ret (finish [])
       | Some easyQuestions =>
           let* medium := generateQuestions apiKey net shuffle position "medium" 2 in
           match raced start 1 medium with
           | None => ret (finish [])
           | Some mediumQuestions =>
               let* hard := generateQuestions apiKey net shuffle position "hard" 2 in
               match raced start 2 hard with
               | None => ret (finish [])
               | Some hardQuestions =>
                   ret (finish (easyQuestions ++ mediumQuestions ++ hardQuestions))
               end
           end
       end
     else ret (finish [])
   else ret (finish [])) log.

(** The update [submitAnswer] dispatches once the evaluation is known. *)
Definition submitted (active : Candidate.t) (currentQuestion : Question.t)
           (text : string) (evaluation : Evaluation) : Candidate.t :=
  let updatedAnswers :=
    Candidate.answers active ++
    [ Answer.mk (Question.id currentQuestion) text
                (Some (PerplexityAPI.score evaluation))
                (Some (PerplexityAPI.feedback evaluation)) isoNow ] in
  let nextIndex := Candidate.currentQuestionIndex active + 1 in
  let nextTimeLeft :=
    match Candidate.questions active !! nextIndex with
    | Some nextQuestion => JS.orZ (Question.timeLimit nextQuestion) (getTimeLimit nextIndex)
    | None => 0%Z
    end in
  withAnswer active updatedAnswers nextIndex nextTimeLeft.

(** The guards at the head of [submitAnswer]: the question being
    answered, when there is one. *)
Definition questionToAnswer (active : Candidate.t) : option Question.t :=
  if 6 <=? Candidate.currentQuestionIndex active then None
  else Candidate.questions active !! Candidate.currentQuestionIndex active.

(** [submitAnswer], from the guards to the dispatched update. *)
Definition submitAnswer (active : Candidate.t) (answer : string)
  : Net (option Candidate.t) :=
  match questionToAnswer active with
  | None => ret None
  | Some currentQuestion =>
      let* evaluation :=
        evaluateAnswer apiKey net (Question.question currentQuestion)
                       (answerToSubmit answer) (roleInfo (Candidate.skills active)) in
      ret (Some (submitted active currentQuestion (answerToSubmit answer) evaluation))
  end.

(** [finishInterview]: the update its [try] block dispatches. The call to
    [generateSummary] does not throw, so neither the default summary text
    nor the outer [catch] comes into play. *)
Definition finishInterview (active : Candidate.t) : Net Candidate.t :=
  let* summary := generateSummary apiKey net active (roleInfo (Candidate.skills active)) in
  ret (withCompletion active (averageScore (Candidate.answers active)) summary isoNow).

End Component.

(** *** The component as a transition system

    The state of one mounted component: the store it reads and writes, its
    local state, its refs, and the promises still pending. Error and notice
    texts only feed the rendering and are left out. Candidates are not
    switched and the component is not unmounted.

    How React runs the component is written out as follows.
    - The state updates an event handler makes, a dispatch included, are
      applied together; the effects whose dependencies changed then run, the
      cleanups first, the bodies in the order of the source.
    - The initialisation effect depends on the active candidate and runs
      again whenever an update replaces it in the store; the timer effect
      depends on [currentQuestionIndex] and [isPaused] only.
    - A callback keeps the values of the render that created it: a pending
      promise and the running interval carry the candidate and the answer
      text they closed over.
    - A promise does its requests when it settles; the call that the
      interval schedules a tenth of a second after the countdown reaches
      zero is made at once. *)

(** What a callback created during a render sees of that render. *)
Record Closure := mkClosure { captured : Candidate.t; capturedAnswer : string }.

Inductive Task :=
| Generating (active : Candidate.t)
| Submitting (active : Candidate.t) (answer : string)
| Finishing (active : Candidate.t).

Record Chat := mkChat {
  store : Slice.State;
  timeLeft : Z;
  answer : string;
  isPaused : bool;
  loading : bool;
  (** [timerRef]: the running interval, with the render its callback
      closes over. *)
  timerRef : option Closure;
  hasGeneratedQuestions : bool;
  hasFinishedInterview : bool;
  (** [generationTimeoutRef]: the pending 35-second timer, with the value
      of [loading] its callback closes over. *)
  generationTimeoutRef : option bool;
  (** Did the last run of the initialisation effect return a cleanup? *)
  initCleanup : bool;
  inFlight : list Task;
  requests : list Request;
  (** Bookkeeping of the model: how often the out-of-range guard has
      dispatched its update. *)
  clamps : nat }.

Definition setStore v s := mkChat v (timeLeft s) (answer s) (isPaused s) (loading s)
  (timerRef s) (hasGeneratedQuestions s) (hasFinishedInterview s)
  (generationTimeoutRef s) (initCleanup s) (inFlight s) (requests s) (clamps s).
Definition setTimeLeft v s := mkChat (store s) v (answer s) (isPaused s) (loading s)
  (timerRef s) (hasGeneratedQuestions s) (hasFinishedInterview s)
  (generationTimeoutRef s) (initCleanup s) (inFlight s) (requests s) (clamps s).
Definition setAnswer v s := mkChat (store s) (timeLeft s) v (isPaused s) (loading s)
  (timerRef s) (hasGeneratedQuestions s) (hasFinishedInterview s)
  (generationTimeoutRef s) (initCleanup s) (inFlight s) (requests s) (clamps s).
Definition setIsPaused v s := mkChat (store s) (timeLeft s) (answer s) v (loading s)
  (timerRef s) (hasGeneratedQuestions s) (hasFinishedInterview s)
  (generationTimeoutRef s) (initCleanup s) (inFlight s) (requests s) (clamps s).
Definition setLoading v s := mkChat (store s) (timeLeft s) (answer s) (isPaused s) v
  (timerRef s) (hasGeneratedQuestions s) (hasFinishedInterview s)
  (generationTimeoutRef s) (initCleanup s) (inFlight s) (requests s) (clamps s).
Definition setTimerRef v s := mkChat (store s) (timeLeft s) (answer s) (isPaused s)
  (loading s) v (hasGeneratedQuestions s) (hasFinishedInterview s)
  (generationTimeoutRef s) (initCleanup s) (inFlight s) (requests s) (clamps s).
Definition setHasGeneratedQuestions v s := mkChat (store s) (timeLeft s) (answer s)
  (isPaused s) (loading s) (timerRef s) v (hasFinishedInterview s)
  (generationTimeoutRef s) (initCleanup s) (inFlight s) (requests s) (clamps s).
Definition setHasFinishedInterview v s := mkChat (store s) (timeLeft s) (answer s)
  (isPaused s) (loading s) (timerRef s) (hasGeneratedQuestions s) v
  (generationTimeoutRef s) (initCleanup s) (inFlight s) (requests s) (clamps s).
Definition setGenerationTimeoutRef v s := mkChat (store s) (timeLeft s) (answer s)
  (isPaused s) (loading s) (timerRef s) (hasGeneratedQuestions s)
  (hasFinishedInterview s) v (initCleanup s) (inFlight s) (requests s) (clamps s).
Definition setInitCleanup v s := mkChat (store s) (timeLeft s) (answer s) (isPaused s)
  (loading s) (timerRef s) (hasGeneratedQuestions s) (hasFinishedInterview s)
  (generationTimeoutRef s) v (inFlight s) (requests s) (clamps s).
Definition setInFlight v s := mkChat (store s) (timeLeft s) (answer s) (isPaused s)
  (loading s) (timerRef s) (hasGeneratedQuestions s) (hasFinishedInterview s)
  (generationTimeoutRef s) (initCleanup s) v (requests s) (clamps s).
Definition setRequests v s := mkChat (store s) (timeLeft s) (answer s) (isPaused s)
  (loading s) (timerRef s) (hasGeneratedQuestions s) (hasFinishedInterview s)
  (generationTimeoutRef s) (initCleanup s) (inFlight s) v (clamps s).
Definition countClamp s := mkChat (store s) (timeLeft s) (answer s) (isPaused s)
  (loading s) (timerRef s) (hasGeneratedQuestions s) (hasFinishedInterview s)
  (generationTimeoutRef s) (initCleanup s) (inFlight s) (requests s) (S (clamps s)).

Definition addTask (t : Task) (s : Chat) : Chat := setInFlight (inFlight s ++ [t]) s.

Definition activeCandidate (s : Chat) : option Candidate.t :=
  Slice.activeCandidate (store s).

(** [dispatch(updateCandidate(updatedCandidate))] *)
Definition dispatchUpdate (updatedCandidate : Candidate.t) (s : Chat) : Chat :=
  setStore (Slice.updateCandidate (store s) (Payload.of_candidate updatedCandidate)) s.

(** Does an update for [updatedCandidate] replace the active candidate, so
    that the effects depending on it run again? *)
Definition replacesActive (updatedCandidate : Candidate.t) (s : Chat) : bool :=
  match activeCandidate s with
  | Some active => String.eqb (Candidate.id active) (Candidate.id updatedCandidate)
  | None => false
  end.

Definition runNet {A} (m : Net A) (s : Chat) : A * Chat :=
  let (a, log) := m (requests s) in (a, setRequests log s).

Definition isGenerating (t : Task) : bool :=
  match t with Generating _ => true | _ => false end.

(** The calls of [generateQuestionsBatch] that have not settled yet. *)
Definition outstandingGenerations (s : Chat) : nat :=
  length (filter (fun t => isGenerating t = true) (inFlight s)).

(** [!activeCandidate.score] *)
Definition noScore (score : option Z) : bool :=
  match score with None => true | Some z => (z =? 0)%Z end.

(** The first render of a freshly mounted component. *)
Definition firstRender (st : Slice.State) (log : list Request) : Chat :=
  let active := Slice.activeCandidate st in
  mkChat st (match active with Some c => Candidate.timeLeft c | None => 0%Z end) ""
         (match active with Some c => Candidate.isPaused c | None => false end)
         true None false false None false [] log 0.

(** The interview screen, with the text area and the two buttons, is
    rendered only for a candidate who has not completed, while nothing is
    loading. *)
Definition mainVisible (s : Chat) : bool :=
  match activeCandidate s with
  | Some c => negb (InterviewStatus_eqb (Candidate.interviewStatus c) completed)
              && negb (loading s)
  | None => false
  end.

(** What can happen to the mounted component. The events carry no time:
    a run is any sequence of them, so a property proved of every run also
    covers the orders the program's timers exclude (the 35-second timer
    firing while a race of at most 30 seconds is still undecided), and the
    runs exhibited as examples use none of these orders. *)
Inductive Event :=
| Typing (text : string)   (* the text area changes *)
| TogglePause              (* the Pause / Resume button *)
| ClickSubmit              (* the Submit Answer button *)
| Tick                     (* the one-second interval fires *)
| Settle (i : nat)         (* the i-th pending promise is fulfilled *)
| Reject (i : nat)         (* the i-th pending promise is rejected *)
| GenerationTimeout        (* the 35-second timer fires *)
| EffectRerun.             (* the initialisation effect runs again *)

Section Machine.

Variable apiKey : string.
Variable net : Network.
Variable shuffle : list string -> list string.
Variable now : nat.
Variable isoNow : string.
Variable timeoutAt : nat -> option nat.

(** The body of the initialisation effect, run for the render [r] on the
    state [s]; the flag tells whether it dispatched an update. *)
Definition initEffect (r s : Chat) : Chat * bool :=
  let s := setGenerationTimeoutRef None s in
  match activeCandidate r with
  | None => (setInitCleanup false (setLoading false s), false)
  | Some active =>
      let currentQuestionIndex := Candidate.currentQuestionIndex active in
      let s :=
        if negb (hasGeneratedQuestions s)
           && InterviewStatus_eqb (Candidate.interviewStatus active) not_started
        then snd (runNet (testConnection apiKey net) s) else s in
      if InterviewStatus_eqb (Candidate.interviewStatus active) completed
      then (setInitCleanup false s, false)
      else if currentQuestionIndex <? 6 then
        match Candidate.questions active with
        | [] =>
            if negb (hasGeneratedQuestions s) then
              (setInitCleanup true
                 (addTask (Generating active)
                    (setLoading true
                       (setGenerationTimeoutRef (Some (loading r))
                          (setHasGeneratedQuestions true s)))), false)
            else (setInitCleanup true s, false)
        | _ :: _ =>
            if length (Candidate.questions active) <=? currentQuestionIndex then
              let safeIndex := Nat.max 0 (length (Candidate.questions active) - 1) in
              match Candidate.questions active !! safeIndex with
              | Some q =>
                  let newTimeLeft := JS.orZ (Candidate.timeLeft active) (Question.timeLimit q) in
                  let changed := negb (currentQuestionIndex =? safeIndex)
                                 || negb (Candidate.timeLeft active =? newTimeLeft)%Z in
                  let s := if changed
                           then countClamp
                                  (dispatchUpdate (withIndex active safeIndex newTimeLeft) s)
                           else s in
                  (setInitCleanup false (setTimeLeft newTimeLeft s), changed)
              | None => (setInitCleanup false s, false)
              end
            else
              match Candidate.questions active !! currentQuestionIndex with
              | Some currentQuestion =>
                  let newTimeLeft :=
                    JS.orZ (Candidate.timeLeft active) (Question.timeLimit currentQuestion) in
                  let s := if negb (timeLeft r =? newTimeLeft)%Z
                           then setTimeLeft newTimeLeft s else s in
                  (setInitCleanup true (setLoading false s), false)
              | None => (setInitCleanup false s, false)
              end
        end
      else if (6 <=? currentQuestionIndex)
              && negb (length (Candidate.questions active) =? 0)
              && noScore (Candidate.score active) then
        if negb (hasFinishedInterview s) then
          (setInitCleanup true
             (addTask (Finishing active)
                (setLoading true (setHasFinishedInterview true s))), false)
        else (setInitCleanup true s, false)
      else (setInitCleanup true (setLoading false s), false)
  end.

(** The body of the timer effect: the interval it starts closes over the
    [submitAnswer] of the render [r]. *)
Definition timerEffect (r s : Chat) : Chat :=
  let s := setTimerRef None s in
  match activeCandidate r with
  | None => s
  | Some active =>
      let currentQuestionIndex := Candidate.currentQuestionIndex active in
      if isPaused r
         || InterviewStatus_eqb (Candidate.interviewStatus active) completed
         || (6 <=? currentQuestionIndex)
      then s
      else match Candidate.questions active !! currentQuestionIndex with
           | None => s
           | Some currentQuestion =>
               let s := if (timeLeft r <=? 0)%Z
                        then setTimeLeft (JS.orZ (Question.timeLimit currentQuestion)
                                                 (getTimeLimit currentQuestionIndex)) s
                        else s in
               setTimerRef (Some (mkClosure active (answer r))) s
           end
  end.

(** The effect on [currentCandidateId]: it clears both flags and the
    35-second timer. *)
Definition flagsEffect (s : Chat) : Chat :=
  setGenerationTimeoutRef None
    (setHasFinishedInterview false (setHasGeneratedQuestions false s)).

(** Did the dependencies of the timer effect change between two renders? *)
Definition timerDeps (r0 r1 : Chat) : bool :=
  negb (indexOf (activeCandidate r0) =? indexOf (activeCandidate r1))
  || negb (Bool.eqb (isPaused r0) (isPaused r1)).

(** One round of effects after the render [r]: the cleanups of the
    effects that run again, then their bodies in the order of the source.
    The cleanup of the initialisation effect clears the interval. *)
Definition effects (runInit runTimer : bool) (r s : Chat) : Chat * bool :=
  let s := if runInit && initCleanup s then setTimerRef None s else s in
  let s := if runTimer then setTimerRef None s else s in
  let '(s, dispatched) := if runInit then initEffect r s else (s, false) in
  (if runTimer then timerEffect r s else s, dispatched).

(** The effects that follow an event: [before] is the state the event
    found, [dispatched] tells whether the event replaced the active
    candidate in the store. An update dispatched by the initialisation
    effect itself leads to one more round. *)
Definition commit (before : Chat) (dispatched : bool) (s : Chat) : Chat :=
  let '(s1, again) := effects dispatched (timerDeps before s) s s in
  if again then fst (effects true (timerDeps s s1) s1 s1) else s1.

(** Mounting: the first render, then the three effects in order. *)
Definition mount (st : Slice.State) (log : list Request) : Chat :=
  let r := firstRender st log in
  let '(s1, again) := effects true true r r in
  let s2 := flagsEffect s1 in
  if again then fst (effects true (timerDeps r s2) s2 s2) else s2.

(** A call of [submitAnswer] made with the closure [cl]. *)
Definition startSubmit (cl : Closure) (s : Chat) : Chat :=
  match questionToAnswer (captured cl) with
  | None => s
  | Some _ => addTask (Submitting (captured cl) (capturedAnswer cl)) (setLoading true s)
  end.

Definition settle (task : Task) (before s : Chat) : Chat :=
  match task with
  | Generating active =>
      let '(batch, s) := runNet (generateQuestionsBatch apiKey net shuffle now timeoutAt active) s in
      let s := setHasGeneratedQuestions false (setGenerationTimeoutRef None s) in
      match batch with
      | [] => setLoading false s
      | first :: _ =>
          let firstQuestionTimeLimit := JS.orZ (Question.timeLimit first) (getTimeLimit 0) in
          let updatedCandidate := withQuestions active batch firstQuestionTimeLimit in
          commit before (replacesActive updatedCandidate s)
            (setLoading false
               (setTimeLeft firstQuestionTimeLimit (dispatchUpdate updatedCandidate s)))
      end
  | Submitting active text =>
      let '(result, s) := runNet (submitAnswer apiKey net isoNow active text) s in
      match result with
      | None => setLoading false s
      | Some updatedCandidate =>
          let replaced := replacesActive updatedCandidate s in
          let s := setAnswer "" (dispatchUpdate updatedCandidate s) in
          let s :=
            match Candidate.questions active !! (Candidate.currentQuestionIndex active + 1) with
            | Some _ => setTimeLeft (Candidate.timeLeft updatedCandidate) s
            | None => s
            end in
          commit before replaced (setLoading false s)
      end
  | Finishing active =>
      let '(updatedCandidate, s) := runNet (finishInterview apiKey net isoNow active) s in
      commit before (replacesActive updatedCandidate s)
        (setHasFinishedInterview false (setLoading false (dispatchUpdate updatedCandidate s)))
  end.

(** The rejection handlers: the [catch] after [generateQuestionsBatch]
    and the one after [finishInterview]. [submitAnswer] handles its own
    failures and is never rejected. *)
Definition reject (task : Task) (s : Chat) : Chat :=
  match task with
  | Generating _ =>
      setLoading false (setHasGeneratedQuestions false (setGenerationTimeoutRef None s))
  | Submitting _ _ => s
  | Finishing _ => setHasFinishedInterview false s
  end.

Definition step (s : Chat) (e : Event) : Chat :=
  match e with
  | Typing text =>
      if mainVisible s && negb (isPaused s) then setAnswer text s else s
  | TogglePause =>
      match activeCandidate s with
      | Some active =>
          if mainVisible s then
            let newPausedState := negb (isPaused s) in
            commit s true
              (dispatchUpdate (withPause active newPausedState (timeLeft s))
                              (setIsPaused newPausedState s))
          else s
      | None => s
      end
  | ClickSubmit =>
      match activeCandidate s with
      | Some active =>
          if mainVisible s && negb (isPaused s)
          then startSubmit (mkClosure active (answer s)) s else s
      | None => s
      end
  | Tick =>
      match timerRef s with
      | None => s
      | Some cl =>
          let newTime := (timeLeft s - 1)%Z in
          if (newTime <=? 0)%Z
          then startSubmit cl (setTimeLeft 0 (setTimerRef None s))
          else setTimeLeft newTime s
      end
  | Settle i =>
      match inFlight s !! i with
      | Some task => settle task s (setInFlight (delete i (inFlight s)) s)
      | None => s
      end
  | Reject i =>
      match inFlight s !! i with
      | Some (Submitting _ _) | None => s
      | Some task => reject task (setInFlight (delete i (inFlight s)) s)
      end
  | GenerationTimeout =>
      match generationTimeoutRef s with
      | Some wasLoading =>
          let s := setGenerationTimeoutRef None s in
          if wasLoading then setLoading false (setHasGeneratedQuestions false s) else s
      | None => s
      end
  | EffectRerun => commit s true s
  end.

Definition run (s : Chat) (events : list Event) : Chat := fold_left step events s.

End Machine.

End InterviewChat.

(** ** Further built-ins, used by the tabs and the views *)

Module ES.

(** [s.endsWith(suffix)] *)
Fixpoint endsWith (s suffix : string) : bool :=
  if String.eqb s suffix then true
  else match s with
       | EmptyString => false
       | String _ t => endsWith t suffix
       end.

(** [xs.sort(compare)]. The sort of the language is stable, and for a
    comparator that orders its arguments consistently the result is fixed
    by that: it is the list an insertion sort builds, in which an element
    goes before the first one it does not compare greater than. *)
Fixpoint insert {A} (compare : A -> A -> Z) (x : A) (sorted : list A) : list A :=
  match sorted with
  | [] => [x]
  | y :: rest =>
      if (compare x y <=? 0)%Z then x :: sorted else y :: insert compare x rest
  end.

Definition sort {A} (compare : A -> A -> Z) (xs : list A) : list A :=
  foldr (insert compare) [] xs.

End ES.

(** ** The resume parser (resumeParser.js): the choice of the reader *)

(** A [File] as the upload hands it over, as far as the code reads it. *)
Module File.
Record t := mk { type : string; name : option string; size : N }.
End File.

Module ResumeParser.

(** [file.name?.toLowerCase().endsWith(suffix)] *)
Definition nameEndsWith (file : File.t) (suffix : string) : bool :=
  match File.name file with
  | Some n => ES.endsWith (JS.toLowerCase n) suffix
  | None => false
  end.

Definition isPDF (file : File.t) : bool :=
  String.eqb (File.type file) "application/pdf" || nameEndsWith file ".pdf".

Definition isDOCX (file : File.t) : bool :=
  String.eqb (File.type file)
             "application/vnd.openxmlformats-officedocument.wordprocessingml.document"
  || nameEndsWith file ".docx".

(** The three ways [parse] gets the text of a file. *)
Inductive Reader := extractTextFromPDF | extractTextFromDOCX | plainText.

Definition reader (file : File.t) : Reader :=
  if isPDF file || isDOCX file
  then (if isPDF file then extractTextFromPDF else extractTextFromDOCX)
  else plainText.

End ResumeParser.

(** ** The interviewee tab (IntervieweeTab.jsx) *)

Module IntervieweeTab.

(** [file.size / 1024 / 1024 < 5]; the divisions by a power of two are
    exact. *)
Definition isLt5M (file : File.t) : bool :=
  negb (Qle_bool 5 (inject_Z (Z.of_N (File.size file)) / 1024 / 1024)).

Definition validateFile (file : File.t) : bool :=
  let isPdf := String.eqb (File.type file) "application/pdf" in
  let isDocx :=
    String.eqb (File.type file)
               "application/vnd.openxmlformats-officedocument.wordprocessingml.document"
    || String.eqb (File.type file) "application/msword" in
  if negb isPdf && negb isDocx then false
  else if negb (isLt5M file) then false
  else true.

(** The values of the form: its three fields. *)
Record Values := mkValues { name : string; email : string; phone : string }.

(** The candidate [onFinish] builds. The parsed resume carries a name, an
    email and a phone and no skills. *)
Definition candidateData (values : Values) (now : nat) (isoNow : string) : Candidate.t :=
  Candidate.mk (JS.showNat now) (name values) (email values) (phone values) None
               not_started [] [] 0 0%Z false None "" isoNow None.

(** The two actions [onFinish] dispatches; the candidate it then keeps as
    [submittedCandidate] makes the tab render the interview component. *)
Definition onFinish (state : Slice.State) (values : Values) (now : nat) (isoNow : string)
  : Slice.State :=
  let candidateData := candidateData values now isoNow in
  Slice.setCurrentCandidateId (Slice.addCandidate state candidateData)
                              (Some (Candidate.id candidateData)).

(** The candidates the welcome-back dialog lists. *)
Definition isUnfinished (c : Candidate.t) : bool :=
  InterviewStatus_eqb (Candidate.interviewStatus c) in_progress
  || InterviewStatus_eqb (Candidate.interviewStatus c) not_started.

Definition unfinishedCandidates (candidates : list Candidate.t) : list Candidate.t :=
  filter (fun c => isUnfinished c) candidates.

(** The condition under which the effect on [candidates] and
    [currentCandidateId] opens the dialog: an id that is [null] or the
    empty string is falsy. *)
Definition opensWelcomeBack (state : Slice.State) : bool :=
  (0 <? length (unfinishedCandidates (Slice.candidates state)))
  && negb match Slice.currentCandidateId state with
          | Some (String _ _) => true
          | _ => false
          end.

Definition selectUnfinishedSession (state : Slice.State) (candidateId : string)
  : Slice.State :=
  Slice.setCurrentCandidateId state (Some candidateId).

(** [currentCandidate && (currentCandidate.interviewStatus === 'in_progress'
    || currentCandidate.interviewStatus === 'completed')] *)
Definition resumes (currentCandidate : option Candidate.t) : bool :=
  match currentCandidate with
  | Some c => InterviewStatus_eqb (Candidate.interviewStatus c) in_progress
              || InterviewStatus_eqb (Candidate.interviewStatus c) completed
  | None => false
  end.

Definition getCurrentStep {D} (parsedData : option D)
           (submittedCandidate : option Candidate.t) (state : Slice.State) : nat :=
  match parsedData with
  | None => 0
  | Some _ =>
      match submittedCandidate with
      | Some _ => 2
      | None => if resumes (Slice.activeCandidate state) then 2 else 1
      end
  end.

(** What the tab renders: the interview component, or the three-step
    workflow with [current] as its current step. *)
Inductive Screen := InterviewChat | Workflow (current : nat).

Definition render {D} (parsedData : option D) (submittedCandidate : option Candidate.t)
           (state : Slice.State) : Screen :=
  match submittedCandidate with
  | Some _ => InterviewChat
  | None =>
      if resumes (Slice.activeCandidate state) then InterviewChat
      else Workflow (getCurrentStep parsedData submittedCandidate state)
  end.

End IntervieweeTab.

(** ** The interviewer tab (InterviewerTab.jsx) *)

Module InterviewerTab.

Definition matchesSearch (searchText : string) (candidate : Candidate.t) : bool :=
  JS.includes (JS.toLowerCase (Candidate.name candidate)) (JS.toLowerCase searchText)
  || JS.includes (JS.toLowerCase (Candidate.email candidate)) (JS.toLowerCase searchText).

Definition filteredCandidates (candidates : list Candidate.t) (searchText : string)
  : list Candidate.t :=
  filter (fun candidate => matchesSearch searchText candidate) candidates.

Definition isCompleted (c : Candidate.t) : bool :=
  InterviewStatus_eqb (Candidate.interviewStatus c) completed.

(** [c.score || 0] *)
Definition scoreOr0 (c : Candidate.t) : Z := default 0%Z (Candidate.score c).

Section Dashboard.

(** [new Date(s)] as a number, for the timestamps the application writes. *)
Variable timeOf : string -> Z.

(** The comparator of [sortedCandidates]. *)
Definition compare (a b : Candidate.t) : Z :=
  if isCompleted a && negb (isCompleted b) then (-1)%Z
  else if isCompleted b && negb (isCompleted a) then 1%Z
  else if isCompleted a && isCompleted b then (scoreOr0 b - scoreOr0 a)%Z
  else (timeOf (Candidate.createdAt b) - timeOf (Candidate.createdAt a))%Z.

Definition sortedCandidates (candidates : list Candidate.t) (searchText : string)
  : list Candidate.t :=
  ES.sort compare (filteredCandidates candidates searchText).

End Dashboard.

Definition viewCandidateDetails (state : Slice.State) (candidate : Candidate.t)
  : Slice.State :=
  Slice.setViewMode
    (Slice.setActiveTab
       (Slice.setCurrentCandidateId state (Some (Candidate.id candidate)))
       "interviewer")
    "details".

(** The [onOk] of the confirmation that [restartInterview] opens. *)
Definition restartInterview (state : Slice.State) (candidate : Candidate.t) : Slice.State :=
  Slice.setCurrentCandidateId
    (Slice.setViewMode (Slice.resetInterview state (Candidate.id candidate)) "tabs")
    None.

End InterviewerTab.

(** ** The detail view (CandidateDetailView.jsx) *)

Module CandidateDetailView.

Definition goBack (state : Slice.State) : Slice.State :=
  Slice.setViewMode
    (Slice.setActiveTab (Slice.setCurrentCandidateId state None) "interviewer")
    "tabs".

(** [candidate.answers.find(a => a.questionId === question.id)] *)
Definition answerOf (candidate : Candidate.t) (question : Question.t) : option Answer.t :=
  JS.find (fun a => String.eqb (Answer.questionId a) (Question.id question))
          (Candidate.answers candidate).

End CandidateDetailView.

(** ** The application shell (App.jsx) *)

Module App.

Inductive Content :=
| CandidateDetailView
| Tabs (activeKey : string).

(** [viewMode === 'details' && currentCandidateId && currentCandidate]: an
    id that is [null] or the empty string is falsy. *)
Definition renderContent (state : Slice.State) : Content :=
  if String.eqb (Slice.viewMode state) "details"
     && match Slice.currentCandidateId state with
        | Some (String _ _) => true
        | _ => false
        end
     && match Slice.activeCandidate state with Some _ => true | None => false end
  then CandidateDetailView
  else Tabs (Slice.activeTab state).

End App.

(** * Vocabulary of the properties *)

(** The difficulty tiers of a batch, letter case set aside: the question
    bank writes [Easy], the adapter [easy]. *)
Definition tiers (batch : list Question.t) : list string :=
  map (fun q => JS.toLowerCase (Question.difficulty q)) batch.

(** The candidate a pending promise closes over. *)
Definition taskCandidate (t : InterviewChat.Task) : Candidate.t :=
  match t with
  | InterviewChat.Generating c | InterviewChat.Submitting c _ | InterviewChat.Finishing c => c
  end.

(** A pending generation was started for a candidate without questions. *)
Definition awaitsQuestions (t : InterviewChat.Task) : Prop :=
  match t with
  | InterviewChat.Generating c => Candidate.questions c = []
  | _ => True
  end.

(** [P] holds of every candidate the component can reach: those in the
    store, those pending promises close over, and the one the running
    interval closes over. *)
Definition Everywhere (P : Candidate.t -> Prop) (s : InterviewChat.Chat) : Prop :=
  Forall P (Slice.candidates (InterviewChat.store s))
  /\ Forall (fun t => P (taskCandidate t) /\ awaitsQuestions t) (InterviewChat.inFlight s)
  /\ (forall cl, InterviewChat.timerRef s = Some cl -> P (InterviewChat.captured cl)).

(** The answers recorded so far are as many as the index says, and a
    session without questions is at index 0. *)
Definition InStep (c : Candidate.t) : Prop :=
  length (Candidate.answers c) = Candidate.currentQuestionIndex c
  /\ (Candidate.questions c = [] -> Candidate.currentQuestionIndex c = 0).

(** The out-of-range guard did not fire between [s] and [s'], or the
    property at hand survives it. *)
Definition quiet (clampSafe : Prop) (s s' : InterviewChat.Chat) : Prop :=
  clampSafe \/ InterviewChat.clamps s' = InterviewChat.clamps s.

(** [InStep], decided. *)
Definition inStep (c : Candidate.t) : bool :=
  (length (Candidate.answers c) =? Candidate.currentQuestionIndex c)
  && (negb (length (Candidate.questions c) =? 0) || (Candidate.currentQuestionIndex c =? 0)).

(** A session holds no questions yet, or between one and six of them; when
    it holds six, their tiers run easy, easy, medium, medium, hard, hard. *)
Definition Batched (c : Candidate.t) : Prop :=
  Candidate.questions c = []
  \/ (1 <= length (Candidate.questions c) <= 6
      /\ (length (Candidate.questions c) = 6 ->
          tiers (Candidate.questions c)
          = ["easy"; "easy"; "medium"; "medium"; "hard"; "hard"])).

(** A score that is missing or a whole number between 0 and 10, as the
    basic evaluation, the evaluation without a credential and a reply that
    names a whole number give it. *)
Definition wholeScore (a : Answer.t) : Prop :=
  Answer.score a = None
  \/ exists n : Z, (0 <= n <= 10)%Z /\ Answer.score a = Some (inject_Z n).

(** The sum of the scores in exact arithmetic, a missing score counting
    as 0. *)
Definition exactSum (answers : list Answer.t) : Q :=
  fold_right (fun a sum => (default 0 (Answer.score a) + sum)%Q) 0%Q answers.

(** The final score as the specification words it: round(10 x (s1 + ... +
    s6) / 6) within 0 and 100, in exact arithmetic. *)
Definition specifiedScore (answers : list Answer.t) : Z :=
  JS.clampZ 0 100 (Qfloor (10 * exactSum answers / 6 + (1 # 2))).

(** [x >= n] on the float [x]. *)
Definition atLeast (n : Z) (x : Double.t) : Prop :=
  Double.leb (Double.ofZ n) x = true.

(** Does a request ask a model for questions? *)
Definition asksQuestions (r : PerplexityAPI.Request) : bool :=
  match PerplexityAPI.purpose r with
  | PerplexityAPI.AskQuestions _ _ _ => true
  | _ => false
  end.

(** * Example sessions

    Concrete candidates, stores, networks and event sequences on which the
    properties below are instantiated. *)

Module Examples.

Import PerplexityAPI InterviewChat.

(** Two candidates as the form creates them. *)
Definition ada : Candidate.t :=
  Candidate.mk "1730000000000" "Ada" "ada@example.org" "5550100" None not_started
               [] [] 0 0%Z false None "" "2024-10-27T00:00:00.000Z" None.

Definition grace : Candidate.t :=
  Candidate.mk "1730000000001" "Grace" "grace@example.org" "5550101" None not_started
               [] [] 0 0%Z false None "" "2024-10-27T00:00:01.000Z" None.

Definition twoCandidates : Slice.State :=
  Slice.mkState [ada; grace] (Some "1730000000000") "interviewee" "tabs".

Definition pausePayload (id : string) : Payload.t :=
  Payload.mk (Some id) None None None None None None None None (Some 12%Z) (Some true)
             None None None None.

(** A network on which every request throws. *)
Definition offline : Network := fun _ _ => Rejected.

Definition keepOrder : list string -> list string := fun xs => xs.

(** No call of [generateQuestionsBatch] loses a race to its timeout. *)
Definition inTime : nat -> option nat := fun _ => None.

Definition scored (n : Z) : Answer.t :=
  Answer.mk "q" "An answer." (Some (inject_Z n)) (Some "Feedback.") "2024-10-27T00:05:00.000Z".

Definition scoredQ (q : Q) : Answer.t :=
  Answer.mk "q" "An answer." (Some q) (Some "Feedback.") "2024-10-27T00:05:00.000Z".

(** Ada after six answers scored 6, 7.4, 5.6, 5.7, 5.4 and 6.8, the
    fractions as [parseFloat] reads them off a reply. *)
Definition adaFractional : Candidate.t :=
  Candidate.mk "1730000000000" "Ada" "ada@example.org" "5550100" None in_progress
               (map scoredQ [6; 74 # 10; 56 # 10; 57 # 10; 54 # 10; 68 # 10]%Q)
               (defaultBatch 17) 6 0%Z false None "" "2024-10-27T00:00:00.000Z" None.

(** Ada after three answers scored 2.3, 6.1 and 6.6. *)
Definition adaThree : Candidate.t :=
  Candidate.mk "1730000000000" "Ada" "ada@example.org" "5550100" None in_progress
               (map scoredQ [23 # 10; 61 # 10; 66 # 10]%Q)
               (defaultBatch 17) 3 0%Z false None "" "2024-10-27T00:00:00.000Z" None.

(** Ada at the sixth question with two seconds left, five answers
    recorded. *)
Definition adaLastSeconds : Candidate.t :=
  Candidate.mk "1730000000000" "Ada" "ada@example.org" "5550100" None in_progress
               (map scored [8; 6; 7; 5; 9]%Z) (defaultBatch 17) 5 2%Z false None ""
               "2024-10-27T00:00:00.000Z" None.

Definition lastSecondsStore : Slice.State :=
  Slice.mkState [adaLastSeconds; grace] (Some "1730000000000") "interviewee" "tabs".

(** Ada after six answers scored 8, 6, 7, 5, 9 and 4. *)
Definition adaAnswered : Candidate.t :=
  Candidate.mk "1730000000000" "Ada" "ada@example.org" "5550100" None in_progress
               (map scored [8; 6; 7; 5; 9; 4]%Z) (defaultBatch 17) 6 0%Z false None ""
               "2024-10-27T00:00:00.000Z" None.


(** An answer of 120 characters that mentions an api and a database. *)
Definition longAnswer : string :=
  "The api layer reads rows from the database and returns them as JSON to the caller, with retries, paging and caching too.".

Definition closureQuestion : string :=
  "Describe the concept of closures in JavaScript with an example.".

Definition fullStack : string := "Full Stack Developer (React/Node.js)".

(** A key that passes both checks of the adapter. *)
Definition goodKey : string := "pplx-0123456789abcdefghijklmnopqrstuvwxyz".


(** A provider that answers every model, but names a single easy question
where two were asked for. *)
Definition terse : Network := fun _ request =>
  match purpose request with
  | Hello => Replied 200 (Some "Hello!")
  | AskQuestions _ difficulty _ =>
      if String.eqb difficulty "easy"
      then Replied 200 (Some "1. What does the keyword const declare in JavaScript?")
      else Replied 200 (Some ("1. How would you debounce a burst of input events?" +:+ JS.nl
                              +:+ "2. How would you cache the replies of a slow service?"))
  | AskEvaluation _ _ _ => Replied 200 (Some ("Score: 6" +:+ JS.nl +:+ "Feedback: Adequate."))
  | AskSummary _ _ _ _ => Rejected
  end.


Definition clock : string := "2024-10-27T00:10:00.000Z".

(** Ada's session with the terse provider: the questions arrive, then five
answers are submitted by hand. *)
Definition fiveAnswers : list Event :=
  [ Settle 0; ClickSubmit; Settle 0; ClickSubmit; Settle 0; ClickSubmit; Settle 0;
    ClickSubmit; Settle 0; ClickSubmit; Settle 0 ].

Definition afterFiveAnswers : Chat :=
  run goodKey terse keepOrder 17 clock inTime (mount goodKey terse twoCandidates []) fiveAnswers.


(** Ada's session without a credential: the questions of the bank arrive;
she types an answer, pauses, resumes, clears the text area, and lets the
twenty seconds of the first question run out. *)
Definition typedThenCleared : list Event :=
  [ Settle 0; Typing "A closure keeps its scope."; TogglePause; TogglePause; Typing "" ]
  ++ repeat Tick 20.

Definition atExpiry : Chat :=
  run "" offline keepOrder 17 clock inTime (mount "" offline twoCandidates []) typedThenCleared.

Definition afterExpiry : Chat := step "" offline keepOrder 17 clock inTime atExpiry (Settle 0).

(** The converse course: she resumes first, types her answer, and lets the
time run out. *)
Definition typedAfterResume : list Event :=
  [ Settle 0; TogglePause; TogglePause; Typing "A closure keeps its scope." ]
  ++ repeat Tick 20 ++ [ Settle 0 ].

(** The texts of the answers recorded for the active candidate. *)
Definition answerTexts (s : Chat) : option (list string) :=
  option_map (fun c => map Answer.text (Candidate.answers c)) (activeCandidate s).


(** Ada's session once [finishInterview] has completed it, and a store that
holds it. *)
Definition adaCompleted : Candidate.t :=
  fst (finishInterview goodKey offline clock adaAnswered []).

Definition completedStore : Slice.State :=
  Slice.mkState [adaCompleted; grace] (Some "1730000000000") "interviewee" "tabs".

End Examples.

(** * Vocabulary of the further properties *)

(** What a comparator says of two elements it leaves in this order. *)
Definition comesBefore {A} (compare : A -> A -> Z) (a b : A) : Prop :=
  (compare a b <= 0)%Z.

(** A session at a question it holds: in progress, below the sixth index. *)
Definition AtQuestion (c : Candidate.t) (q : Question.t) : Prop :=
  Candidate.interviewStatus c = in_progress
  /\ Candidate.questions c !! Candidate.currentQuestionIndex c = Some q
  /\ Candidate.currentQuestionIndex c < 6.

(** A session as the form creates it: not started, without questions, at
    index 0. *)
Definition Unstarted (c : Candidate.t) : Prop :=
  Candidate.interviewStatus c = not_started
  /\ Candidate.questions c = []
  /\ Candidate.currentQuestionIndex c = 0.

(** The answers recorded are those to the first questions, in order, and
    no two questions share an id. *)
Definition Paired (c : Candidate.t) : Prop :=
  InStep c
  /\ NoDup (map Question.id (Candidate.questions c))
  /\ map Answer.questionId (Candidate.answers c)
     = take (length (Candidate.answers c)) (map Question.id (Candidate.questions c)).

(** * Further example sessions *)

Module Cases.

Import PerplexityAPI InterviewChat Examples.

Definition resumePdf : File.t :=
  File.mk "application/pdf" (Some "Ada-Lovelace.PDF") 120000%N.

Definition resumeDoc : File.t :=
  File.mk "application/msword" (Some "ada.doc") 48000%N.

Definition adaValues : IntervieweeTab.Values :=
  IntervieweeTab.mkValues "Ada" "ada@example.org" "5550100".

(** Ada's session with the questions of the bank, at the first of them. *)
Definition adaStarted : Candidate.t :=
  Candidate.mk "1730000000000" "Ada" "ada@example.org" "5550100" None in_progress
               [] (defaultBatch 17) 0 20%Z false None "" "2024-10-27T00:00:00.000Z" None.

Definition firstQuestion : Question.t :=
  Question.mk "default-17-0"
              "What is the difference between let, const, and var in JavaScript?" "Easy" 20.

Definition secondQuestion : Question.t :=
  Question.mk "default-17-1"
              "Explain how React's virtual DOM works and why it's beneficial." "Easy" 20.

Definition lastQuestion : Question.t :=
  Question.mk "default-17-5"
              "Design a scalable state management solution for a complex React application."
              "Hard" 120.

Definition startedStore : Slice.State :=
  Slice.mkState [adaStarted; grace] (Some "1730000000000") "interviewee" "tabs".

(** Ada at the third question, her two answers recorded against the ids
    of the first two. *)
Definition adaPaired : Candidate.t :=
  Candidate.mk "1730000000000" "Ada" "ada@example.org" "5550100" None in_progress
               [ Answer.mk "default-17-0" "They differ in scope." (Some 5%Q)
                           (Some "Using default evaluation due to missing API key.") clock;
                 Answer.mk "default-17-1" "It batches updates to the page." (Some 5%Q)
                           (Some "Using default evaluation due to missing API key.") clock ]
               (defaultBatch 17) 2 60%Z false None "" "2024-10-27T00:00:00.000Z" None.

(** Ada at the sixth question, five answers recorded. *)
Definition adaAtLast : Candidate.t :=
  Candidate.mk "1730000000000" "Ada" "ada@example.org" "5550100" None in_progress
               (map scored [8; 6; 7; 5; 9]%Z) (defaultBatch 17) 5 120%Z false None ""
               "2024-10-27T00:00:00.000Z" None.

Definition lastStore : Slice.State :=
  Slice.mkState [adaAtLast; grace] (Some "1730000000000") "interviewee" "tabs".

End Cases.

(** * Properties *)

Import PerplexityAPI InterviewChat Examples.

(** ** Arrays and the store *)

Section Arrays.

Context {A : Type} (f : A -> bool).

Lemma findIndex_None (xs : list A) :
  JS.findIndex f xs = None <-> (forall x, x ∈ xs -> f x = false).
Proof.
  induction xs as [|x r IH]; simpl.
  - split; [intros _ y Hy; inversion Hy | reflexivity].
  - destruct (f x) eqn:Hx.
    + split; [discriminate|]. intros H. specialize (H x (list_elem_of_here _ _)). congruence.
    + destruct (JS.findIndex f r) as [i|]; simpl.
      * split; [discriminate|]. intros H.
        assert (Some i = None) by (apply IH; intros y Hy; apply H; now constructor).
        discriminate.
      * split; [|reflexivity]. intros _ y Hy.
        apply elem_of_cons in Hy as [->|Hy]; [assumption|]. now apply IH.
Qed.

Lemma findIndex_Some (xs : list A) (i : nat) :
  JS.findIndex f xs = Some i <->
  exists x, xs !! i = Some x /\ f x = true
            /\ forall j y, j < i -> xs !! j = Some y -> f y = false.
Proof.
  revert i. induction xs as [|x r IH]; intros i; simpl.
  - split; [discriminate|]. intros (y & Hy & _). discriminate.
  - destruct (f x) eqn:Hx.
    + split.
      * intros [= <-]. exists x. repeat split; [assumption|]. intros j y Hj. lia.
      * intros (y & Hy & Hfy & Hlt). destruct i as [|i]; [reflexivity|].
        specialize (Hlt 0 x ltac:(lia) eq_refl). congruence.
    + destruct (JS.findIndex f r) as [k|] eqn:Hk; simpl.
      * split.
        -- intros [= <-]. destruct (proj1 (IH k) eq_refl) as (y & Hy & Hfy & Hlt).
           exists y. repeat split; [assumption..|].
           intros [|j] z Hj Hz; simpl in Hz; [congruence|]. apply (Hlt j); [lia|assumption].
        -- intros (y & Hy & Hfy & Hlt). destruct i as [|i]; simpl in Hy; [congruence|].
           f_equal. assert (Some k = Some i) as [= ->]; [|reflexivity].
           apply IH. exists y. repeat split; [assumption..|].
           intros j z Hj Hz. apply (Hlt (S j)); [lia|assumption].
      * split; [discriminate|].
        intros (y & Hy & Hfy & Hlt). destruct i as [|i]; simpl in Hy; [congruence|].
        assert (None = Some i); [|discriminate].
        apply IH. exists y. repeat split; [assumption..|].
        intros j z Hj Hz. apply (Hlt (S j)); [lia|assumption].
Qed.

Lemma find_findIndex (xs : list A) :
  JS.find f xs = match JS.findIndex f xs with Some i => xs !! i | None => None end.
Proof.
  induction xs as [|x r IH]; simpl; [reflexivity|].
  destruct (f x); [reflexivity|]. rewrite IH.
  destruct (JS.findIndex f r); reflexivity.
Qed.

(** Replacing the first match by another match leaves [find] on it. *)
Lemma find_insert_first (xs : list A) (i : nat) (y : A) :
  JS.findIndex f xs = Some i -> f y = true ->
  JS.find f (<[i := y]> xs) = Some y.
Proof.
  revert i. induction xs as [|x r IH]; intros i; simpl; [discriminate|].
  destruct (f x) eqn:Hx.
  - intros [= <-] Hy. simpl. now rewrite Hy.
  - destruct (JS.findIndex f r) as [k|]; simpl; [|discriminate].
    intros [= <-] Hy. simpl. rewrite Hx. now apply IH.
Qed.

End Arrays.

(** An update with [{...c}] stores [c] itself when [c] has a [completedAt]
    or the entry it replaces has the same one. *)
Lemma merge_of_candidate (current c : Candidate.t) :
  Candidate.completedAt c = Candidate.completedAt current
  \/ Candidate.completedAt c <> None ->
  Slice.merge current (Payload.of_candidate c) = c.
Proof.
  destruct c as [? ? ? ? ? ? ? ? ? ? ? ? ? ? completedAt]. unfold Slice.merge. simpl.
  intros [H|H]; destruct completedAt; try reflexivity; [now rewrite <- H|contradiction].
Qed.

Lemma idMatches_spec (pid : option string) (c : Candidate.t) :
  Slice.idMatches pid c = true <-> pid = Some (Candidate.id c).
Proof.
  destruct pid as [i|]; simpl.
  - rewrite String.eqb_eq. split; [now intros ->|now intros [= ->]].
  - split; discriminate.
Qed.

Lemma idMatches_false (pid : option string) (c : Candidate.t) :
  Slice.idMatches pid c = false <-> pid <> Some (Candidate.id c).
Proof.
  rewrite <- idMatches_spec. destruct (Slice.idMatches pid c); split; congruence.
Qed.

(** C10. [updateCandidate] with an id that no stored candidate carries leaves
    the whole store state as it is; with an id that is stored, the first
    entry carrying it becomes the merge of that entry with the payload, and
    every other entry, the length of the list and the three remaining fields
    of the store stay as they were. *)
Theorem updateCandidate_frame (state : Slice.State) (payload : Payload.t) :
  ((forall c, c ∈ Slice.candidates state -> Payload.id payload <> Some (Candidate.id c)) ->
   Slice.updateCandidate state payload = state)
  /\
  (forall index current,
      Slice.candidates state !! index = Some current ->
      Payload.id payload = Some (Candidate.id current) ->
      (forall j c, j < index -> Slice.candidates state !! j = Some c ->
                   Payload.id payload <> Some (Candidate.id c)) ->
      let state' := Slice.updateCandidate state payload in
      Slice.candidates state' !! index = Some (Slice.merge current payload)
      /\ (forall j, j <> index ->
                    Slice.candidates state' !! j = Slice.candidates state !! j)
      /\ length (Slice.candidates state') = length (Slice.candidates state)
      /\ Slice.currentCandidateId state' = Slice.currentCandidateId state
      /\ Slice.activeTab state' = Slice.activeTab state
      /\ Slice.viewMode state' = Slice.viewMode state).
Proof.
  split.
  - intros Hno. unfold Slice.updateCandidate.
    replace (JS.findIndex _ _) with (@None nat); [reflexivity|].
    symmetry. apply findIndex_None. intros c Hc. apply idMatches_false. now apply Hno.
  - intros index current Hcur Hid Hfirst state'. subst state'.
    unfold Slice.updateCandidate.
    assert (JS.findIndex (Slice.idMatches (Payload.id payload)) (Slice.candidates state)
            = Some index) as ->.
    { apply findIndex_Some. exists current. repeat split; [assumption| |].
      - now apply idMatches_spec.
      - intros j c Hj Hc. apply idMatches_false. now apply (Hfirst j). }
    rewrite Hcur. simpl. repeat split.
    + apply list_lookup_insert_eq. now apply lookup_lt_Some in Hcur.
    + intros j Hj. now apply list_lookup_insert_ne.
    + apply length_insert.
Qed.

Lemma updateCandidate_frame_witness :
  Slice.updateCandidate twoCandidates (pausePayload "42") = twoCandidates
  /\ Slice.candidates (Slice.updateCandidate twoCandidates (pausePayload "1730000000001")) !! 1
     = Some (Slice.merge grace (pausePayload "1730000000001"))
  /\ Slice.candidates (Slice.updateCandidate twoCandidates (pausePayload "1730000000001")) !! 0
     = Some ada.
Proof.
  split; [|split].
  - apply (proj1 (updateCandidate_frame twoCandidates (pausePayload "42"))).
    intros c Hc. vm_compute in Hc.
    apply elem_of_cons in Hc as [->|Hc]; [discriminate|].
    apply elem_of_cons in Hc as [->|Hc]; [discriminate|]. inversion Hc.
  - apply (proj2 (updateCandidate_frame twoCandidates (pausePayload "1730000000001")) 1 grace);
      [reflexivity|reflexivity|].
    intros [|j] c Hj Hc; [|lia]. injection Hc as <-. discriminate.
  - destruct (proj2 (updateCandidate_frame twoCandidates (pausePayload "1730000000001"))
                    1 grace eq_refl eq_refl) as (_ & Hother & _).
    + intros [|j] c Hj Hc; [|lia]. injection Hc as <-. discriminate.
    + exact (Hother 0 ltac:(lia)).
Defined.

(** ** The final score *)

Lemma finishInterview_unfold apiKey net isoNow (active : Candidate.t) (log : list Request) :
  finishInterview apiKey net isoNow active log
  = (withCompletion active (averageScore (Candidate.answers active))
       (fst (generateSummary apiKey net active (roleInfo (Candidate.skills active)) log))
       isoNow,
     snd (generateSummary apiKey net active (roleInfo (Candidate.skills active)) log)).
Proof.
  unfold finishInterview, bind, ret.
  now destruct (generateSummary apiKey net active (roleInfo (Candidate.skills active)) log).
Qed.

(** Whole numbers up to 60 and their sums are floats, and the arithmetic of
    the final score on them is settled by running it. *)
Lemma upto_In (n : nat) (z : Z) :
  (0 <= z < Z.of_nat n)%Z -> In z (map Z.of_nat (seq 0 n)).
Proof.
  intros Hz. apply in_map_iff. exists (Z.to_nat z). split; [lia|].
  apply in_seq. lia.
Qed.

Lemma ofQ_whole (n : Z) :
  (0 <= n <= 10)%Z -> Double.ofQ (inject_Z n) = Double.ofZ n.
Proof.
  intros Hn.
  assert (map (fun n => Double.ofQ (inject_Z n)) (map Z.of_nat (seq 0 11))
          = map Double.ofZ (map Z.of_nat (seq 0 11))) as Htable
      by (vm_compute; reflexivity).
  apply (proj1 (@map_ext_in_iff _ _ _ _ _) Htable). apply upto_In. lia.
Qed.

Lemma add_whole (a b : Z) :
  (0 <= a <= 60)%Z -> (0 <= b <= 10)%Z ->
  Double.add (Double.ofZ a) (Double.ofZ b) = Double.ofZ (a + b).
Proof.
  intros Ha Hb.
  assert (map (fun a => map (fun b => Double.add (Double.ofZ a) (Double.ofZ b))
                            (map Z.of_nat (seq 0 11)))
              (map Z.of_nat (seq 0 61))
          = map (fun a => map (fun b => Double.ofZ (a + b)) (map Z.of_nat (seq 0 11)))
                (map Z.of_nat (seq 0 61))) as Htable
      by (vm_compute; reflexivity).
  pose proof (proj1 (@map_ext_in_iff _ _ _ _ _) Htable a (upto_In 61 a ltac:(lia))) as Hrow.
  apply (proj1 (@map_ext_in_iff _ _ _ _ _) Hrow). apply upto_In. lia.
Qed.

Lemma round_whole (n : Z) :
  (0 <= n <= 60)%Z ->
  JS.round (Double.mul (Double.div (Double.ofZ n) (Double.ofZ 6)) (Double.ofZ 10))
  = Qfloor (10 * inject_Z n / 6 + (1 # 2)).
Proof.
  intros Hn.
  assert (map (fun n => JS.round (Double.mul (Double.div (Double.ofZ n) (Double.ofZ 6))
                                             (Double.ofZ 10)))
              (map Z.of_nat (seq 0 61))
          = map (fun n => Qfloor (10 * inject_Z n / 6 + (1 # 2)))
                (map Z.of_nat (seq 0 61))) as Htable
      by (vm_compute; reflexivity).
  apply (proj1 (@map_ext_in_iff _ _ _ _ _) Htable). apply upto_In. lia.
Qed.

Lemma orZero_whole (a : Answer.t) :
  wholeScore a ->
  exists n : Z, (0 <= n <= 10)%Z
                /\ JS.orZero (Answer.score a) = Double.ofZ n
                /\ (default 0 (Answer.score a) == inject_Z n)%Q.
Proof.
  intros [Hnone|(n & Hn & Hsome)].
  - exists 0%Z. rewrite Hnone. repeat split; lia.
  - exists n. rewrite Hsome. unfold JS.orZero. simpl default.
    split; [assumption|]. split; [now apply ofQ_whole|reflexivity].
Qed.

Lemma sum_whole (answers : list Answer.t) :
  Forall wholeScore answers ->
  forall acc : Z,
    (0 <= acc)%Z -> (acc + 10 * Z.of_nat (length answers) <= 60)%Z ->
    exists total : Z,
      (acc <= total <= acc + 10 * Z.of_nat (length answers))%Z
      /\ fold_left (fun s n => Double.add s n) (perQuestionScores answers) (Double.ofZ acc)
         = Double.ofZ total
      /\ (inject_Z acc + exactSum answers == inject_Z total)%Q.
Proof.
  induction 1 as [|a rest Ha _ IH]; intros acc Hacc Hroom.
  - exists acc. split; [simpl; lia|]. split; [reflexivity|].
    unfold exactSum. simpl. apply Qplus_0_r.
  - destruct (orZero_whole a Ha) as (n & Hn & Hfloat & Hexact).
    simpl length in Hroom.
    destruct (IH (acc + n)%Z ltac:(lia) ltac:(lia)) as (total & Htotal & Hfold & Hsum).
    exists total. split; [simpl length; lia|]. split.
    + simpl. rewrite Hfloat, add_whole by lia. exact Hfold.
    + change (exactSum (a :: rest)) with (default 0 (Answer.score a) + exactSum rest)%Q.
      rewrite Hexact, <- Hsum, inject_Z_plus. ring.
Qed.

(** With six answers whose scores are whole numbers between 0 and 10, or
    missing, the score [finishInterview] stores is the one the specification
    names: the floats involved hold the sum exactly, and the quotient and
    the product round to the same integer as the exact value. *)
Lemma finishInterview_final_score
      apiKey net isoNow (active : Candidate.t) (log : list Request) :
  length (Candidate.answers active) = 6 ->
  Forall wholeScore (Candidate.answers active) ->
  let finished := fst (finishInterview apiKey net isoNow active log) in
  Candidate.score finished = Some (specifiedScore (Candidate.answers active))
  /\ Candidate.interviewStatus finished = completed.
Proof.
  intros Hlen Hwhole finished. subst finished.
  rewrite finishInterview_unfold. simpl. split; [|reflexivity].
  f_equal. unfold averageScore, specifiedScore, JS.clampZ, totalOutOfTen.
  destruct (sum_whole _ Hwhole 0%Z ltac:(lia) ltac:(rewrite Hlen; simpl; lia))
    as (total & Htotal & Hfold & Hsum).
  rewrite Hfold, round_whole by (rewrite Hlen in Htotal; simpl in Htotal; lia).
  f_equal. f_equal. apply Qfloor_comp. rewrite <- Hsum.
  change (inject_Z 0) with 0%Q. now rewrite Qplus_0_l.
Qed.

(** C1. The scores 6, 7.4, 5.6, 5.7, 5.4 and 6.8 add up to 36.9, so that the
    specification names round(61.5) = 62, and it names 62 as well when the
    six scores are taken to be the floats the session holds, added up
    exactly; [finishInterview] stores 61, since its float for
    ((sum / 6) * 10) lies below 61.5. With the scores 8, 6, 7, 5, 9 and 4
    both are 65. *)
Theorem final_score_rounds_a_float :
  specifiedScore (Candidate.answers adaFractional) = 62%Z
  /\ Qfloor (10 * fold_right (fun a sum => Double.toQ (JS.orZero (Answer.score a)) + sum)%Q
                            0%Q (Candidate.answers adaFractional) / 6 + (1 # 2))
     = 62%Z
  /\ Candidate.score
       (fst (finishInterview "" offline "2024-10-27T00:10:00.000Z" adaFractional []))
     = Some 61%Z
  /\ (Double.toQ (Double.mul (Double.div (totalOutOfTen (Candidate.answers adaFractional))
                                         (Double.ofZ 6))
                             (Double.ofZ 10))
      < 615 # 10)%Q
  /\ specifiedScore (Candidate.answers adaAnswered) = 65%Z
  /\ Candidate.score
       (fst (finishInterview "" offline "2024-10-27T00:10:00.000Z" adaAnswered []))
     = Some 65%Z.
Proof.
  split; [reflexivity|]. split; [vm_compute; reflexivity|].
  split; [vm_compute; reflexivity|].
  split; [vm_compute; reflexivity|]. split; [reflexivity|].
  apply (finishInterview_final_score "" offline "2024-10-27T00:10:00.000Z" adaAnswered []);
    [reflexivity|].
  simpl. repeat (constructor; [right; eexists; split; [|reflexivity]; lia|]).
  constructor.
Qed.

(** ** The basic evaluation *)

Lemma evaluateWith_exhausted net question answer position (ms : list string) :
  forall log,
    (forall i model, ms !! i = Some model ->
       usable (net (length log + i)
                   (mkRequest model (AskEvaluation question answer position))) = None) ->
    evaluateWith net question answer position ms log
    = (basicEvaluation answer,
       log ++ map (fun model => mkRequest model (AskEvaluation question answer position)) ms).
Proof.
  induction ms as [|model rest IH]; intros log Hfail; simpl.
  - unfold ret. now rewrite app_nil_r.
  - unfold bind, post.
    pose proof (Hfail 0 model eq_refl) as H0. rewrite Nat.add_0_r in H0. rewrite H0.
    rewrite IH.
    + now rewrite <- app_assoc.
    + intros i m Hm. rewrite length_app. simpl.
      replace (length log + 1 + i) with (length log + S i) by lia.
      now apply Hfail.
Qed.

Lemma basicScore_formula (answer : string) :
  basicScore answer
  = Nat.min 10 (3 + (if 50 <? String.length answer then 1 else 0)
                  + (if 100 <? String.length answer then 1 else 0)
                  + Nat.min (length (foundKeywords answer)) 3).
Proof.
  unfold basicScore.
  destruct (50 <? String.length answer), (100 <? String.length answer); f_equal; lia.
Qed.

Lemma NoDup_filter_keywords (answer : string) : NoDup (foundKeywords answer).
Proof.
  unfold foundKeywords. apply NoDup_filter.
  apply (bool_decide_unpack (NoDup technicalKeywords)). vm_compute. exact I.
Qed.

(** C2, as it holds. When the key passes [checkApiKey] and each of the five
    model requests fails, [evaluateAnswer] returns the basic evaluation, after
    these five requests: the score 3, plus 1 for more than 50 characters,
    plus 1 for more than 100, plus the number of distinct keywords found in
    the lower-cased answer up to 3, capped at 10 and so within 0 and 10; the
    feedback tells a good (7 and more), moderate (5 and more) or limited
    understanding and, when keywords were found, names the first three of
    them in the order of the keyword list. When [checkApiKey] refuses the
    key, [evaluateAnswer] issues no request and returns the score 5 with a
    fixed feedback. *)
Theorem evaluateAnswer_exhausted apiKey net question answer position log :
  let result := evaluateAnswer apiKey net question answer position log in
  let found := foundKeywords answer in
  let points := Nat.min 10 (3 + (if 50 <? String.length answer then 1 else 0)
                              + (if 100 <? String.length answer then 1 else 0)
                              + Nat.min (length found) 3) in
  (checkApiKey apiKey = true ->
   (forall i model, models !! i = Some model ->
      usable (net (length log + i)
                  (mkRequest model (AskEvaluation question answer position))) = None) ->
   PerplexityAPI.score (fst result) = inject_Z (Z.of_nat points)
   /\ 0 <= points <= 10
   /\ PerplexityAPI.feedback (fst result)
      = "Basic evaluation: Answer shows "
        +:+ (if 7 <=? points then "good" else if 5 <=? points then "moderate" else "limited")
        +:+ " technical understanding. "
        +:+ (match found with
             | [] => ""
             | _ => "Mentioned relevant concepts: " +:+ JS.join ", " (take 3 found) +:+ "."
             end)
        +:+ " Consider providing more detailed explanations."
   /\ NoDup found
   /\ (forall keyword, keyword ∈ found <->
         keyword ∈ technicalKeywords /\ JS.includes (JS.toLowerCase answer) keyword = true)
   /\ found = filter (fun keyword => JS.includes (JS.toLowerCase answer) keyword)
                     technicalKeywords
   /\ snd result
      = log ++ map (fun model => mkRequest model (AskEvaluation question answer position))
                   models)
  /\ (checkApiKey apiKey = false ->
      result = (mkEvaluation 5 "Using default evaluation due to missing API key.", log)).
Proof.
  intros result found points. subst result. split.
  - intros Hkey Hfail.
    unfold evaluateAnswer. rewrite Hkey. cbn [negb].
    rewrite evaluateWith_exhausted by assumption. simpl fst. simpl snd.
    unfold basicEvaluation. simpl PerplexityAPI.score. simpl PerplexityAPI.feedback.
    rewrite basicScore_formula. fold found. fold points.
    split; [reflexivity|]. split; [subst points; lia|]. split; [reflexivity|].
    split; [apply NoDup_filter_keywords|]. split; [|split; reflexivity].
    intros keyword. subst found. unfold foundKeywords.
    rewrite list_elem_of_filter, Is_true_true. tauto.
  - intros Hkey. unfold evaluateAnswer. now rewrite Hkey.
Qed.

Lemma evaluateAnswer_exhausted_witness :
  String.length longAnswer = 120
  /\ foundKeywords longAnswer = ["api"; "database"]
  /\ evaluateAnswer goodKey offline closureQuestion longAnswer fullStack []
     = (mkEvaluation
          (inject_Z 7)
          "Basic evaluation: Answer shows good technical understanding. Mentioned relevant concepts: api, database. Consider providing more detailed explanations.",
        map (fun model => mkRequest model (AskEvaluation closureQuestion longAnswer fullStack))
            models).
Proof.
  split; [reflexivity|]. split; [reflexivity|].
  destruct (proj1 (evaluateAnswer_exhausted goodKey offline closureQuestion longAnswer
                     fullStack [])
                  eq_refl (fun _ _ _ => eq_refl))
    as (Hscore & _ & Hfeedback & _ & _ & _ & Hlog).
  destruct (evaluateAnswer goodKey offline closureQuestion longAnswer fullStack [])
    as [[score feedback] sent].
  simpl in Hscore, Hfeedback, Hlog. now subst.
Defined.

(** C2, as stated, fails without a credential: no model can answer, and the
    evaluation is the fixed score 5 rather than the basic one. *)
Lemma evaluateAnswer_missing_key :
  (forall i model, models !! i = Some model ->
     usable (offline (length (@nil Request) + i)
                     (mkRequest model (AskEvaluation closureQuestion longAnswer fullStack)))
     = None)
  /\ String.length longAnswer = 120
  /\ foundKeywords longAnswer = ["api"; "database"]
  /\ evaluateAnswer "" offline closureQuestion longAnswer fullStack []
     = (mkEvaluation 5 "Using default evaluation due to missing API key.", [])
  /\ ~ (PerplexityAPI.score
          (fst (evaluateAnswer "" offline closureQuestion longAnswer fullStack [])) == 7)%Q.
Proof.
  split; [reflexivity|]. split; [reflexivity|]. split; [reflexivity|].
  split; [reflexivity|]. vm_compute. discriminate.
Qed.

(** ** The summary *)

Lemma summariseWith_exhausted net (candidateData : Candidate.t) position (ms : list string) :
  forall log,
    (forall i model, ms !! i = Some model ->
       summaryOf (net (length log + i)
                      (mkRequest model
                         (AskSummary (JS.orString (Candidate.name candidateData) "this candidate")
                                     (Candidate.answers candidateData)
                                     (Candidate.questions candidateData) position))) = None) ->
    fst (summariseWith net candidateData position ms log)
    = defaultSummary (Candidate.name candidateData) (Candidate.answers candidateData).
Proof.
  induction ms as [|model rest IH]; intros log Hfail; simpl; [reflexivity|].
  unfold bind, post.
  pose proof (Hfail 0 model eq_refl) as H0. rewrite Nat.add_0_r in H0. rewrite H0.
  apply IH. intros i m Hm. rewrite length_app. simpl.
  replace (length log + 1 + i) with (length log + S i) by lia.
  now apply Hfail.
Qed.

Lemma summaryOf_nonempty (r : Response) (content : string) :
  summaryOf r = Some content -> content <> "".
Proof.
  unfold summaryOf. destruct (usable r) as [raw|]; [|discriminate].
  destruct (50 <? String.length (JS.trim raw)) eqn:Hlen; [|discriminate].
  intros [= <-] Hempty. rewrite Hempty in Hlen. discriminate.
Qed.

Lemma defaultSummary_nonempty (name : string) (answers : list Answer.t) :
  defaultSummary name answers <> "".
Proof. unfold defaultSummary. simpl. discriminate. Qed.

Lemma summariseWith_nonempty net (candidateData : Candidate.t) position (ms : list string) :
  forall log, fst (summariseWith net candidateData position ms log) <> "".
Proof.
  induction ms as [|model rest IH]; intros log; simpl.
  - apply defaultSummary_nonempty.
  - unfold bind, post.
    destruct (summaryOf _) as [content|] eqn:Hsum; [|apply IH].
    simpl. now apply summaryOf_nonempty in Hsum.
Qed.

Lemma generateSummary_nonempty apiKey net (candidateData : Candidate.t) position log :
  fst (generateSummary apiKey net candidateData position log) <> "".
Proof.
  unfold generateSummary. destruct (checkApiKey apiKey); cbn [negb].
  - apply summariseWith_nonempty.
  - simpl. discriminate.
Qed.

Lemma sumScores_total (answers : list Answer.t) :
  sumScores answers = totalOutOfTen answers.
Proof.
  unfold sumScores, totalOutOfTen, perQuestionScores.
  generalize (Double.ofZ 0). induction answers as [|a rest IH]; intros acc; simpl;
    [reflexivity|apply IH].
Qed.

Lemma band_whole (total n : Z) :
  (1 <= n <= 6)%Z -> (0 <= total <= 60)%Z ->
  Double.leb (Double.ofZ 7) (Double.div (Double.ofZ total) (Double.ofZ n))
  = (7 * n <=? total)%Z
  /\ Double.leb (Double.ofZ 5) (Double.div (Double.ofZ total) (Double.ofZ n))
     = (5 * n <=? total)%Z.
Proof.
  intros Hn Htotal.
  assert (map (fun n => map (fun total =>
                               (Double.leb (Double.ofZ 7)
                                           (Double.div (Double.ofZ total) (Double.ofZ n)),
                                Double.leb (Double.ofZ 5)
                                           (Double.div (Double.ofZ total) (Double.ofZ n))))
                            (map Z.of_nat (seq 0 61)))
              (map Z.of_nat (seq 1 6))
          = map (fun n => map (fun total => ((7 * n <=? total)%Z, (5 * n <=? total)%Z))
                              (map Z.of_nat (seq 0 61)))
                (map Z.of_nat (seq 1 6))) as Htable
      by (vm_compute; reflexivity).
  assert (In n (map Z.of_nat (seq 1 6))) as Hin.
  { apply in_map_iff. exists (Z.to_nat n). split; [lia|]. apply in_seq. lia. }
  pose proof (proj1 (@map_ext_in_iff _ _ _ _ _) Htable n Hin) as Hrow.
  pose proof (proj1 (@map_ext_in_iff _ _ _ _ _) Hrow total (upto_In 61 total ltac:(lia)))
    as Hcell.
  split; [exact (f_equal fst Hcell)|exact (f_equal snd Hcell)].
Qed.

(** C7, as it holds. [finishInterview] completes the session with a
    non-empty summary. When the key passes [checkApiKey] and none of the five
    model requests yields a summary, the summary is the template filled with
    the name, the number of answers and their average score printed with
    one decimal, and with the overview and the recommendation of one of
    three variants: the strong one when the average is at least 7, the
    moderate one when it is at least 5, the below-average one otherwise. The
    average is the float that the sum of the scores, added up as floats,
    divided by the number of answers gives; for up to six whole scores it
    is in the band of the exact average. When [checkApiKey] refuses the key,
    the summary is a fixed notice and no request is issued. *)
Theorem finishInterview_summary apiKey net isoNow (active : Candidate.t) log :
  let finished := fst (finishInterview apiKey net isoNow active log) in
  let answers := Candidate.answers active in
  let avg := avgScore answers in
  Candidate.interviewStatus finished = completed
  /\ Candidate.summary finished <> ""
  /\ (checkApiKey apiKey = true ->
      (forall i model, models !! i = Some model ->
         summaryOf (net (length log + i)
                        (mkRequest model
                           (AskSummary (JS.orString (Candidate.name active) "this candidate")
                                       (Candidate.answers active) (Candidate.questions active)
                                       (roleInfo (Candidate.skills active))))) = None) ->
      exists overview recommendation : string,
        Candidate.summary finished
        = "Interview Summary for " +:+ JS.orString (Candidate.name active) "Candidate"
          +:+ JS.nl +:+ JS.nl
          +:+ "Technical Skills Assessment: The candidate completed "
          +:+ JS.showNat (length answers)
          +:+ " out of 6 interview questions with an average score of "
          +:+ JS.toFixed1 avg +:+ "/10." +:+ JS.nl +:+ JS.nl
          +:+ "Performance Overview: " +:+ overview +:+ JS.nl +:+ JS.nl
          +:+ "Areas for Improvement: Based on the interview responses, the candidate would benefit from additional practice and study in the technical areas covered."
          +:+ JS.nl +:+ JS.nl
          +:+ "Recommendation: " +:+ recommendation
          +:+ " based on current technical assessment." +:+ JS.nl +:+ JS.nl
          +:+ "Note: This is an automated summary. Manual review recommended for final hiring decisions."
        /\ (atLeast 7 avg ->
            overview = "Strong performance with good technical understanding."
            /\ recommendation = "Consider for next round")
        /\ (~ atLeast 7 avg -> atLeast 5 avg ->
            overview = "Moderate performance with room for improvement."
            /\ recommendation = "Requires further evaluation")
        /\ (~ atLeast 7 avg -> ~ atLeast 5 avg ->
            overview
            = "Below average performance, significant gaps in technical knowledge."
            /\ recommendation = "Not recommended at this time"))
  /\ (answers <> [] ->
      avg = Double.div (fold_left (fun sum a => Double.add sum (JS.orZero (Answer.score a)))
                                  answers (Double.ofZ 0))
                       (Double.ofZ (Z.of_nat (length answers))))
  /\ (1 <= length answers <= 6 -> Forall wholeScore answers ->
      (atLeast 7 avg <-> (7 * inject_Z (Z.of_nat (length answers)) <= exactSum answers)%Q)
      /\ (atLeast 5 avg <-> (5 * inject_Z (Z.of_nat (length answers)) <= exactSum answers)%Q))
  /\ (checkApiKey apiKey = false ->
      Candidate.summary finished = "Using default summary due to missing API key."
      /\ snd (finishInterview apiKey net isoNow active log) = log).
Proof.
  intros finished answers avg. subst finished. rewrite finishInterview_unfold. simpl.
  split; [reflexivity|]. split; [apply generateSummary_nonempty|].
  split; [|split; [|split]].
  - intros Hkey Hfail. unfold generateSummary. rewrite Hkey. cbn [negb].
    rewrite summariseWith_exhausted by assumption.
    exists (overview (band avg)), (recommendation (band avg)).
    split; [reflexivity|]. unfold band, atLeast.
    destruct (Double.leb (Double.ofZ 7) avg), (Double.leb (Double.ofZ 5) avg);
      repeat split; intros; congruence.
  - intros Hne. subst avg. unfold avgScore. destruct answers; [contradiction|reflexivity].
  - intros Hlen Hwhole. subst avg. unfold avgScore, atLeast.
    destruct answers as [|a rest] eqn:Hanswers; [simpl in Hlen; lia|]. rewrite <- Hanswers in *.
    rewrite sumScores_total. unfold totalOutOfTen.
    destruct (sum_whole answers Hwhole 0%Z ltac:(lia) ltac:(lia))
      as (total & Htotal & Hfold & Hsum).
    rewrite Hfold.
    destruct (band_whole total (Z.of_nat (length answers)) ltac:(lia) ltac:(lia))
      as [-> ->].
    change (inject_Z 0) with 0%Q in Hsum. rewrite Qplus_0_l in Hsum. rewrite Hsum.
    change 7%Q with (inject_Z 7). change 5%Q with (inject_Z 5).
    rewrite <- !inject_Z_mult, <- !Zle_Qle, !Z.leb_le. tauto.
  - intros Hkey. unfold generateSummary. now rewrite Hkey.
Qed.

Lemma finishInterview_summary_witness :
  Candidate.summary (fst (finishInterview goodKey offline "2024-10-27T00:10:00.000Z" adaAnswered []))
  = "Interview Summary for Ada" +:+ JS.nl +:+ JS.nl
    +:+ "Technical Skills Assessment: The candidate completed 6 out of 6 interview questions with an average score of 6.5/10."
    +:+ JS.nl +:+ JS.nl
    +:+ "Performance Overview: Moderate performance with room for improvement."
    +:+ JS.nl +:+ JS.nl
    +:+ "Areas for Improvement: Based on the interview responses, the candidate would benefit from additional practice and study in the technical areas covered."
    +:+ JS.nl +:+ JS.nl
    +:+ "Recommendation: Requires further evaluation based on current technical assessment."
    +:+ JS.nl +:+ JS.nl
    +:+ "Note: This is an automated summary. Manual review recommended for final hiring decisions.".
Proof.
  destruct (proj1 (proj2 (proj2 (finishInterview_summary goodKey offline
                                   "2024-10-27T00:10:00.000Z" adaAnswered [])))
                  eq_refl (fun _ _ _ => eq_refl))
    as (overview & recommendation & Hsummary & _ & Hmoderate & _).
  destruct Hmoderate as [-> ->]; [vm_compute; discriminate|vm_compute; reflexivity|].
  rewrite Hsummary. vm_compute. reflexivity.
Defined.

(** C7, as stated, fails without a credential: no model can answer, and the
    summary is a fixed notice rather than the template. *)
Lemma finishInterview_summary_missing_key :
  (forall i model, models !! i = Some model ->
     summaryOf (offline (length (@nil Request) + i)
                        (mkRequest model
                           (AskSummary "Ada" (Candidate.answers adaAnswered)
                                       (Candidate.questions adaAnswered) fullStack))) = None)
  /\ Candidate.summary
       (fst (finishInterview "" offline "2024-10-27T00:10:00.000Z" adaAnswered []))
     = "Using default summary due to missing API key."
  /\ Candidate.summary
       (fst (finishInterview "" offline "2024-10-27T00:10:00.000Z" adaAnswered []))
     <> defaultSummary (Candidate.name adaAnswered) (Candidate.answers adaAnswered).
Proof.
  split; [reflexivity|]. split; [reflexivity|]. vm_compute. discriminate.
Qed.

(** The band is that of the float: the scores 2.3, 6.1 and 6.6 add up to 15
    and average 5 exactly, yet the float of their average lies below 5 and
    the template is the below-average one, printed with the average 5.0. *)
Lemma summary_band_of_a_float :
  (exactSum (Candidate.answers adaThree) == 15)%Q
  /\ ~ atLeast 5 (avgScore (Candidate.answers adaThree))
  /\ JS.toFixed1 (avgScore (Candidate.answers adaThree)) = "5.0"
  /\ band (avgScore (Candidate.answers adaThree)) = BelowAverage.
Proof.
  split; [reflexivity|]. split; [vm_compute; discriminate|].
  split; vm_compute; reflexivity.
Qed.

(** ** Question batches *)

Lemma numberedQuestions_difficulty (difficulty : string) (lines : list string) :
  Forall (fun q => Item.difficulty q = difficulty) (numberedQuestions difficulty lines).
Proof.
  induction lines as [|line rest IH]; simpl; [constructor|].
  destruct (matchNumbered line); [|assumption].
  destruct (10 <? _); [constructor; [reflexivity|assumption]|assumption].
Qed.

Lemma looseQuestions_difficulty (difficulty : string) (count : nat) (lines : list string) :
  forall found,
    Forall (fun q => Item.difficulty q = difficulty)
           (looseQuestions difficulty count found lines).
Proof.
  induction lines as [|line rest IH]; intros found; simpl; [constructor|].
  destruct (_ && _); [|apply IH].
  constructor; [reflexivity|]. destruct (count <=? S found); [constructor|apply IH].
Qed.

Lemma parseQuestions_difficulty (difficulty : string) (count : nat) (raw : string) :
  Forall (fun q => Item.difficulty q = difficulty) (parseQuestions difficulty count raw).
Proof.
  unfold parseQuestions.
  destruct (numberedQuestions difficulty _) eqn:Hnum.
  - apply looseQuestions_difficulty.
  - rewrite <- Hnum. apply numberedQuestions_difficulty.
Qed.

Lemma generateWith_spec net shuffle position difficulty count (ms : list string) :
  forall log questions,
    fst (generateWith net shuffle position difficulty count ms log) = Some questions ->
    length questions <= count
    /\ Forall (fun q => Item.difficulty q = difficulty) questions.
Proof.
  induction ms as [|model rest IH]; intros log questions; simpl.
  - unfold selectedQuestions. destruct (availableQuestions difficulty); [|discriminate].
    intros [= <-]. rewrite length_map, length_take. split; [lia|].
    apply List.Forall_map. apply Forall_forall. reflexivity.
  - unfold bind, post.
    destruct (usable _) as [raw|]; [|apply IH].
    pose proof (parseQuestions_difficulty difficulty count raw) as Hd.
    destruct (parseQuestions difficulty count raw) as [|q qs]; [apply IH|].
    simpl fst. intros [= <-]. unfold JS.slice0. split.
    + rewrite length_take. lia.
    + now apply Forall_take.
Qed.

Lemma generateQuestions_spec apiKey net shuffle position difficulty count log questions :
  fst (generateQuestions apiKey net shuffle position difficulty count log) = Some questions ->
  length questions <= count
  /\ Forall (fun q => Item.difficulty q = difficulty) questions.
Proof.
  unfold generateQuestions. destruct (checkApiKey apiKey); cbn [negb].
  - apply generateWith_spec.
  - simpl. intros [= <-]. split; [simpl; lia|constructor].
Qed.

Lemma defaultBatch_spec (now : nat) :
  length (defaultBatch now) = 6
  /\ map Question.difficulty (defaultBatch now)
     = ["Easy"; "Easy"; "Medium"; "Medium"; "Hard"; "Hard"]
  /\ map Question.item (defaultBatch now) = defaultQuestions.
Proof. repeat split. Qed.

Lemma generatedBatch_tiers (now : nat) (easy medium hard : list Item.t) :
  length easy <= 2 -> length medium <= 2 -> length hard <= 2 ->
  Forall (fun q => Item.difficulty q = "easy") easy ->
  Forall (fun q => Item.difficulty q = "medium") medium ->
  Forall (fun q => Item.difficulty q = "hard") hard ->
  length (generatedBatch now (easy ++ medium ++ hard)) <= 6
  /\ (length (generatedBatch now (easy ++ medium ++ hard)) = 6 ->
      map Question.difficulty (generatedBatch now (easy ++ medium ++ hard))
      = ["easy"; "easy"; "medium"; "medium"; "hard"; "hard"]).
Proof.
  intros He Hm Hh De Dm Dh. unfold generatedBatch. rewrite length_imap, !length_app.
  split; [lia|]. intros Hlen.
  destruct easy as [|e1 [|e2 [|]]]; simpl in *; try lia;
  destruct medium as [|m1 [|m2 [|]]]; simpl in *; try lia;
  destruct hard as [|h1 [|h2 [|]]]; simpl in *; try lia.
  inversion De as [|? ? E1 De']; inversion De' as [|? ? E2 _]; subst.
  inversion Dm as [|? ? M1 Dm']; inversion Dm' as [|? ? M2 _]; subst.
  inversion Dh as [|? ? H1 Dh']; inversion Dh' as [|? ? H2 _]; subst.
  rewrite E1, E2, M1, M2, H1, H2. reflexivity.
Qed.

Lemma generateQuestionsBatch_spec apiKey net shuffle now timeoutAt (active : Candidate.t) log :
  let batch := fst (generateQuestionsBatch apiKey net shuffle now timeoutAt active log) in
  batch = defaultBatch now
  \/ (1 <= length batch <= 6
      /\ (length batch = 6 ->
          map Question.difficulty batch
          = ["easy"; "easy"; "medium"; "medium"; "hard"; "hard"])).
Proof.
  unfold generateQuestionsBatch, raced.
  destruct (isApiKeyAvailable apiKey); [|now left].
  unfold bind. destruct (testConnection apiKey net log) as [connectionTest log0].
  destruct (success connectionTest); [|now left].
  pose proof (generateQuestions_spec apiKey net shuffle
                (roleInfo (Candidate.skills active)) "easy" 2 log0) as He.
  destruct (generateQuestions apiKey net shuffle _ "easy" 2 log0) as [[easy|] log1];
    destruct (lostRace timeoutAt (length log) 0); try (now left).
  destruct (He easy eq_refl) as [Le De]. clear He.
  pose proof (generateQuestions_spec apiKey net shuffle
                (roleInfo (Candidate.skills active)) "medium" 2 log1) as Hm.
  destruct (generateQuestions apiKey net shuffle _ "medium" 2 log1) as [[medium|] log2];
    destruct (lostRace timeoutAt (length log) 1); try (now left).
  destruct (Hm medium eq_refl) as [Lm Dm]. clear Hm.
  pose proof (generateQuestions_spec apiKey net shuffle
                (roleInfo (Candidate.skills active)) "hard" 2 log2) as Hh.
  destruct (generateQuestions apiKey net shuffle _ "hard" 2 log2) as [[hard|] log3];
    destruct (lostRace timeoutAt (length log) 2); try (now left).
  destruct (Hh hard eq_refl) as [Lh Dh]. clear Hh.
  unfold ret. simpl fst.
  destruct (easy ++ medium ++ hard) as [|q qs] eqn:Hall; [now left|].
  right. rewrite <- Hall.
  destruct (generatedBatch_tiers now easy medium hard Le Lm Lh De Dm Dh) as [Hle H6].
  split; [|assumption]. split; [|assumption].
  unfold generatedBatch. rewrite length_imap, Hall. simpl. lia.
Qed.

(** A reply that parses to at least one question is accepted as it is, cut
    to the count asked for; the remaining models are not consulted. *)
Lemma generateWith_accepts net shuffle position difficulty count model rest raw log :
  usable (net (length log) (mkRequest model (AskQuestions position difficulty count)))
  = Some raw ->
  parseQuestions difficulty count raw <> [] ->
  generateWith net shuffle position difficulty count (model :: rest) log
  = (Some (JS.slice0 count (parseQuestions difficulty count raw)),
     log ++ [mkRequest model (AskQuestions position difficulty count)]).
Proof.
  intros Hraw Hparse. simpl. unfold bind, post. rewrite Hraw.
  destruct (parseQuestions difficulty count raw); [contradiction|reflexivity].
Qed.

(** ** Invariants of the component *)

Lemma find_elem {A} (f : A -> bool) (xs : list A) (x : A) :
  JS.find f xs = Some x -> x ∈ xs.
Proof.
  induction xs as [|y r IH]; simpl; [discriminate|].
  destruct (f y).
  - intros [= ->]. apply list_elem_of_here.
  - intros H. apply list_elem_of_further. now apply IH.
Qed.

Lemma Forall_updateCandidate (P : Candidate.t -> Prop) (st : Slice.State) (c : Candidate.t) :
  Forall P (Slice.candidates st) ->
  (forall current, P (Slice.merge current (Payload.of_candidate c))) ->
  Forall P (Slice.candidates (Slice.updateCandidate st (Payload.of_candidate c))).
Proof.
  intros Hall Hc. unfold Slice.updateCandidate.
  destruct (JS.findIndex _ _) as [index|]; [|assumption].
  destruct (Slice.candidates st !! index) as [current|]; [|assumption].
  simpl. apply Forall_insert; [assumption|apply Hc].
Qed.

Ltac chat_unfold :=
  unfold Everywhere, addTask, dispatchUpdate, countClamp, flagsEffect,
    setStore, setTimeLeft, setAnswer, setIsPaused, setLoading, setTimerRef,
    setHasGeneratedQuestions, setHasFinishedInterview, setGenerationTimeoutRef,
    setInitCleanup, setInFlight, setRequests in *;
  simpl in *.

Lemma runNet_frame {A} (m : Net A) (s : Chat) :
  store (snd (runNet m s)) = store s
  /\ inFlight (snd (runNet m s)) = inFlight s
  /\ timerRef (snd (runNet m s)) = timerRef s
  /\ clamps (snd (runNet m s)) = clamps s
  /\ hasGeneratedQuestions (snd (runNet m s)) = hasGeneratedQuestions s
  /\ hasFinishedInterview (snd (runNet m s)) = hasFinishedInterview s
  /\ fst (runNet m s) = fst (m (requests s)).
Proof. unfold runNet. destruct (m (requests s)). repeat split. Qed.

(** The guard counter never goes down, and only the initialisation effect
    moves it. *)
Lemma clamps_timerEffect (r s : Chat) : clamps (timerEffect r s) = clamps s.
Proof.
  unfold timerEffect.
  destruct (activeCandidate r); [|reflexivity].
  destruct (_ || _ || _); [reflexivity|].
  destruct (_ !! _); [|reflexivity].
  destruct (timeLeft r <=? 0)%Z; reflexivity.
Qed.

Lemma clamps_initEffect apiKey net (r s : Chat) :
  clamps s <= clamps (fst (initEffect apiKey net r s)).
Proof.
  unfold initEffect.
  destruct (activeCandidate r); [|chat_unfold; lia].
  set (s0 := if _ && _ then snd (runNet (testConnection apiKey net) _) else _).
  assert (clamps s0 = clamps s) as E.
  { subst s0. destruct (_ && _); [|reflexivity].
    now destruct (runNet_frame (testConnection apiKey net)
                    (setGenerationTimeoutRef None s)) as (_ & _ & _ & -> & _). }
  clearbody s0.
  repeat match goal with
         | |- context [if ?x then _ else _] => destruct x
         | |- context [match ?x with _ => _ end] => destruct x
         end; chat_unfold; lia.
Qed.

Lemma clamps_effects apiKey net (runInit runTimer : bool) (r s : Chat) :
  clamps s <= clamps (fst (effects apiKey net runInit runTimer r s)).
Proof.
  unfold effects.
  set (s1 := if runInit && initCleanup s then setTimerRef None s else s).
  assert (clamps s1 = clamps s) as E1 by (subst s1; now destruct (runInit && initCleanup s)).
  clearbody s1.
  set (s2 := if runTimer then setTimerRef None s1 else s1).
  assert (clamps s2 = clamps s) as E2 by (subst s2; now destruct runTimer).
  clearbody s2.
  destruct runInit.
  - pose proof (clamps_initEffect apiKey net r s2) as Hle.
    destruct (initEffect apiKey net r s2) as [s3 dispatched]. simpl in *.
    destruct runTimer; simpl; [rewrite clamps_timerEffect|]; lia.
  - destruct runTimer; simpl; [rewrite clamps_timerEffect|]; lia.
Qed.

Lemma clamps_commit apiKey net (before : Chat) (dispatched : bool) (s : Chat) :
  clamps s <= clamps (commit apiKey net before dispatched s).
Proof.
  unfold commit.
  pose proof (clamps_effects apiKey net dispatched (timerDeps before s) s s) as H1.
  destruct (effects apiKey net dispatched (timerDeps before s) s s) as [s1 again].
  simpl in *. destruct again; [|assumption].
  pose proof (clamps_effects apiKey net true (timerDeps s s1) s1 s1). lia.
Qed.

Section Invariant.

Variable apiKey : string.
Variable net : Network.
Variable shuffle : list string -> list string.
Variable now : nat.
Variable isoNow : string.
Variable timeoutAt : nat -> option nat.

Variable P : Candidate.t -> Prop.
(** Whether [P] survives the out-of-range guard. *)
Variable clampSafe : Prop.

Hypothesis P_pause : forall c paused t, P c -> P (withPause c paused t).
Hypothesis P_submit : forall c q text evaluation,
    P c -> questionToAnswer c = Some q -> P (submitted isoNow c q text evaluation).
Hypothesis P_complete : forall c z text, P c -> P (withCompletion c z text isoNow).
Hypothesis P_generate : forall c log first,
    P c -> Candidate.questions c = [] ->
    P (withQuestions c (fst (generateQuestionsBatch apiKey net shuffle now timeoutAt c log)) first).
Hypothesis P_index : clampSafe -> forall c i t, P c -> P (withIndex c i t).
(** The property does not depend on the [completedAt] that an update with
    [{...c}] leaves in the store when [c] has none. *)
Hypothesis P_stored : forall current c,
    P c -> P (Slice.merge current (Payload.of_candidate c)).

Lemma active_P (s : Chat) (c : Candidate.t) :
  Everywhere P s -> activeCandidate s = Some c -> P c.
Proof.
  intros (Hstore & _) Hactive. unfold activeCandidate, Slice.activeCandidate in Hactive.
  apply find_elem in Hactive. rewrite Forall_forall in Hstore. now apply Hstore.
Qed.

Lemma initEffect_invariant (r s : Chat) :
  Everywhere P r -> Everywhere P s ->
  quiet clampSafe s (fst (initEffect apiKey net r s)) ->
  Everywhere P (fst (initEffect apiKey net r s)).
Proof.
  intros Hr Hs. unfold initEffect.
  destruct (activeCandidate r) as [active|] eqn:Hactive.
  2: { chat_unfold. intros _. exact Hs. }
  pose proof (active_P r active Hr Hactive) as Pactive.
  set (s0 := if _ && _ then snd (runNet (testConnection apiKey net) _) else _).
  assert (Hs0 : Everywhere P s0 /\ clamps s0 = clamps s).
  { subst s0. destruct (_ && _).
    - destruct (runNet_frame (testConnection apiKey net) (setGenerationTimeoutRef None s))
        as (E1 & E2 & E3 & E4 & _).
      unfold Everywhere. rewrite E1, E2, E3, E4. chat_unfold. now split.
    - chat_unfold. now split. }
  destruct Hs0 as [Hs0 Hc0]. clearbody s0.
  destruct (InterviewStatus_eqb _ completed).
  { chat_unfold. intros _. exact Hs0. }
  destruct (Candidate.currentQuestionIndex active <? 6).
  - destruct (Candidate.questions active) as [|q0 qs] eqn:Hq.
    + destruct (negb (hasGeneratedQuestions s0)).
      * chat_unfold. intros _.
        destruct Hs0 as (H1 & H2 & H3). split; [assumption|]. split; [|assumption].
        apply Forall_app. split; [assumption|]. constructor; [|constructor]. now split.
      * chat_unfold. intros _. exact Hs0.
    + destruct (length (q0 :: qs) <=? _).
      * destruct ((q0 :: qs) !! _) as [q|].
        2: { chat_unfold. intros _. exact Hs0. }
        destruct (negb _ || negb _).
        -- chat_unfold. intros [Hsafe|Hclamp]; [|simpl in Hclamp; exfalso; lia].
           destruct Hs0 as (H1 & H2 & H3). split; [|now split].
           apply Forall_updateCandidate; [assumption|].
           intros current. apply P_stored. now apply P_index.
        -- chat_unfold. intros _. exact Hs0.
      * destruct ((q0 :: qs) !! _) as [q|].
        -- destruct (negb _); chat_unfold; intros _; exact Hs0.
        -- chat_unfold. intros _. exact Hs0.
  - destruct (_ && _ && _).
    + destruct (negb (hasFinishedInterview s0)).
      * chat_unfold. intros _.
        destruct Hs0 as (H1 & H2 & H3). split; [assumption|]. split; [|assumption].
        apply Forall_app. split; [assumption|]. constructor; [|constructor]. now split.
      * chat_unfold. intros _. exact Hs0.
    + chat_unfold. intros _. exact Hs0.
Qed.

Lemma timerEffect_invariant (r s : Chat) :
  Everywhere P r -> Everywhere P s -> Everywhere P (timerEffect r s).
Proof.
  intros Hr Hs. unfold timerEffect.
  assert (Hnone : Everywhere P (setTimerRef None s)).
  { chat_unfold. destruct Hs as (H1 & H2 & _). repeat split; try assumption. discriminate. }
  destruct (activeCandidate r) as [active|] eqn:Hactive; [|assumption].
  pose proof (active_P r active Hr Hactive) as Pactive.
  destruct (_ || _ || _); [assumption|].
  destruct (Candidate.questions active !! _) as [q|]; [|assumption].
  destruct (timeLeft r <=? 0)%Z; chat_unfold; destruct Hs as (H1 & H2 & _);
    repeat split; try assumption; now intros cl [= <-].
Qed.

Lemma Everywhere_without_timer (s : Chat) :
  Everywhere P s -> Everywhere P (setTimerRef None s).
Proof.
  chat_unfold. intros (H1 & H2 & _). repeat split; try assumption. discriminate.
Qed.

Lemma quiet_trans (s s1 s2 : Chat) :
  clamps s <= clamps s1 -> clamps s1 <= clamps s2 ->
  quiet clampSafe s s2 -> quiet clampSafe s s1 /\ quiet clampSafe s1 s2.
Proof. unfold quiet. intros H1 H2 [Hsafe|Heq]; split; (now left) || (right; lia). Qed.

Lemma effects_invariant (runInit runTimer : bool) (r s : Chat) :
  Everywhere P r -> Everywhere P s ->
  quiet clampSafe s (fst (effects apiKey net runInit runTimer r s)) ->
  Everywhere P (fst (effects apiKey net runInit runTimer r s)).
Proof.
  intros Hr Hs. unfold effects.
  set (s1 := if runInit && initCleanup s then setTimerRef None s else s).
  assert (H1 : Everywhere P s1 /\ clamps s1 = clamps s).
  { subst s1. destruct (runInit && initCleanup s); [|now split].
    split; [now apply Everywhere_without_timer|reflexivity]. }
  destruct H1 as [H1 C1]. clearbody s1.
  set (s2 := if runTimer then setTimerRef None s1 else s1).
  assert (H2 : Everywhere P s2 /\ clamps s2 = clamps s).
  { subst s2. destruct runTimer; [|now split].
    split; [now apply Everywhere_without_timer|exact C1]. }
  destruct H2 as [H2 C2]. clearbody s2.
  destruct runInit.
  - pose proof (initEffect_invariant r s2 Hr H2) as Hinv.
    destruct (initEffect apiKey net r s2) as [s3 dispatched]. simpl in *.
    assert (quiet clampSafe s s3 -> Everywhere P s3) as Hinv'.
    { intros [Hsafe|Heq]; apply Hinv; [now left|right; lia]. }
    destruct runTimer; simpl.
    + intros Hquiet. apply timerEffect_invariant; [assumption|]. apply Hinv'.
      destruct Hquiet as [Hsafe|Heq]; [now left|right].
      now rewrite clamps_timerEffect in Heq.
    + exact Hinv'.
  - destruct runTimer; simpl; intros _; [now apply timerEffect_invariant|assumption].
Qed.

Lemma commit_invariant (before : Chat) (dispatched : bool) (s : Chat) :
  Everywhere P s ->
  quiet clampSafe s (commit apiKey net before dispatched s) ->
  Everywhere P (commit apiKey net before dispatched s).
Proof.
  intros Hs. unfold commit.
  pose proof (effects_invariant dispatched (timerDeps before s) s s Hs Hs) as Hinv.
  pose proof (clamps_effects apiKey net dispatched (timerDeps before s) s s) as Hle.
  destruct (effects apiKey net dispatched (timerDeps before s) s s) as [s1 again].
  simpl in *. destruct again; [|assumption].
  intros Hquiet.
  pose proof (clamps_effects apiKey net true (timerDeps s s1) s1 s1) as Hle2.
  destruct (quiet_trans s s1 _ Hle Hle2 Hquiet) as [Q1 Q2].
  apply effects_invariant; auto.
Qed.

Lemma Everywhere_frame (s s' : Chat) :
  store s' = store s -> inFlight s' = inFlight s -> timerRef s' = timerRef s ->
  Everywhere P s -> Everywhere P s'.
Proof. unfold Everywhere. now intros -> -> ->. Qed.

Lemma Everywhere_dispatch (s : Chat) (c : Candidate.t) :
  Everywhere P s -> P c -> Everywhere P (dispatchUpdate c s).
Proof.
  intros (H1 & H2 & H3) Hc. chat_unfold. split; [|now split].
  apply Forall_updateCandidate; [assumption|]. intros current. now apply P_stored.
Qed.

Lemma Everywhere_addTask (s : Chat) (t : Task) :
  Everywhere P s -> P (taskCandidate t) -> awaitsQuestions t -> Everywhere P (addTask t s).
Proof.
  intros (H1 & H2 & H3) Ht Hq. chat_unfold. split; [assumption|]. split; [|assumption].
  apply Forall_app. split; [assumption|]. constructor; [now split|constructor].
Qed.

Lemma startSubmit_invariant (cl : Closure) (s : Chat) :
  Everywhere P s -> P (captured cl) ->
  Everywhere P (startSubmit cl s) /\ clamps (startSubmit cl s) = clamps s.
Proof.
  intros Hs Hcl. unfold startSubmit.
  destruct (questionToAnswer (captured cl)); [|now split].
  split; [|reflexivity]. apply Everywhere_addTask; [|assumption|exact I].
  revert Hs. now apply Everywhere_frame.
Qed.

Lemma quiet_from (a b x : Chat) :
  clamps b = clamps a -> quiet clampSafe a x -> quiet clampSafe b x.
Proof. unfold quiet. intros E [Hsafe|Heq]; [now left|right; congruence]. Qed.

Lemma settle_invariant (task : Task) (before s : Chat) :
  Everywhere P s -> P (taskCandidate task) -> awaitsQuestions task ->
  quiet clampSafe s (settle apiKey net shuffle now isoNow timeoutAt task before s) ->
  Everywhere P (settle apiKey net shuffle now isoNow timeoutAt task before s).
Proof.
  intros Hs Ht Hq. destruct task as [active|active text|active]; simpl in *.
  - pose proof (runNet_frame (generateQuestionsBatch apiKey net shuffle now timeoutAt active) s)
      as (F1 & F2 & F3 & F4 & _ & _ & F7).
    destruct (runNet _ s) as [batch s1]. simpl in *.
    assert (Everywhere P s1) as H1 by (revert Hs; now apply Everywhere_frame).
    destruct batch as [|first rest] eqn:Hbatch.
    + intros _. revert H1. now apply Everywhere_frame.
    + intros Hquiet. apply commit_invariant.
      * eapply Everywhere_frame; [| | |apply (Everywhere_dispatch s1); [exact H1|]];
          try reflexivity.
        rewrite F7. now apply P_generate.
      * revert Hquiet. apply quiet_from. simpl. congruence.
  - pose proof (runNet_frame (submitAnswer apiKey net isoNow active text) s)
      as (F1 & F2 & F3 & F4 & _ & _ & F7).
    destruct (runNet _ s) as [result s1]. simpl in *.
    assert (Everywhere P s1) as H1 by (revert Hs; now apply Everywhere_frame).
    destruct result as [updated|].
    + assert (P updated) as Hup.
      { unfold submitAnswer in F7.
        destruct (questionToAnswer active) as [q|] eqn:Hqa; [|discriminate].
        unfold bind, ret in F7.
        destruct (evaluateAnswer _ _ _ _ _ _) as [evaluation log'].
        simpl in F7. injection F7 as ->. now apply P_submit. }
      intros Hquiet.
      apply commit_invariant;
        [|revert Hquiet; apply quiet_from; destruct (Candidate.questions active !! _);
          simpl; congruence].
      destruct (Candidate.questions active !! _);
        (eapply Everywhere_frame; [| | |apply (Everywhere_dispatch s1); [exact H1|exact Hup]];
         reflexivity).
    + intros _. revert H1. now apply Everywhere_frame.
  - pose proof (runNet_frame (finishInterview apiKey net isoNow active) s)
      as (F1 & F2 & F3 & F4 & _ & _ & F7).
    destruct (runNet _ s) as [updated s1]. simpl in *.
    assert (Everywhere P s1) as H1 by (revert Hs; now apply Everywhere_frame).
    intros Hquiet.
    apply commit_invariant; [|revert Hquiet; apply quiet_from; simpl; congruence].
    eapply Everywhere_frame; [| | |apply (Everywhere_dispatch s1); [exact H1|]];
      try reflexivity.
    rewrite F7, finishInterview_unfold. simpl. now apply P_complete.
Qed.

(** Every step that leaves the guard alone keeps [P] everywhere. *)
Lemma step_invariant (s : Chat) (e : Event) :
  Everywhere P s ->
  quiet clampSafe s (step apiKey net shuffle now isoNow timeoutAt s e) ->
  Everywhere P (step apiKey net shuffle now isoNow timeoutAt s e).
Proof.
  intros Hs. destruct e as [text| | | |i|i| |]; simpl.
  - intros _. destruct (_ && _); [|assumption]. revert Hs. now apply Everywhere_frame.
  - destruct (activeCandidate s) as [active|] eqn:Hactive; [|now intros _].
    destruct (mainVisible s); [|now intros _].
    intros Hquiet. apply commit_invariant; [|revert Hquiet; now apply quiet_from].
    apply Everywhere_dispatch.
    + revert Hs. now apply Everywhere_frame.
    + apply P_pause. now apply (active_P s).
  - intros _. destruct (activeCandidate s) as [active|] eqn:Hactive; [|assumption].
    destruct (_ && _); [|assumption].
    apply startSubmit_invariant; [assumption|]. now apply (active_P s).
  - intros _. destruct (timerRef s) as [cl|] eqn:Hcl; [|assumption].
    destruct (_ <=? 0)%Z.
    + apply startSubmit_invariant.
      * apply (Everywhere_frame (setTimerRef None s)); try reflexivity.
        now apply Everywhere_without_timer.
      * destruct Hs as (_ & _ & H3). now apply H3.
    + revert Hs. now apply Everywhere_frame.
  - destruct (inFlight s !! i) as [task|] eqn:Hi; [|now intros _].
    destruct Hs as (H1 & H2 & H3).
    destruct (Forall_lookup_1 _ _ _ _ H2 Hi) as [Ht Hq].
    intros Hquiet.
    apply settle_invariant; [|assumption..|revert Hquiet; now apply quiet_from].
    chat_unfold. split; [assumption|]. split; [now apply Forall_delete|assumption].
  - destruct (inFlight s !! i) as [task|] eqn:Hi; [|now intros _].
    intros _. destruct Hs as (H1 & H2 & H3).
    assert (Everywhere P (setInFlight (delete i (inFlight s)) s)) as Hd.
    { chat_unfold. split; [assumption|]. split; [now apply Forall_delete|assumption]. }
    destruct task; simpl.
    + revert Hd. now apply Everywhere_frame.
    + now repeat split.
    + revert Hd. now apply Everywhere_frame.
  - intros _. destruct (generationTimeoutRef s) as [[|]|]; [| |assumption];
      revert Hs; now apply Everywhere_frame.
  - now apply commit_invariant.
Qed.

Lemma mount_invariant (st : Slice.State) (log : list Request) :
  Forall P (Slice.candidates st) ->
  quiet clampSafe (firstRender st log) (mount apiKey net st log) ->
  Everywhere P (mount apiKey net st log).
Proof.
  intros Hst. unfold mount.
  assert (Everywhere P (firstRender st log)) as Hr.
  { unfold firstRender, Everywhere. simpl. repeat split; [assumption|constructor|discriminate]. }
  pose proof (effects_invariant true true _ _ Hr Hr) as Hinv.
  pose proof (clamps_effects apiKey net true true (firstRender st log) (firstRender st log))
    as Hle.
  destruct (effects apiKey net true true (firstRender st log) (firstRender st log))
    as [s1 again].
  simpl in *.
  assert (quiet clampSafe (firstRender st log) s1 -> Everywhere P (flagsEffect s1)) as H2.
  { intros Hq. apply (Everywhere_frame s1); try reflexivity. now apply Hinv. }
  destruct again; [|exact H2].
  intros Hquiet.
  pose proof (clamps_effects apiKey net true
                (timerDeps (firstRender st log) (flagsEffect s1))
                (flagsEffect s1) (flagsEffect s1)) as Hle2.
  assert (quiet clampSafe (firstRender st log) s1
          /\ quiet clampSafe (flagsEffect s1)
                   (fst (effects apiKey net true
                           (timerDeps (firstRender st log) (flagsEffect s1))
                           (flagsEffect s1) (flagsEffect s1)))) as [Q1 Q2].
  { destruct Hquiet as [Hsafe|Heq]; [split; now left|].
    split; right; simpl in *; lia. }
  apply effects_invariant; auto.
Qed.

End Invariant.

(** ** Questions of a session *)

Lemma tiers_generated (batch : list Question.t) :
  map Question.difficulty batch = ["easy"; "easy"; "medium"; "medium"; "hard"; "hard"] ->
  tiers batch = ["easy"; "easy"; "medium"; "medium"; "hard"; "hard"].
Proof.
  unfold tiers. intros H.
  rewrite <- (map_map Question.difficulty JS.toLowerCase), H. reflexivity.
Qed.

Lemma generateQuestionsBatch_Batched apiKey net shuffle now timeoutAt (c : Candidate.t) log first :
  Batched (withQuestions c (fst (generateQuestionsBatch apiKey net shuffle now timeoutAt c log))
                         first).
Proof.
  right. simpl.
  destruct (generateQuestionsBatch_spec apiKey net shuffle now timeoutAt c log)
    as [->|((H1 & H6) & Htiers)].
  - split; [simpl; lia|]. intros _. reflexivity.
  - split; [lia|]. intros Hlen. apply tiers_generated. now apply Htiers.
Qed.

(** What the code keeps of C3. A batch from [generateQuestionsBatch] has
    between one and six questions, and when it has six their tiers run easy,
    easy, medium, medium, hard, hard (written [Easy] in the question bank
    and [easy] in provider batches); every step of the component keeps the
    sessions it can reach empty of questions or so batched. A provider reply
    is accepted as soon as it parses to at least one question, cut to the
    count asked for, and the adapter never returns more than was asked. *)
Lemma question_batches apiKey net shuffle now isoNow timeoutAt :
  (forall (active : Candidate.t) log,
      let batch := fst (generateQuestionsBatch apiKey net shuffle now timeoutAt active log) in
      1 <= length batch <= 6
      /\ (length batch = 6 ->
          tiers batch = ["easy"; "easy"; "medium"; "medium"; "hard"; "hard"]))
  /\ (forall s e, Everywhere Batched s ->
                  Everywhere Batched (step apiKey net shuffle now isoNow timeoutAt s e))
  /\ (forall position difficulty count log questions,
         fst (generateQuestions apiKey net shuffle position difficulty count log)
         = Some questions ->
         length questions <= count)
  /\ (forall position difficulty count model rest raw log,
         usable (net (length log) (mkRequest model (AskQuestions position difficulty count)))
         = Some raw ->
         parseQuestions difficulty count raw <> [] ->
         fst (generateWith net shuffle position difficulty count (model :: rest) log)
         = Some (JS.slice0 count (parseQuestions difficulty count raw))).
Proof.
  split; [|split; [|split]].
  - intros active log batch.
    destruct (generateQuestionsBatch_Batched apiKey net shuffle now timeoutAt active log 0%Z)
      as [Hnil|H]; [|exact H].
    simpl in Hnil. subst batch.
    destruct (generateQuestionsBatch_spec apiKey net shuffle now timeoutAt active log)
      as [Hd|((H1 & _) & _)].
    + rewrite Hd in Hnil. discriminate.
    + rewrite Hnil in H1. simpl in H1. lia.
  - intros s e Hs.
    apply (step_invariant apiKey net shuffle now isoNow timeoutAt Batched True);
      try assumption; try (now left).
    + intros c paused t H. exact H.
    + intros c q text evaluation H _. exact H.
    + intros c z text H. exact H.
    + intros c log first _ _. apply generateQuestionsBatch_Batched.
    + intros _ c i t H. exact H.
    + intros current c H. exact H.
  - intros position difficulty count log questions H.
    now apply (generateQuestions_spec _ _ _ _ _ _ _ _ H).
  - intros position difficulty count model rest raw log Hraw Hparse.
    now rewrite (generateWith_accepts _ _ _ _ _ _ _ raw).
Qed.

Lemma Everywhere_mounted (P : Candidate.t -> Prop) :
  P ada -> P grace -> Everywhere P (mount goodKey terse twoCandidates []).
Proof.
  intros Ha Hg. unfold Everywhere. vm_compute.
  repeat split; try discriminate; repeat (constructor; try assumption).
Qed.

Lemma question_batches_example :
  fst (generateWith terse keepOrder fullStack "easy" 2 models [])
  = Some [ Item.mk "What does the keyword const declare in JavaScript?" "easy" 20 ]
  /\ Everywhere Batched
       (step goodKey terse keepOrder 17 clock inTime
             (mount goodKey terse twoCandidates []) (Settle 0)).
Proof.
  split.
  - apply (proj2 (proj2 (proj2 (question_batches goodKey terse keepOrder 17 clock inTime)))
                 fullStack "easy" 2 _ _
                 "1. What does the keyword const declare in JavaScript?" []).
    + reflexivity.
    + discriminate.
  - apply (proj1 (proj2 (question_batches goodKey terse keepOrder 17 clock inTime))).
    apply Everywhere_mounted; now left.
Defined.

(** C3. A reply naming one question where two were asked for is accepted,
    and the session goes on with five questions, their tiers written in
    lower case. Such a session is never completed: after its fifth answer
    the guard against an out-of-range index sets the index back to the last
    question, and each further answer is appended to the five while the
    index and the status stay as they are. *)
Theorem short_batch_accepted :
  fst (generateQuestions goodKey terse keepOrder fullStack "easy" 2 [])
  = Some [ Item.mk "What does the keyword const declare in JavaScript?" "easy" 20 ]
  /\ option_map (fun c => map Question.difficulty (Candidate.questions c))
       (activeCandidate
          (step goodKey terse keepOrder 17 clock inTime
                (mount goodKey terse twoCandidates []) (Settle 0)))
     = Some ["easy"; "medium"; "medium"; "hard"; "hard"]
  /\ (let progress (s : Chat) :=
        option_map (fun c => (Candidate.interviewStatus c, length (Candidate.answers c),
                              Candidate.currentQuestionIndex c, Candidate.score c))
                   (activeCandidate s) in
      progress afterFiveAnswers = Some (in_progress, 5, 4, None)
      /\ progress (run goodKey terse keepOrder 17 clock inTime afterFiveAnswers
                       [ClickSubmit; Settle 0])
         = Some (in_progress, 6, 4, None)
      /\ progress (run goodKey terse keepOrder 17 clock inTime afterFiveAnswers
                       [ClickSubmit; Settle 0; ClickSubmit; Settle 0])
         = Some (in_progress, 7, 4, None)).
Proof.
  split; [reflexivity|]. split; [reflexivity|].
  repeat split; vm_compute; reflexivity.
Qed.

(** ** Answers and the question index *)

Lemma InStep_pause (c : Candidate.t) (paused : bool) (t : Z) :
  InStep c -> InStep (withPause c paused t).
Proof. intros H. exact H. Qed.

Lemma InStep_complete (c : Candidate.t) (z : Z) (text completedAt : string) :
  InStep c -> InStep (withCompletion c z text completedAt).
Proof. intros H. exact H. Qed.

Lemma InStep_submit isoNow (c : Candidate.t) (q : Question.t) text evaluation :
  InStep c -> questionToAnswer c = Some q -> InStep (submitted isoNow c q text evaluation).
Proof.
  intros [Hlen _] Hq. unfold InStep, submitted. simpl. split.
  - rewrite length_app. simpl. lia.
  - intros Hnil. unfold questionToAnswer in Hq. rewrite Hnil in Hq.
    destruct (6 <=? _); discriminate.
Qed.

Lemma InStep_generate (c : Candidate.t) (batch : list Question.t) (first : Z) :
  InStep c -> Candidate.questions c = [] -> InStep (withQuestions c batch first).
Proof.
  intros [Hlen Hzero] Hnil. unfold InStep. simpl. split; [|reflexivity].
  rewrite Hlen. now apply Hzero.
Qed.

(** C6, as it holds. A submission appends exactly one answer, carrying the
    submitted text, and raises the index by one in one and the same update;
    every step of the component in which the out-of-range guard does not
    fire keeps [answers.length = currentQuestionIndex] on every session it
    can reach, and so does mounting; the guard itself lowers the index and
    leaves the answers, so the equality is lost whenever it fires. *)
Theorem answers_follow_index apiKey net shuffle now isoNow timeoutAt :
  (forall (c : Candidate.t) (q : Question.t) text evaluation,
      let c' := submitted isoNow c q text evaluation in
      Candidate.answers c'
      = Candidate.answers c
        ++ [ Answer.mk (Question.id q) text (Some (PerplexityAPI.score evaluation))
                       (Some (PerplexityAPI.feedback evaluation)) isoNow ]
      /\ Candidate.currentQuestionIndex c' = Candidate.currentQuestionIndex c + 1)
  /\ (forall s e,
         Everywhere InStep s ->
         clamps (step apiKey net shuffle now isoNow timeoutAt s e) = clamps s ->
         Everywhere InStep (step apiKey net shuffle now isoNow timeoutAt s e))
  /\ (forall st log,
         Forall InStep (Slice.candidates st) ->
         clamps (mount apiKey net st log) = 0 ->
         Everywhere InStep (mount apiKey net st log))
  /\ (forall (c : Candidate.t) (safeIndex : nat) (newTimeLeft : Z),
         InStep c -> safeIndex < Candidate.currentQuestionIndex c ->
         Candidate.answers (withIndex c safeIndex newTimeLeft) = Candidate.answers c
         /\ Candidate.currentQuestionIndex (withIndex c safeIndex newTimeLeft) = safeIndex
         /\ ~ InStep (withIndex c safeIndex newTimeLeft)).
Proof.
  split; [|split; [|split]].
  - intros c q text evaluation c'. split; [reflexivity|]. simpl. lia.
  - intros s e Hs Hclamps.
    apply (step_invariant apiKey net shuffle now isoNow timeoutAt InStep False);
      try assumption; try (now right).
    + intros c paused t. apply InStep_pause.
    + intros c q text evaluation. apply InStep_submit.
    + intros c z text. apply InStep_complete.
    + intros c log first. apply InStep_generate.
    + intros [].
    + intros current c H. exact H.
  - intros st log Hst Hclamps.
    apply (mount_invariant apiKey net InStep False); try assumption;
      [intros []|intros current c H; exact H|].
    right. exact Hclamps.
  - intros c safeIndex newTimeLeft [Hlen _] Hlt. split; [reflexivity|].
    split; [reflexivity|]. intros [Hlen' _]. simpl in Hlen'. lia.
Qed.

Lemma InStep_inStep (c : Candidate.t) : InStep c -> inStep c = true.
Proof.
  intros [Hlen Hzero]. unfold inStep.
  rewrite (proj2 (Nat.eqb_eq _ _) Hlen). simpl.
  destruct (Candidate.questions c) as [|q qs]; [|reflexivity].
  simpl. now rewrite Hzero.
Qed.

Lemma not_Everywhere_InStep (s : Chat) :
  forallb inStep (Slice.candidates (store s)) = false -> ~ Everywhere InStep s.
Proof.
  intros Hfalse (Hstore & _).
  rewrite (proj2 (forallb_forall _ _)) in Hfalse; [discriminate|].
  intros c Hc. apply InStep_inStep. rewrite Forall_forall in Hstore.
  apply Hstore. apply list_elem_of_In. exact Hc.
Qed.

Lemma InStep_fresh : InStep ada /\ InStep grace.
Proof. repeat split. Qed.

Lemma answers_follow_index_witness :
  Everywhere InStep
    (step goodKey terse keepOrder 17 clock inTime (mount goodKey terse twoCandidates []) (Settle 0)).
Proof.
  apply (proj1 (proj2 (answers_follow_index goodKey terse keepOrder 17 clock inTime))).
  - apply Everywhere_mounted; apply InStep_fresh.
  - reflexivity.
Defined.

(** C6, as stated, fails: after five answers to a batch of five questions the
    guard against an out-of-range index sets the index back to 4 and leaves
    the five answers. *)
Lemma clamp_lowers_index_alone :
  Forall InStep (Slice.candidates twoCandidates)
  /\ option_map (fun c => (length (Candidate.questions c), length (Candidate.answers c),
                           Candidate.currentQuestionIndex c))
       (activeCandidate afterFiveAnswers)
     = Some (5, 5, 4)
  /\ ~ Everywhere InStep afterFiveAnswers.
Proof.
  split; [repeat constructor|]. split; [vm_compute; reflexivity|].
  apply not_Everywhere_InStep. vm_compute. reflexivity.
Qed.

(** ** Generation without a credential *)

Lemma find_Some_index {A} (f : A -> bool) (xs : list A) (x : A) :
  JS.find f xs = Some x ->
  exists i, JS.findIndex f xs = Some i /\ xs !! i = Some x /\ f x = true.
Proof.
  rewrite find_findIndex. destruct (JS.findIndex f xs) as [i|] eqn:Hi; [|discriminate].
  intros Hx. exists i. split; [reflexivity|]. split; [assumption|].
  apply findIndex_Some in Hi as (y & Hy & Hfy & _). congruence.
Qed.

Lemma activeCandidate_stored (st : Slice.State) (c c' : Candidate.t) :
  Slice.activeCandidate st = Some c -> Candidate.id c' = Candidate.id c ->
  Slice.activeCandidate (Slice.updateCandidate st (Payload.of_candidate c'))
  = Some (Slice.merge c (Payload.of_candidate c')).
Proof.
  unfold Slice.activeCandidate. intros Hactive Hid.
  apply find_Some_index in Hactive as (i & Hi & Hc & Hf).
  apply idMatches_spec in Hf.
  unfold Slice.updateCandidate. simpl Payload.id. rewrite Hid, <- Hf, Hi, Hc.
  cbn [Slice.candidates Slice.currentCandidateId].
  apply find_insert_first; [assumption|].
  apply idMatches_spec. simpl. congruence.
Qed.

(** An update built from the active candidate, which keeps its
    [completedAt], and one that sets it. *)
Lemma activeCandidate_update (st : Slice.State) (c c' : Candidate.t) :
  Slice.activeCandidate st = Some c -> Candidate.id c' = Candidate.id c ->
  Candidate.completedAt c' = Candidate.completedAt c ->
  Slice.activeCandidate (Slice.updateCandidate st (Payload.of_candidate c')) = Some c'.
Proof.
  intros Hactive Hid Hsame.
  rewrite (activeCandidate_stored st c c' Hactive Hid).
  f_equal. apply merge_of_candidate. now left.
Qed.

Lemma activeCandidate_completion (st : Slice.State) (c c' : Candidate.t) :
  Slice.activeCandidate st = Some c -> Candidate.id c' = Candidate.id c ->
  Candidate.completedAt c' <> None ->
  Slice.activeCandidate (Slice.updateCandidate st (Payload.of_candidate c')) = Some c'.
Proof.
  intros Hactive Hid Hset.
  rewrite (activeCandidate_stored st c c' Hactive Hid).
  f_equal. apply merge_of_candidate. now right.
Qed.

Lemma isApiKeyAvailable_checkApiKey (apiKey : string) :
  isApiKeyAvailable apiKey = true -> checkApiKey apiKey = true.
Proof.
  unfold isApiKeyAvailable, checkApiKey.
  destruct (isEmpty apiKey); [discriminate|].
  destruct (String.eqb apiKey "undefined"); [discriminate|].
  destruct (isEmpty (JS.trim apiKey)); [discriminate|]. simpl.
  destruct (String.eqb (JS.trim apiKey) _); [discriminate|].
  destruct (negb (JS.startsWith (JS.trim apiKey) "pplx-")); [discriminate|reflexivity].
Qed.

Lemma testConnection_without_key apiKey net log :
  checkApiKey apiKey = false ->
  testConnection apiKey net log = (Unreachable "API key not available or invalid format", log).
Proof. intros H. unfold testConnection. now rewrite H. Qed.

Lemma generateQuestionsBatch_without_key apiKey net shuffle now timeoutAt active log :
  checkApiKey apiKey = false ->
  generateQuestionsBatch apiKey net shuffle now timeoutAt active log = (defaultBatch now, log).
Proof.
  intros H. unfold generateQuestionsBatch.
  destruct (isApiKeyAvailable apiKey) eqn:Havailable; [|reflexivity].
  apply isApiKeyAvailable_checkApiKey in Havailable. congruence.
Qed.

Lemma initEffect_fresh apiKey net (r s : Chat) (c : Candidate.t) :
  checkApiKey apiKey = false ->
  activeCandidate r = Some c ->
  Candidate.interviewStatus c = not_started ->
  Candidate.questions c = [] ->
  Candidate.currentQuestionIndex c = 0 ->
  hasGeneratedQuestions s = false ->
  initEffect apiKey net r s
  = (setInitCleanup true
       (addTask (Generating c)
          (setLoading true
             (setGenerationTimeoutRef (Some (loading r))
                (setHasGeneratedQuestions true (setGenerationTimeoutRef None s))))),
     false).
Proof.
  intros Hkey Hactive Hstatus Hquestions Hindex Hflag.
  unfold initEffect. rewrite Hactive, Hstatus, Hquestions, Hindex.
  unfold runNet. rewrite testConnection_without_key by assumption.
  simpl (hasGeneratedQuestions _). rewrite Hflag.
  cbn [negb andb InterviewStatus_eqb snd].
  simpl (hasGeneratedQuestions _). rewrite Hflag. cbn [negb].
  destruct s; reflexivity.
Qed.

Lemma timerEffect_idle (r s : Chat) (c : Candidate.t) :
  activeCandidate r = Some c ->
  Candidate.questions c !! Candidate.currentQuestionIndex c = None ->
  timerEffect r s = setTimerRef None s.
Proof.
  intros Hactive Hnone. unfold timerEffect. rewrite Hactive, Hnone.
  now destruct (_ || _ || _).
Qed.

Lemma mount_fresh apiKey net (st : Slice.State) log (c : Candidate.t) :
  checkApiKey apiKey = false ->
  Slice.activeCandidate st = Some c ->
  Candidate.interviewStatus c = not_started ->
  Candidate.questions c = [] ->
  Candidate.currentQuestionIndex c = 0 ->
  mount apiKey net st log
  = mkChat st (Candidate.timeLeft c) "" (Candidate.isPaused c) true None false false None
           true [Generating c] log 0.
Proof.
  intros Hkey Hactive Hstatus Hquestions Hindex.
  unfold mount, effects.
  assert (activeCandidate (firstRender st log) = Some c) as Hr by exact Hactive.
  cbn [andb]. simpl (initCleanup _). cbv iota.
  rewrite (initEffect_fresh apiKey net _ _ c); try assumption; [|reflexivity].
  rewrite (timerEffect_idle _ _ c); [|assumption|now rewrite Hquestions].
  unfold firstRender. rewrite Hactive. reflexivity.
Qed.

Lemma initEffect_in_range apiKey net (r s : Chat) (c : Candidate.t) (q : Question.t) :
  activeCandidate r = Some c ->
  Candidate.interviewStatus c = in_progress ->
  Candidate.questions c !! Candidate.currentQuestionIndex c = Some q ->
  Candidate.currentQuestionIndex c < 6 ->
  store (fst (initEffect apiKey net r s)) = store s
  /\ requests (fst (initEffect apiKey net r s)) = requests s
  /\ inFlight (fst (initEffect apiKey net r s)) = inFlight s
  /\ snd (initEffect apiKey net r s) = false.
Proof.
  intros Hactive Hstatus Hq Hlt. unfold initEffect. rewrite Hactive, Hstatus.
  rewrite andb_false_r. cbn [InterviewStatus_eqb].
  rewrite (proj2 (Nat.ltb_lt _ _) Hlt).
  destruct (Candidate.questions c) as [|q0 qs] eqn:Hqs; [discriminate|].
  pose proof (lookup_lt_Some _ _ _ Hq) as Hlen.
  rewrite (proj2 (Nat.leb_gt _ _) Hlen). rewrite Hq.
  destruct (negb _); repeat split.
Qed.

Lemma commit_in_range apiKey net (before s : Chat) (c : Candidate.t) (q : Question.t) :
  activeCandidate s = Some c ->
  Candidate.interviewStatus c = in_progress ->
  Candidate.questions c !! Candidate.currentQuestionIndex c = Some q ->
  Candidate.currentQuestionIndex c < 6 ->
  timerDeps before s = false ->
  store (commit apiKey net before true s) = store s
  /\ requests (commit apiKey net before true s) = requests s
  /\ inFlight (commit apiKey net before true s) = inFlight s.
Proof.
  intros Hactive Hstatus Hq Hlt Hdeps. unfold commit, effects. rewrite Hdeps.
  set (s1 := if true && initCleanup s then setTimerRef None s else s).
  assert (store s1 = store s /\ requests s1 = requests s /\ inFlight s1 = inFlight s)
    as (E1 & E2 & E3) by (subst s1; destruct (true && initCleanup s); repeat split).
  clearbody s1.
  destruct (initEffect_in_range apiKey net s s1 c q Hactive Hstatus Hq Hlt)
    as (F1 & F2 & F3 & F4).
  destruct (initEffect apiKey net s s1) as [s2 again]. simpl in F1, F2, F3, F4.
  subst again. simpl. repeat split; congruence.
Qed.

Lemma defaultBatch_head (now : nat) :
  exists first rest, defaultBatch now = first :: rest /\ Question.timeLimit first = 20%Z.
Proof. eexists _, _. split; reflexivity. Qed.

(** C4. Without a credential ([checkApiKey] refuses the key, as it does the
    empty one), mounting the component on a session that has not started
    leaves one generation pending and issues no request; when it settles,
    still without a request, the session holds the six questions of the
    question bank, each with its text, difficulty and time limit, and is in
    progress at index 0 with 20 seconds left and not paused. *)
Theorem generation_without_credential
        apiKey net shuffle now isoNow timeoutAt (st : Slice.State) log (c : Candidate.t) :
  checkApiKey apiKey = false ->
  Slice.activeCandidate st = Some c ->
  Candidate.interviewStatus c = not_started ->
  Candidate.questions c = [] ->
  Candidate.currentQuestionIndex c = 0 ->
  let mounted := mount apiKey net st log in
  let started := step apiKey net shuffle now isoNow timeoutAt mounted (Settle 0) in
  inFlight mounted = [Generating c]
  /\ requests mounted = log
  /\ requests started = log
  /\ inFlight started = []
  /\ exists c', activeCandidate started = Some c'
       /\ map Question.item (Candidate.questions c') = defaultQuestions
       /\ Candidate.interviewStatus c' = in_progress
       /\ Candidate.currentQuestionIndex c' = 0
       /\ Candidate.timeLeft c' = 20%Z
       /\ Candidate.isPaused c' = false
       /\ Candidate.answers c' = Candidate.answers c.
Proof.
  intros Hkey Hactive Hstatus Hquestions Hindex mounted started.
  subst started mounted. rewrite (mount_fresh apiKey net st log c) by assumption.
  split; [reflexivity|]. split; [reflexivity|].
  set (before := mkChat _ _ _ _ _ _ _ _ _ _ _ _ _).
  set (c' := withQuestions c (defaultBatch now) 20).
  set (s2 := setLoading false
               (setTimeLeft 20
                  (dispatchUpdate c'
                     (setHasGeneratedQuestions false
                        (setGenerationTimeoutRef None (setInFlight [] before)))))).
  assert (step apiKey net shuffle now isoNow timeoutAt before (Settle 0)
          = commit apiKey net before true s2) as ->.
  { unfold step. change (inFlight before !! 0) with (Some (Generating c)). cbv iota.
    unfold settle, runNet. change (requests (setInFlight _ before)) with log.
    rewrite generateQuestionsBatch_without_key by assumption.
    destruct (defaultBatch_head now) as (first & rest & Hbatch & Hlimit).
    rewrite Hbatch, Hlimit. change (JS.orZ 20 (getTimeLimit 0)) with 20%Z.
    rewrite <- Hbatch. cbv zeta. fold c'.
    replace (replacesActive c' _) with true; [reflexivity|].
    unfold replacesActive, activeCandidate.
    change (store (setHasGeneratedQuestions _ _)) with st.
    rewrite Hactive. symmetry. apply String.eqb_refl. }
  assert (activeCandidate s2 = Some c') as Hactive'.
  { unfold activeCandidate.
    change (store s2) with (Slice.updateCandidate st (Payload.of_candidate c')).
    now apply (activeCandidate_update st c c'). }
  assert (timerDeps before s2 = false) as Hdeps.
  { unfold timerDeps. rewrite Hactive'.
    replace (activeCandidate before) with (Some c) by (symmetry; exact Hactive).
    simpl. rewrite Hindex. simpl. now destruct (Candidate.isPaused c). }
  destruct (defaultBatch_head now) as (first & rest & Hbatch & Hlimit).
  destruct (commit_in_range apiKey net before s2 c' first Hactive' eq_refl)
    as (E1 & E2 & E3);
    [unfold c'; cbn [Candidate.questions Candidate.currentQuestionIndex withQuestions];
     now rewrite Hbatch|simpl; lia|assumption|].
  split; [now rewrite E2|]. split; [now rewrite E3|].
  exists c'. unfold activeCandidate. rewrite E1. split; [exact Hactive'|].
  repeat split.
Qed.

Lemma generation_without_credential_witness :
  requests (step "" offline keepOrder 17 clock inTime
                 (mount "" offline twoCandidates []) (Settle 0)) = []
  /\ option_map Candidate.timeLeft
       (activeCandidate (step "" offline keepOrder 17 clock inTime
                              (mount "" offline twoCandidates []) (Settle 0)))
     = Some 20%Z.
Proof.
  destruct (generation_without_credential "" offline keepOrder 17 clock inTime
              twoCandidates [] ada eq_refl eq_refl eq_refl eq_refl eq_refl)
    as (_ & _ & Hrequests & _ & c' & Hactive & _ & _ & _ & Htime & _).
  split; [exact Hrequests|]. rewrite Hactive. simpl. now rewrite Htime.
Defined.

(** ** Automatic submission *)

(** When the interval brings the countdown to zero it calls the
    [submitAnswer] of the render in which the timer effect ran: the pending
    submission carries the text that render saw, whatever the text area
    holds by now. *)
Lemma tick_submits_captured_text
      apiKey net shuffle now isoNow timeoutAt (s : Chat) (cl : Closure) (q : Question.t) :
  timerRef s = Some cl ->
  (timeLeft s - 1 <= 0)%Z ->
  questionToAnswer (captured cl) = Some q ->
  inFlight (step apiKey net shuffle now isoNow timeoutAt s Tick)
  = inFlight s ++ [Submitting (captured cl) (capturedAnswer cl)].
Proof.
  intros Hcl Hzero Hq. unfold step. rewrite Hcl.
  rewrite (proj2 (Z.leb_le _ _) Hzero). unfold startSubmit. rewrite Hq. reflexivity.
Qed.

(** [submitAnswer] appends the text it was called with, or the sentinel when
    that text is empty, and moves to the next question. *)
Lemma submitAnswer_appends apiKey net isoNow (active : Candidate.t) (q : Question.t) text log :
  questionToAnswer active = Some q ->
  exists updated evaluation,
    fst (submitAnswer apiKey net isoNow active text log) = Some updated
    /\ Candidate.answers updated
       = Candidate.answers active
         ++ [ Answer.mk (Question.id q) (answerToSubmit text)
                        (Some (PerplexityAPI.score evaluation))
                        (Some (PerplexityAPI.feedback evaluation)) isoNow ]
    /\ Candidate.currentQuestionIndex updated = Candidate.currentQuestionIndex active + 1.
Proof.
  intros Hq. unfold submitAnswer. rewrite Hq. unfold bind, ret.
  destruct (evaluateAnswer _ _ _ _ _ _) as [evaluation log'].
  exists (submitted isoNow active q (answerToSubmit text) evaluation), evaluation.
  repeat split.
Qed.

Lemma answerToSubmit_empty : answerToSubmit "" = sentinel.
Proof. reflexivity. Qed.

(** C5, on the code. The countdown of the first question reaches 0 while the
    text area is empty, yet the answer appended is the text typed before the
    pause, not the sentinel: the interval started on resuming still calls the
    [submitAnswer] of that render. *)
Theorem auto_submit_uses_stale_text :
  answer atExpiry = ""
  /\ timeLeft atExpiry = 0%Z
  /\ option_map capturedAnswer
       (timerRef (run "" offline keepOrder 17 clock inTime
                      (mount "" offline twoCandidates [])
                      [ Settle 0; Typing "A closure keeps its scope."; TogglePause;
                        TogglePause; Typing "" ]))
     = Some "A closure keeps its scope."
  /\ answerTexts afterExpiry = Some ["A closure keeps its scope."]
  /\ answerTexts afterExpiry <> Some [sentinel]
  /\ option_map Candidate.currentQuestionIndex (activeCandidate afterExpiry) = Some 1.
Proof.
  repeat split; try (vm_compute; reflexivity). vm_compute. discriminate.
Qed.

(** The same stale closure, seen from the other side: a text typed after the
    timer was armed is not submitted when the time runs out. *)
Lemma auto_submit_drops_typed_text :
  answerTexts (run "" offline keepOrder 17 clock inTime
                   (mount "" offline twoCandidates []) typedAfterResume)
  = Some [sentinel].
Proof. vm_compute. reflexivity. Qed.

(** ** The guard on question generation *)

Lemma timerDeps_same (s : Chat) : timerDeps s s = false.
Proof.
  unfold timerDeps. rewrite Nat.eqb_refl. now destruct (isPaused s).
Qed.

Lemma timerEffect_flags (r s : Chat) :
  hasGeneratedQuestions (timerEffect r s) = hasGeneratedQuestions s
  /\ inFlight (timerEffect r s) = inFlight s
  /\ store (timerEffect r s) = store s.
Proof.
  unfold timerEffect.
  destruct (activeCandidate r); [|repeat split].
  destruct (_ || _ || _); [repeat split|].
  destruct (_ !! _); [|repeat split].
  destruct (timeLeft r <=? 0)%Z; repeat split.
Qed.

(** The initialisation effect on a session that awaits its questions: with
    the guard clear it starts a generation and sets the guard; with the guard
    set it starts nothing. *)
Lemma initEffect_awaiting apiKey net (r s : Chat) (c : Candidate.t) :
  activeCandidate r = Some c ->
  Candidate.interviewStatus c <> completed ->
  Candidate.questions c = [] ->
  Candidate.currentQuestionIndex c < 6 ->
  let s' := fst (initEffect apiKey net r s) in
  store s' = store s
  /\ snd (initEffect apiKey net r s) = false
  /\ hasGeneratedQuestions s' = true
  /\ (hasGeneratedQuestions s = false ->
      inFlight s' = inFlight s ++ [Generating c]
      /\ generationTimeoutRef s' = Some (loading r))
  /\ (hasGeneratedQuestions s = true -> inFlight s' = inFlight s).
Proof.
  intros Hactive Hstatus Hquestions Hlt. unfold initEffect. rewrite Hactive, Hquestions.
  rewrite (proj2 (Nat.ltb_lt _ _) Hlt).
  assert (InterviewStatus_eqb (Candidate.interviewStatus c) completed = false) as ->
      by (destruct (Candidate.interviewStatus c); try reflexivity; congruence).
  set (s0 := if _ && _ then snd (runNet (testConnection apiKey net) _) else _).
  assert (store s0 = store s /\ inFlight s0 = inFlight s
          /\ hasGeneratedQuestions s0 = hasGeneratedQuestions s) as (E1 & E2 & E3).
  { subst s0. destruct (_ && _); [|repeat split].
    destruct (runNet_frame (testConnection apiKey net) (setGenerationTimeoutRef None s))
      as (F1 & F2 & _ & _ & F5 & _).
    rewrite F1, F2, F5. repeat split. }
  clearbody s0. cbv zeta.
  destruct (hasGeneratedQuestions s0) eqn:Hflag; cbn [negb fst snd].
  - simpl (store _). simpl (hasGeneratedQuestions _). simpl (inFlight _).
    repeat split; intros; congruence.
  - simpl (store _). simpl (hasGeneratedQuestions _). simpl (inFlight _).
    simpl (generationTimeoutRef _).
    repeat split; intros; congruence.
Qed.

Lemma rerun_awaiting apiKey net shuffle now isoNow timeoutAt (s : Chat) (c : Candidate.t) :
  activeCandidate s = Some c ->
  Candidate.interviewStatus c <> completed ->
  Candidate.questions c = [] ->
  Candidate.currentQuestionIndex c < 6 ->
  let s' := step apiKey net shuffle now isoNow timeoutAt s EffectRerun in
  store s' = store s
  /\ hasGeneratedQuestions s' = true
  /\ (hasGeneratedQuestions s = false ->
      inFlight s' = inFlight s ++ [Generating c]
      /\ generationTimeoutRef s' = Some (loading s))
  /\ (hasGeneratedQuestions s = true -> inFlight s' = inFlight s).
Proof.
  intros Hactive Hstatus Hquestions Hlt. unfold step, commit, effects.
  rewrite timerDeps_same.
  set (s1 := if true && initCleanup s then setTimerRef None s else s).
  assert (store s1 = store s /\ inFlight s1 = inFlight s
          /\ hasGeneratedQuestions s1 = hasGeneratedQuestions s) as (E1 & E2 & E3)
      by (subst s1; destruct (true && initCleanup s); repeat split).
  clearbody s1.
  destruct (initEffect_awaiting apiKey net s s1 c Hactive Hstatus Hquestions Hlt)
    as (F1 & F2 & F3 & F4 & F5).
  destruct (initEffect apiKey net s s1) as [s2 again].
  cbn [fst snd] in *. subst again. cbv zeta. cbn [fst].
  split; [congruence|]. split; [assumption|]. split.
  - intros Hfalse. rewrite <- E2. apply F4. congruence.
  - intros Htrue. rewrite <- E2. apply F5. congruence.
Qed.

Lemma reruns_awaiting apiKey net shuffle now isoNow timeoutAt (c : Candidate.t) (n : nat) :
  forall s,
    activeCandidate s = Some c ->
    Candidate.interviewStatus c <> completed ->
    Candidate.questions c = [] ->
    Candidate.currentQuestionIndex c < 6 ->
    hasGeneratedQuestions s = true ->
    let s' := run apiKey net shuffle now isoNow timeoutAt s (repeat EffectRerun n) in
    store s' = store s /\ inFlight s' = inFlight s /\ hasGeneratedQuestions s' = true.
Proof.
  induction n as [|n IH]; intros s Hactive Hstatus Hquestions Hlt Hflag; [now repeat split|].
  cbn [repeat run fold_left].
  destruct (rerun_awaiting apiKey net shuffle now isoNow timeoutAt s c
              Hactive Hstatus Hquestions Hlt) as (E1 & E2 & _ & E4).
  specialize (E4 Hflag).
  destruct (IH (step apiKey net shuffle now isoNow timeoutAt s EffectRerun))
    as (G1 & G2 & G3); try assumption.
  - unfold activeCandidate. now rewrite E1.
  - unfold run in *. repeat split; congruence.
Qed.

Lemma initEffect_in_range_flag apiKey net (r s : Chat) (c : Candidate.t) (q : Question.t) :
  activeCandidate r = Some c ->
  Candidate.interviewStatus c = in_progress ->
  Candidate.questions c !! Candidate.currentQuestionIndex c = Some q ->
  Candidate.currentQuestionIndex c < 6 ->
  hasGeneratedQuestions (fst (initEffect apiKey net r s)) = hasGeneratedQuestions s.
Proof.
  intros Hactive Hstatus Hq Hlt. unfold initEffect. rewrite Hactive, Hstatus.
  rewrite andb_false_r. cbn [InterviewStatus_eqb].
  rewrite (proj2 (Nat.ltb_lt _ _) Hlt).
  destruct (Candidate.questions c) as [|q0 qs] eqn:Hqs; [discriminate|].
  pose proof (lookup_lt_Some _ _ _ Hq) as Hlen.
  rewrite (proj2 (Nat.leb_gt _ _) Hlen). rewrite Hq.
  now destruct (negb _).
Qed.

Lemma commit_in_range_flag apiKey net (before s : Chat) (c : Candidate.t) (q : Question.t) :
  activeCandidate s = Some c ->
  Candidate.interviewStatus c = in_progress ->
  Candidate.questions c !! Candidate.currentQuestionIndex c = Some q ->
  Candidate.currentQuestionIndex c < 6 ->
  forall dispatched,
    hasGeneratedQuestions (commit apiKey net before dispatched s) = hasGeneratedQuestions s.
Proof.
  intros Hactive Hstatus Hq Hlt dispatched. unfold commit, effects.
  set (s1 := if dispatched && initCleanup s then setTimerRef None s else s).
  assert (hasGeneratedQuestions s1 = hasGeneratedQuestions s) as E1
      by (subst s1; now destruct (dispatched && initCleanup s)).
  clearbody s1.
  set (s2 := if timerDeps before s then setTimerRef None s1 else s1).
  assert (hasGeneratedQuestions s2 = hasGeneratedQuestions s) as E2
      by (subst s2; now destruct (timerDeps before s)).
  clearbody s2.
  destruct dispatched.
  - pose proof (initEffect_in_range_flag apiKey net s s2 c q Hactive Hstatus Hq Hlt) as F.
    destruct (initEffect_in_range apiKey net s s2 c q Hactive Hstatus Hq Hlt)
      as (_ & _ & _ & Hagain).
    destruct (initEffect apiKey net s s2) as [s3 again]. cbn [fst snd] in *. subst again.
    destruct (timerDeps before s); cbn [fst].
    + destruct (timerEffect_flags s s3) as (T1 & _). congruence.
    + congruence.
  - destruct (timerDeps before s); cbn [fst snd].
    + destruct (timerEffect_flags s s2) as (T1 & _). congruence.
    + congruence.
Qed.

(** When the promise of [generateQuestionsBatch] is fulfilled for the active
    candidate, the guard is clear afterwards. *)
Lemma settle_releases_guard
      apiKey net shuffle now isoNow timeoutAt (s : Chat) (i : nat) (c active : Candidate.t) :
  inFlight s !! i = Some (Generating c) ->
  activeCandidate s = Some active ->
  Candidate.id c = Candidate.id active ->
  hasGeneratedQuestions (step apiKey net shuffle now isoNow timeoutAt s (Settle i)) = false.
Proof.
  intros Hi Hactive Hid. unfold step. rewrite Hi. unfold settle.
  pose proof (runNet_frame (generateQuestionsBatch apiKey net shuffle now timeoutAt c)
                (setInFlight (delete i (inFlight s)) s)) as (F1 & _ & _ & _ & _ & _ & F7).
  destruct (runNet _ _) as [batch s1]. cbn [fst snd] in F1, F7.
  destruct batch as [|first rest] eqn:Hbatch; [reflexivity|].
  set (limit := JS.orZ (Question.timeLimit first) (getTimeLimit 0)).
  set (c' := withQuestions c (first :: rest) limit).
  cbv zeta. fold limit. fold c'.
  rewrite (commit_in_range_flag apiKey net s _ (Slice.merge active (Payload.of_candidate c'))
             first);
    try reflexivity; [|simpl; lia].
  unfold activeCandidate.
  change (store (setLoading false _))
    with (Slice.updateCandidate (store s1) (Payload.of_candidate c')).
  rewrite F1. change (store (setInFlight _ s)) with (store s).
  now apply (activeCandidate_stored (store s) active c').
Qed.

Lemma reject_releases_guard
      apiKey net shuffle now isoNow timeoutAt (s : Chat) (i : nat) (c : Candidate.t) :
  inFlight s !! i = Some (Generating c) ->
  hasGeneratedQuestions (step apiKey net shuffle now isoNow timeoutAt s (Reject i)) = false.
Proof. intros Hi. unfold step. rewrite Hi. reflexivity. Qed.

Lemma outstanding_after_start (s s' : Chat) (c : Candidate.t) :
  inFlight s' = inFlight s ++ [Generating c] ->
  outstandingGenerations s' = outstandingGenerations s + 1.
Proof.
  intros E. unfold outstandingGenerations. rewrite E, filter_app, length_app.
  reflexivity.
Qed.

(** What the guard achieves. On a session that awaits its questions, with
    the guard clear, any number of consecutive runs of the initialisation
    effect start exactly one generation and leave the guard set; the guard
    is clear again once that generation is fulfilled for the active
    candidate, and once it is rejected, so that a later run can start
    another. *)
Lemma generation_guard apiKey net shuffle now isoNow timeoutAt :
  (forall (s : Chat) (c : Candidate.t) (n : nat),
      activeCandidate s = Some c ->
      Candidate.interviewStatus c <> completed ->
      Candidate.questions c = [] ->
      Candidate.currentQuestionIndex c < 6 ->
      hasGeneratedQuestions s = false ->
      let s' := run apiKey net shuffle now isoNow timeoutAt s (repeat EffectRerun (S n)) in
      inFlight s' = inFlight s ++ [Generating c]
      /\ outstandingGenerations s' = outstandingGenerations s + 1
      /\ hasGeneratedQuestions s' = true)
  /\ (forall (s : Chat) (i : nat) (c active : Candidate.t),
         inFlight s !! i = Some (Generating c) ->
         activeCandidate s = Some active ->
         Candidate.id c = Candidate.id active ->
         hasGeneratedQuestions (step apiKey net shuffle now isoNow timeoutAt s (Settle i))
         = false)
  /\ (forall (s : Chat) (i : nat) (c : Candidate.t),
         inFlight s !! i = Some (Generating c) ->
         hasGeneratedQuestions (step apiKey net shuffle now isoNow timeoutAt s (Reject i))
         = false).
Proof.
  split; [|split].
  - intros s c n Hactive Hstatus Hquestions Hlt Hflag. cbn [repeat run fold_left].
    destruct (rerun_awaiting apiKey net shuffle now isoNow timeoutAt s c
                Hactive Hstatus Hquestions Hlt) as (E1 & E2 & E3 & _).
    destruct (E3 Hflag) as [E4 _].
    destruct (reruns_awaiting apiKey net shuffle now isoNow timeoutAt c n
                (step apiKey net shuffle now isoNow timeoutAt s EffectRerun))
      as (G1 & G2 & G3); try assumption.
    { unfold activeCandidate. now rewrite E1. }
    unfold run in *.
    assert (inFlight (fold_left (step apiKey net shuffle now isoNow timeoutAt)
                                (repeat EffectRerun n)
                                (step apiKey net shuffle now isoNow timeoutAt s EffectRerun))
            = inFlight s ++ [Generating c]) as Hin by congruence.
    split; [exact Hin|]. split; [|exact G3].
    now apply (outstanding_after_start s _ c).
  - apply settle_releases_guard.
  - apply reject_releases_guard.
Qed.

(** Mounting on a session that awaits its questions starts a generation,
    whatever the key and the network; the effect on [currentCandidateId],
    which runs last, clears the guard that the initialisation effect has
    just set, and the 35-second timer with it. *)
Lemma mount_awaiting apiKey net (st : Slice.State) log (c : Candidate.t) :
  Slice.activeCandidate st = Some c ->
  Candidate.interviewStatus c = not_started ->
  Candidate.questions c = [] ->
  Candidate.currentQuestionIndex c = 0 ->
  let mounted := mount apiKey net st log in
  activeCandidate mounted = Some c
  /\ inFlight mounted = [Generating c]
  /\ hasGeneratedQuestions mounted = false
  /\ generationTimeoutRef mounted = None.
Proof.
  intros Hactive Hstatus Hquestions Hindex mounted. subst mounted.
  unfold mount, effects.
  assert (activeCandidate (firstRender st log) = Some c) as Hr by exact Hactive.
  cbn [andb]. simpl (initCleanup _). cbv iota.
  assert (Candidate.interviewStatus c <> completed) as Hopen by (rewrite Hstatus; discriminate).
  destruct (initEffect_awaiting apiKey net (firstRender st log)
              (setTimerRef None (firstRender st log)) c Hr Hopen Hquestions
              ltac:(rewrite Hindex; lia))
    as (E1 & E2 & _ & E4 & _).
  destruct (E4 eq_refl) as [E5 _].
  destruct (initEffect apiKey net _ _) as [s1 again]. cbn [fst snd] in E1, E2, E5.
  subst again.
  destruct (timerEffect_flags (firstRender st log) s1) as (_ & T2 & T3).
  unfold activeCandidate. cbn [fst snd].
  change (store (flagsEffect ?x)) with (store x).
  change (inFlight (flagsEffect ?x)) with (inFlight x).
  rewrite T2, T3, E1, E5. repeat split. exact Hactive.
Qed.

(** C8. The component mounts on a session that awaits its questions: the
    initialisation effect starts a generation and sets the guard, and the
    effect on [currentCandidateId] clears the guard again while that
    generation is pending. The next run of the initialisation effect then
    starts a second generation for the same session, and the two batches of
    requests are both issued, for every key and network. Only then does the
    guard hold: further runs start nothing. *)
Theorem guard_cleared_on_mount apiKey net shuffle now isoNow timeoutAt :
  (forall (st : Slice.State) log (c : Candidate.t) (n : nat),
      Slice.activeCandidate st = Some c ->
      Candidate.interviewStatus c = not_started ->
      Candidate.questions c = [] ->
      Candidate.currentQuestionIndex c = 0 ->
      let mounted := mount apiKey net st log in
      inFlight mounted = [Generating c]
      /\ hasGeneratedQuestions mounted = false
      /\ generationTimeoutRef mounted = None
      /\ inFlight (run apiKey net shuffle now isoNow timeoutAt mounted
                       (repeat EffectRerun (S n)))
         = [Generating c; Generating c])
  /\ (let mounted := mount goodKey terse twoCandidates [] in
      length (filter (fun r => asksQuestions r)
                (requests (run goodKey terse keepOrder 17 clock inTime mounted [Settle 0])))
      = 3
      /\ length (filter (fun r => asksQuestions r)
                   (requests (run goodKey terse keepOrder 17 clock inTime mounted
                                  [EffectRerun; Settle 0; Settle 0])))
         = 6).
Proof.
  split; [|split; vm_compute; reflexivity].
  intros st log c n Hactive Hstatus Hquestions Hindex mounted.
  destruct (mount_awaiting apiKey net st log c Hactive Hstatus Hquestions Hindex)
    as (M1 & M2 & M3 & M4).
  fold mounted in M1, M2, M3, M4.
  split; [exact M2|]. split; [exact M3|]. split; [exact M4|].
  destruct (proj1 (generation_guard apiKey net shuffle now isoNow timeoutAt) mounted c n M1)
    as (G1 & _); try assumption.
  - rewrite Hstatus. discriminate.
  - rewrite Hindex. lia.
  - rewrite G1, M2. reflexivity.
Qed.

Lemma guard_cleared_on_mount_witness :
  inFlight (mount goodKey terse twoCandidates []) = [Generating ada]
  /\ outstandingGenerations
       (run goodKey terse keepOrder 17 clock inTime (mount goodKey terse twoCandidates [])
            [EffectRerun; EffectRerun; EffectRerun])
     = 2.
Proof.
  destruct (proj1 (guard_cleared_on_mount goodKey terse keepOrder 17 clock inTime)
                  twoCandidates [] ada 2 eq_refl eq_refl eq_refl eq_refl)
    as (M2 & _ & _ & Hboth).
  split; [exact M2|].
  unfold outstandingGenerations.
  change [EffectRerun; EffectRerun; EffectRerun] with (repeat EffectRerun 3).
  now rewrite Hboth.
Defined.

(** ** Completed sessions *)

Lemma mainVisible_completed (s : Chat) (c : Candidate.t) :
  activeCandidate s = Some c -> Candidate.interviewStatus c = completed ->
  mainVisible s = false.
Proof. intros Hactive Hstatus. unfold mainVisible. now rewrite Hactive, Hstatus. Qed.

Lemma initEffect_completed apiKey net (r s : Chat) (c : Candidate.t) :
  activeCandidate r = Some c -> Candidate.interviewStatus c = completed ->
  initEffect apiKey net r s = (setInitCleanup false (setGenerationTimeoutRef None s), false).
Proof.
  intros Hactive Hstatus. unfold initEffect. rewrite Hactive, Hstatus.
  now rewrite andb_false_r.
Qed.

Lemma timerEffect_completed (r s : Chat) (c : Candidate.t) :
  activeCandidate r = Some c -> Candidate.interviewStatus c = completed ->
  timerEffect r s = setTimerRef None s.
Proof.
  intros Hactive Hstatus. unfold timerEffect. rewrite Hactive, Hstatus.
  cbn [InterviewStatus_eqb]. now rewrite orb_true_r.
Qed.

Lemma summariseWith_deterministic net (c c' : Candidate.t) position (ms : list string) :
  (forall i j r, net i r = net j r) ->
  Candidate.name c' = Candidate.name c ->
  Candidate.answers c' = Candidate.answers c ->
  Candidate.questions c' = Candidate.questions c ->
  forall log log',
    fst (summariseWith net c' position ms log') = fst (summariseWith net c position ms log).
Proof.
  intros Hnet Hname Hanswers Hquestions.
  induction ms as [|model rest IH]; intros log log'; simpl.
  - now rewrite Hname, Hanswers.
  - unfold bind, post. rewrite Hname, Hanswers, Hquestions.
    rewrite (Hnet (length log') (length log)).
    destruct (summaryOf _); [reflexivity|apply IH].
Qed.

(** What protects a completed session. A further run of the initialisation
    effect, mounting, typing and the two buttons leave the store, the pending
    promises and the request log as they are. And [finishInterview] itself,
    applied again to the session it has completed while the provider answers
    equal requests equally, yields the same score and the same summary. The
    events left out, a pending promise that settles, are those of
    [stale_submission_reopens_a_completed_session]. *)
Lemma completed_is_final apiKey net shuffle now isoNow timeoutAt :
  (forall (s : Chat) (c : Candidate.t) (e : Event),
      activeCandidate s = Some c ->
      Candidate.interviewStatus c = completed ->
      (e = EffectRerun \/ e = TogglePause \/ e = ClickSubmit \/ exists text, e = Typing text) ->
      let s' := step apiKey net shuffle now isoNow timeoutAt s e in
      store s' = store s /\ inFlight s' = inFlight s /\ requests s' = requests s
      /\ activeCandidate s' = Some c)
  /\ (forall (st : Slice.State) log (c : Candidate.t),
         Slice.activeCandidate st = Some c ->
         Candidate.interviewStatus c = completed ->
         store (mount apiKey net st log) = st
         /\ inFlight (mount apiKey net st log) = []
         /\ requests (mount apiKey net st log) = log)
  /\ (forall (c : Candidate.t) log log',
         (forall i j r, net i r = net j r) ->
         let once := fst (finishInterview apiKey net isoNow c log) in
         let twice := fst (finishInterview apiKey net isoNow once log') in
         Candidate.interviewStatus once = completed
         /\ Candidate.score twice = Candidate.score once
         /\ Candidate.summary twice = Candidate.summary once).
Proof.
  split; [|split].
  - intros s c e Hactive Hstatus He s'. subst s'.
    pose proof (mainVisible_completed s c Hactive Hstatus) as Hhidden.
    destruct He as [->|[->|[->|[text ->]]]]; unfold step.
    + unfold commit, effects. rewrite timerDeps_same.
      rewrite (initEffect_completed apiKey net s _ c Hactive Hstatus).
      cbn [fst snd]. unfold activeCandidate.
      destruct (true && initCleanup s); repeat split; exact Hactive.
    + rewrite Hactive, Hhidden. now repeat split.
    + rewrite Hactive, Hhidden. now repeat split.
    + rewrite Hhidden. now repeat split.
  - intros st log c Hactive Hstatus. unfold mount, effects.
    assert (activeCandidate (firstRender st log) = Some c) as Hr by exact Hactive.
    rewrite (initEffect_completed apiKey net _ _ c Hr Hstatus).
    rewrite (timerEffect_completed _ _ c Hr Hstatus).
    repeat split.
  - intros c log log' Hnet once twice. subst twice once.
    rewrite !finishInterview_unfold. cbn [Candidate.interviewStatus Candidate.score
      Candidate.summary Candidate.answers Candidate.skills withCompletion].
    split; [reflexivity|]. split; [reflexivity|].
    unfold generateSummary. destruct (checkApiKey apiKey); cbn [negb]; [|reflexivity].
    now apply summariseWith_deterministic.
Qed.

Lemma completed_is_final_example :
  store (step goodKey offline keepOrder 17 clock inTime
              (mount goodKey offline completedStore []) EffectRerun)
  = completedStore
  /\ Candidate.summary (fst (finishInterview goodKey offline clock adaCompleted []))
     = Candidate.summary adaCompleted.
Proof.
  split.
  - apply (proj1 (completed_is_final goodKey offline keepOrder 17 clock inTime)
                 (mount goodKey offline completedStore []) adaCompleted EffectRerun);
      [reflexivity|reflexivity|now left].
  - apply (proj2 (proj2 (completed_is_final goodKey offline keepOrder 17 clock inTime))
                 adaAnswered [] []).
    reflexivity.
Qed.

(** C9. A completed session does not stay completed. The component is
    mounted on a session at its sixth question with two seconds left; the
    candidate types an answer and clicks Submit, and while that evaluation is
    pending the countdown reaches zero and submits again, through the
    [submitAnswer] the interval captured: an empty text and the candidate
    with five answers. The first submission settles, the interview is
    finished with 70; then the second one settles and writes its candidate
    over the completed one: the status is in progress again, the score
    [null], the summary empty and the sixth answer replaced. The
    initialisation effect finds an unfinished session at index 6 and runs
    [finishInterview] a second time: the score becomes 63 and the summary
    another, and ten more requests are sent. *)
Theorem stale_submission_reopens_a_completed_session :
  let mounted := mount goodKey offline lastSecondsStore [] in
  let go := run goodKey offline keepOrder 17 clock inTime mounted in
  let session (s : Chat) :=
    option_map (fun c => (Candidate.interviewStatus c, Candidate.score c,
                          option_map Answer.text (last (Candidate.answers c)),
                          String.eqb (Candidate.summary c) EmptyString))
               (activeCandidate s) in
  let pending (s : Chat) :=
    map (fun task => match task with
                     | Submitting c text =>
                         (length (Candidate.answers c), Candidate.interviewStatus c, text)
                     | Generating c | Finishing c =>
                         (length (Candidate.answers c), Candidate.interviewStatus c, "-")
                     end) (inFlight s) in
  let raced := [Typing longAnswer; ClickSubmit; Tick; Tick] in
  let finished := go (raced ++ [Settle 0; Settle 1]) in
  let reopened := go (raced ++ [Settle 0; Settle 1; Settle 0]) in
  let again := go (raced ++ [Settle 0; Settle 1; Settle 0; Settle 0]) in
  session mounted = Some (in_progress, None, Some "An answer.", true)
  /\ session finished = Some (completed, Some 70%Z, Some longAnswer, false)
  /\ pending finished = [(5, in_progress, "")]
  /\ session reopened
     = Some (in_progress, None, Some "No answer provided (time ran out)", true)
  /\ session again
     = Some (completed, Some 63%Z, Some "No answer provided (time ran out)", false)
  /\ pending again = []
  /\ String.eqb (from_option Candidate.summary EmptyString (activeCandidate again))
                (from_option Candidate.summary EmptyString (activeCandidate finished))
     = false
  /\ length (requests again) = length (requests finished) + 10.
Proof. vm_compute. repeat split. Qed.

(** * Further properties of the code *)

From Stdlib Require Import DecimalNat DecimalFacts.
From stdpp Require Import sorting.

(** ** The store: further reducers *)

Lemma findIndex_insert_first {A} (f : A -> bool) (xs : list A) (i : nat) (y : A) :
  JS.findIndex f xs = Some i -> f y = true -> JS.findIndex f (<[i := y]> xs) = Some i.
Proof.
  revert i. induction xs as [|x r IH]; intros i; simpl; [discriminate|].
  destruct (f x) eqn:Hx.
  - intros [= <-] Hy. simpl. now rewrite Hy.
  - destruct (JS.findIndex f r) as [k|] eqn:Hk; simpl; [|discriminate].
    intros [= <-] Hy. simpl. rewrite Hx. now rewrite (IH k eq_refl Hy).
Qed.

Lemma map_insert_same {A B} (g : A -> B) (xs : list A) (i : nat) (x y : A) :
  xs !! i = Some x -> g y = g x -> map g (<[i := y]> xs) = map g xs.
Proof.
  revert i. induction xs as [|z r IH]; intros [|i]; simpl; try discriminate.
  - intros [= ->] ->. reflexivity.
  - intros Hx Hg. f_equal. now apply IH.
Qed.

Lemma findIndex_lookup {A} (f : A -> bool) (xs : list A) (i : nat) :
  JS.findIndex f xs = Some i -> exists x, xs !! i = Some x /\ f x = true.
Proof.
  intros H. apply findIndex_Some in H as (x & Hx & Hf & _). now exists x.
Qed.

Lemma merge_id (current : Candidate.t) (payload : Payload.t) :
  Slice.idMatches (Payload.id payload) current = true ->
  Candidate.id (Slice.merge current payload) = Candidate.id current.
Proof.
  intros H. apply idMatches_spec in H. simpl. now rewrite H.
Qed.

Lemma merge_merge (current : Candidate.t) (payload : Payload.t) :
  Slice.merge (Slice.merge current payload) payload = Slice.merge current payload.
Proof.
  unfold Slice.merge. simpl.
  f_equal;
    match goal with
    | |- default (default _ ?o) ?o = _ => now destruct o
    | |- match ?o with _ => _ end = _ => now destruct o
    end.
Qed.

(** X1. [resetInterview] with an id that no stored candidate carries leaves the
    store as it is. With an id that is stored, the first entry carrying it keeps
    its id, name, email, phone, resume data and creation date and is otherwise
    as the form creates a candidate: not started, without answers and questions,
    at index 0 with no time left, not paused, without score and summary; its
    completion date is [null], a field the form leaves out. Every other entry,
    the length of the list and the three remaining fields of the store are
    unchanged. Resetting twice is resetting once. *)
Theorem resetInterview_frame (state : Slice.State) (candidateId : string) :
  ((forall c, c ∈ Slice.candidates state -> Candidate.id c <> candidateId) ->
   Slice.resetInterview state candidateId = state)
  /\
  (forall index candidate,
      Slice.candidates state !! index = Some candidate ->
      Candidate.id candidate = candidateId ->
      (forall j c, j < index -> Slice.candidates state !! j = Some c ->
                   Candidate.id c <> candidateId) ->
      let state' := Slice.resetInterview state candidateId in
      Slice.candidates state' !! index
      = Some (Candidate.mk candidateId (Candidate.name candidate) (Candidate.email candidate)
                (Candidate.phone candidate) (Candidate.skills candidate)
                not_started [] [] 0 0%Z false None "" (Candidate.createdAt candidate)
                (Some None))
      /\ (forall j, j <> index ->
                    Slice.candidates state' !! j = Slice.candidates state !! j)
      /\ length (Slice.candidates state') = length (Slice.candidates state)
      /\ Slice.currentCandidateId state' = Slice.currentCandidateId state
      /\ Slice.activeTab state' = Slice.activeTab state
      /\ Slice.viewMode state' = Slice.viewMode state)
  /\ Slice.resetInterview (Slice.resetInterview state candidateId) candidateId
     = Slice.resetInterview state candidateId.
Proof.
  split; [|split].
  - intros Hno. unfold Slice.resetInterview.
    replace (JS.findIndex _ _) with (@None nat); [reflexivity|].
    symmetry. apply findIndex_None. intros c Hc. apply idMatches_false.
    intros [= E]. now apply (Hno c).
  - intros index candidate Hcur Hid Hfirst state'. subst state'.
    unfold Slice.resetInterview.
    assert (JS.findIndex (Slice.idMatches (Some candidateId)) (Slice.candidates state)
            = Some index) as ->.
    { apply findIndex_Some. exists candidate. repeat split; [assumption| |].
      - apply idMatches_spec. now rewrite Hid.
      - intros j c Hj Hc. apply idMatches_false. intros [= E]. now apply (Hfirst j c). }
    rewrite Hcur. simpl. repeat split.
    + rewrite list_lookup_insert_eq by now apply lookup_lt_Some in Hcur.
      unfold Slice.resetCandidate. now rewrite Hid.
    + intros j Hj. now apply list_lookup_insert_ne.
    + apply length_insert.
  - unfold Slice.resetInterview at 2 3.
    destruct (JS.findIndex _ (Slice.candidates state)) as [i|] eqn:Hi.
    2: { unfold Slice.resetInterview. now rewrite Hi. }
    destruct (findIndex_lookup _ _ _ Hi) as (c & Hc & Hf). rewrite Hc.
    unfold Slice.resetInterview. simpl.
    rewrite (findIndex_insert_first _ _ i (Slice.resetCandidate c) Hi)
      by (apply idMatches_spec in Hf; apply idMatches_spec; exact Hf).
    rewrite list_lookup_insert_eq by now apply lookup_lt_Some in Hc.
    now rewrite list_insert_insert_eq.
Qed.

Lemma resetInterview_frame_witness :
  Slice.resetInterview twoCandidates "42" = twoCandidates
  /\ Slice.candidates (Slice.resetInterview completedStore "1730000000000") !! 0
     = Some (Candidate.mk "1730000000000" "Ada" "ada@example.org" "5550100" None
                          not_started [] [] 0 0%Z false None "" "2024-10-27T00:00:00.000Z"
                          (Some None))
  /\ Slice.candidates (Slice.resetInterview completedStore "1730000000000") !! 1 = Some grace.
Proof.
  split; [|split].
  - apply (proj1 (resetInterview_frame twoCandidates "42")).
    intros c Hc. apply elem_of_cons in Hc as [->|Hc]; [discriminate|].
    apply elem_of_cons in Hc as [->|Hc]; [discriminate|inversion Hc].
  - apply (proj1 (proj2 (resetInterview_frame completedStore "1730000000000"))
                 0 adaCompleted eq_refl eq_refl).
    intros j c Hj. inversion Hj.
  - refine (proj1 (proj2 (proj1 (proj2 (resetInterview_frame completedStore "1730000000000"))
                                 0 adaCompleted eq_refl eq_refl _)) 1 _);
      [intros j c Hj; inversion Hj|discriminate].
Defined.

(** X2. No reducer changes the id of a stored candidate or the order of the
    list: [updateCandidate] and [resetInterview] leave the list of ids as it is,
    and [addCandidate] appends the id of the new candidate at its end. *)
Theorem reducers_keep_the_ids (state : Slice.State) :
  (forall payload,
      map Candidate.id (Slice.candidates (Slice.updateCandidate state payload))
      = map Candidate.id (Slice.candidates state))
  /\ (forall candidateId,
         map Candidate.id (Slice.candidates (Slice.resetInterview state candidateId))
         = map Candidate.id (Slice.candidates state))
  /\ (forall c,
         map Candidate.id (Slice.candidates (Slice.addCandidate state c))
         = map Candidate.id (Slice.candidates state) ++ [Candidate.id c]).
Proof.
  split; [|split].
  - intros payload. unfold Slice.updateCandidate.
    destruct (JS.findIndex _ _) as [i|] eqn:Hi; [|reflexivity].
    destruct (findIndex_lookup _ _ _ Hi) as (c & Hc & Hf). rewrite Hc. simpl.
    apply (map_insert_same _ _ _ c); [assumption|]. now apply merge_id.
  - intros candidateId. unfold Slice.resetInterview.
    destruct (JS.findIndex _ _) as [i|] eqn:Hi; [|reflexivity].
    destruct (findIndex_lookup _ _ _ Hi) as (c & Hc & Hf). rewrite Hc. simpl.
    now apply (map_insert_same _ _ _ c).
  - intros c. simpl. now rewrite map_app.
Qed.

(** X3. Dispatching the same update twice gives the store of dispatching it
    once; of two updates that each carry a candidate under the same id, the
    later one alone decides the store, when it carries a completion date or the
    earlier one carries none: [completedAt] is the one field that an object
    spread from a stored candidate can lack, and the reducer keeps the stored
    value of a field the update lacks. *)
Theorem updateCandidate_absorbs (state : Slice.State) :
  (forall payload,
      Slice.updateCandidate (Slice.updateCandidate state payload) payload
      = Slice.updateCandidate state payload)
  /\ (forall c1 c2 : Candidate.t,
         Candidate.id c1 = Candidate.id c2 ->
         Candidate.completedAt c2 <> None \/ Candidate.completedAt c1 = None ->
         Slice.updateCandidate (Slice.updateCandidate state (Payload.of_candidate c1))
                               (Payload.of_candidate c2)
         = Slice.updateCandidate state (Payload.of_candidate c2)).
Proof.
  split.
  - intros payload. unfold Slice.updateCandidate at 2 3.
    destruct (JS.findIndex _ (Slice.candidates state)) as [i|] eqn:Hi.
    2: { unfold Slice.updateCandidate. now rewrite Hi. }
    destruct (findIndex_lookup _ _ _ Hi) as (c & Hc & Hf). rewrite Hc.
    unfold Slice.updateCandidate. simpl.
    rewrite (findIndex_insert_first _ _ i (Slice.merge c payload) Hi)
      by (apply idMatches_spec; rewrite merge_id by assumption; now apply idMatches_spec).
    rewrite list_lookup_insert_eq by now apply lookup_lt_Some in Hc.
    now rewrite merge_merge, list_insert_insert_eq.
  - intros c1 c2 Hid Hwhole. unfold Slice.updateCandidate at 2 3.
    change (Payload.id (Payload.of_candidate c1)) with (Some (Candidate.id c1)).
    change (Payload.id (Payload.of_candidate c2)) with (Some (Candidate.id c2)).
    rewrite Hid.
    destruct (JS.findIndex _ (Slice.candidates state)) as [i|] eqn:Hi.
    2: { unfold Slice.updateCandidate.
         change (Payload.id (Payload.of_candidate c2)) with (Some (Candidate.id c2)).
         now rewrite Hi. }
    destruct (findIndex_lookup _ _ _ Hi) as (c & Hc & Hf). rewrite Hc.
    unfold Slice.updateCandidate.
    change (Payload.id (Payload.of_candidate c2)) with (Some (Candidate.id c2)). simpl.
    rewrite (findIndex_insert_first _ _ i (Slice.merge c (Payload.of_candidate c1)) Hi)
      by (apply idMatches_spec; simpl; now rewrite Hid).
    rewrite list_lookup_insert_eq by now apply lookup_lt_Some in Hc.
    rewrite list_insert_insert_eq. do 2 f_equal.
    unfold Slice.merge, Payload.of_candidate. simpl. f_equal.
    destruct Hwhole as [Hwhole| ->]; [|reflexivity].
    destruct (Candidate.completedAt c2); [reflexivity|contradiction].
Qed.

(** ** The adapter: keys, the order of the models, ranges *)

(** X4. [isApiKeyAvailable] accepts exactly the keys that [checkApiKey] accepts
    and that are at least 30 characters long once trimmed; the placeholder key
    and the other refusals of [isApiKeyAvailable] are all refusals of
    [checkApiKey] too. *)
Theorem isApiKeyAvailable_spec (apiKey : string) :
  isApiKeyAvailable apiKey
  = checkApiKey apiKey && (30 <=? String.length (JS.trim apiKey)).
Proof.
  unfold isApiKeyAvailable, checkApiKey.
  destruct (isEmpty apiKey); [reflexivity|].
  destruct (String.eqb apiKey "undefined"); [reflexivity|].
  destruct (isEmpty (JS.trim apiKey)); [reflexivity|]. cbn [orb].
  destruct (String.eqb (JS.trim apiKey) "your_perplexity_api_key_here") eqn:E.
  - apply String.eqb_eq in E. rewrite E. reflexivity.
  - destruct (JS.startsWith (JS.trim apiKey) "pplx-"); cbn [negb andb]; [|reflexivity].
    rewrite Nat.ltb_antisym. now destruct (30 <=? _).
Qed.

Lemma testModels_first_usable net (ms : list string) :
  forall log content model,
    fst (testModels net ms log) = Connected content model
    <-> exists k, ms !! k = Some model
          /\ usable (net (length log + k) (mkRequest model Hello)) = Some content
          /\ forall j m, j < k -> ms !! j = Some m ->
                         usable (net (length log + j) (mkRequest m Hello)) = None.
Proof.
  induction ms as [|model0 rest IH]; intros log content model; simpl.
  - split; [discriminate|]. intros (k & Hk & _). discriminate.
  - unfold bind, post.
    destruct (usable (net (length log) (mkRequest model0 Hello))) as [c0|] eqn:H0.
    + simpl. split.
      * intros [= <- <-]. exists 0. rewrite Nat.add_0_r.
        repeat split; [assumption|]. intros j m Hj. lia.
      * intros (k & Hk & Hu & Hfirst). destruct k as [|k].
        -- injection Hk as <-. rewrite Nat.add_0_r in Hu. congruence.
        -- specialize (Hfirst 0 model0 ltac:(lia) eq_refl).
           rewrite Nat.add_0_r in Hfirst. congruence.
    + rewrite IH. rewrite length_app. simpl. split.
      * intros (k & Hk & Hu & Hfirst). exists (S k).
        replace (length log + S k) with (length log + 1 + k) by lia.
        repeat split; [assumption..|].
        intros [|j] m Hj Hm.
        -- injection Hm as <-. now rewrite Nat.add_0_r.
        -- replace (length log + S j) with (length log + 1 + j) by lia.
           apply Hfirst; [lia|assumption].
      * intros (k & Hk & Hu & Hfirst). destruct k as [|k].
        -- injection Hk as <-. rewrite Nat.add_0_r in Hu. congruence.
        -- exists k. replace (length log + 1 + k) with (length log + S k) by lia.
           repeat split; [assumption..|].
           intros j m Hj Hm. replace (length log + 1 + j) with (length log + S j) by lia.
           apply (Hfirst (S j)); [lia|assumption].
Qed.

Lemma testModels_unreachable net (ms : list string) :
  forall log,
    success (fst (testModels net ms log)) = false
    <-> forall k m, ms !! k = Some m ->
                    usable (net (length log + k) (mkRequest m Hello)) = None.
Proof.
  induction ms as [|model0 rest IH]; intros log; simpl.
  - split; [|reflexivity]. intros _ k m Hk. discriminate.
  - unfold bind, post.
    destruct (usable (net (length log) (mkRequest model0 Hello))) as [c0|] eqn:H0.
    + simpl. split; [discriminate|]. intros Hnone.
      specialize (Hnone 0 model0 eq_refl). rewrite Nat.add_0_r in Hnone. congruence.
    + rewrite IH. rewrite length_app. simpl. split.
      * intros Hnone [|k] m Hk.
        -- injection Hk as <-. now rewrite Nat.add_0_r.
        -- replace (length log + S k) with (length log + 1 + k) by lia. now apply Hnone.
      * intros Hnone k m Hk. replace (length log + 1 + k) with (length log + S k) by lia.
        now apply (Hnone (S k)).
Qed.

(** X5. With a key that [checkApiKey] accepts, [testConnection] reports a
    connection with a content and a model exactly when that model is the first
    of the five, in their order, whose request is answered with a usable reply,
    the content being that reply; it reports a failure exactly when the request
    to every one of the five models goes without a usable reply. *)
Theorem testConnection_first_usable apiKey net log :
  checkApiKey apiKey = true ->
  (forall content model,
      fst (testConnection apiKey net log) = Connected content model
      <-> exists k, models !! k = Some model
            /\ usable (net (length log + k) (mkRequest model Hello)) = Some content
            /\ forall j m, j < k -> models !! j = Some m ->
                           usable (net (length log + j) (mkRequest m Hello)) = None)
  /\ (success (fst (testConnection apiKey net log)) = false
      <-> forall k m, models !! k = Some m ->
                      usable (net (length log + k) (mkRequest m Hello)) = None).
Proof.
  intros Hkey. unfold testConnection. rewrite Hkey. cbn [negb].
  split; [apply testModels_first_usable|apply testModels_unreachable].
Qed.

Lemma testConnection_first_usable_witness :
  checkApiKey goodKey = true
  /\ fst (testConnection goodKey terse []) = Connected "Hello!" "llama-3.1-sonar-small-128k-online"
  /\ success (fst (testConnection goodKey offline [])) = false.
Proof.
  split; [reflexivity|]. split.
  - apply (proj1 (testConnection_first_usable goodKey terse [] eq_refl)).
    exists 0. split; [reflexivity|]. split; [reflexivity|]. intros j m Hj. inversion Hj.
  - apply (proj2 (testConnection_first_usable goodKey offline [] eq_refl)).
    intros k m _. reflexivity.
Defined.

Lemma testModels_log net (ms : list string) :
  forall log, exists k, k <= length ms
    /\ snd (testModels net ms log) = log ++ map (fun m => mkRequest m Hello) (take k ms).
Proof.
  induction ms as [|model rest IH]; intros log; simpl.
  - exists 0. split; [lia|]. now rewrite app_nil_r.
  - unfold bind, post. destruct (usable _).
    + exists 1. split; [lia|]. simpl. now destruct rest.
    + destruct (IH (log ++ [mkRequest model Hello])) as (k & Hk & ->).
      exists (S k). split; [lia|]. simpl. now rewrite <- app_assoc.
Qed.

Lemma generateWith_log net shuffle position difficulty count (ms : list string) :
  forall log, exists k, k <= length ms
    /\ snd (generateWith net shuffle position difficulty count ms log)
       = log ++ map (fun m => mkRequest m (AskQuestions position difficulty count)) (take k ms).
Proof.
  induction ms as [|model rest IH]; intros log; simpl.
  - exists 0. split; [lia|]. now rewrite app_nil_r.
  - unfold bind, post.
    destruct (IH (log ++ [mkRequest model (AskQuestions position difficulty count)]))
      as (k & Hk & E).
    assert (exists k', k' <= S (length rest)
              /\ snd (generateWith net shuffle position difficulty count rest
                        (log ++ [mkRequest model (AskQuestions position difficulty count)]))
                 = log ++ map (fun m => mkRequest m (AskQuestions position difficulty count))
                              (take k' (model :: rest))) as Hrest.
    { exists (S k). split; [lia|]. rewrite E. simpl. now rewrite <- app_assoc. }
    destruct (usable _); [|exact Hrest].
    destruct (parseQuestions difficulty count _); [exact Hrest|].
    exists 1. split; [lia|]. simpl. now destruct rest.
Qed.

Lemma evaluateWith_log net question answer position (ms : list string) :
  forall log, exists k, k <= length ms
    /\ snd (evaluateWith net question answer position ms log)
       = log ++ map (fun m => mkRequest m (AskEvaluation question answer position)) (take k ms).
Proof.
  induction ms as [|model rest IH]; intros log; simpl.
  - exists 0. split; [lia|]. now rewrite app_nil_r.
  - unfold bind, post. destruct (usable _).
    + exists 1. split; [lia|]. simpl. now destruct rest.
    + destruct (IH (log ++ [mkRequest model (AskEvaluation question answer position)]))
        as (k & Hk & ->).
      exists (S k). split; [lia|]. simpl. now rewrite <- app_assoc.
Qed.

Lemma summariseWith_log net (candidateData : Candidate.t) position (ms : list string) :
  forall log, exists k, k <= length ms
    /\ snd (summariseWith net candidateData position ms log)
       = log ++ map (fun m => mkRequest m
                       (AskSummary (JS.orString (Candidate.name candidateData) "this candidate")
                                   (Candidate.answers candidateData)
                                   (Candidate.questions candidateData) position))
                    (take k ms).
Proof.
  induction ms as [|model rest IH]; intros log; simpl.
  - exists 0. split; [lia|]. now rewrite app_nil_r.
  - unfold bind, post. destruct (summaryOf _).
    + exists 1. split; [lia|]. simpl. now destruct rest.
    + destruct (IH (log ++ [mkRequest model
                      (AskSummary (JS.orString (Candidate.name candidateData) "this candidate")
                                  (Candidate.answers candidateData)
                                  (Candidate.questions candidateData) position)]))
        as (k & Hk & ->).
      exists (S k). split; [lia|]. simpl. now rewrite <- app_assoc.
Qed.

(** X6. Each of [testConnection], [generateQuestions], [evaluateAnswer] and
    [generateSummary] sends its requests to the models in the order of the list,
    one request per model, the same request each time but for the model,
    starting with the first model and stopping at some model: it appends at most
    five requests to those sent before and removes none. *)
Theorem requests_follow_the_models apiKey net shuffle (log : list Request) :
  let sent purpose k := log ++ map (fun m => mkRequest m purpose) (take k models) in
  (exists k, k <= 5 /\ snd (testConnection apiKey net log) = sent Hello k)
  /\ (forall position difficulty count,
         exists k, k <= 5
           /\ snd (generateQuestions apiKey net shuffle position difficulty count log)
              = sent (AskQuestions position difficulty count) k)
  /\ (forall question answer position,
         exists k, k <= 5
           /\ snd (evaluateAnswer apiKey net question answer position log)
              = sent (AskEvaluation question answer position) k)
  /\ (forall (candidateData : Candidate.t) position,
         exists k, k <= 5
           /\ snd (generateSummary apiKey net candidateData position log)
              = sent (AskSummary (JS.orString (Candidate.name candidateData) "this candidate")
                                 (Candidate.answers candidateData)
                                 (Candidate.questions candidateData) position) k).
Proof.
  intros sent. subst sent.
  unfold testConnection, generateQuestions, evaluateAnswer, generateSummary.
  destruct (checkApiKey apiKey); cbn [negb].
  - split; [exact (testModels_log net models log)|].
    split; [intros; apply (generateWith_log net shuffle _ _ _ models)|].
    split; [intros; apply (evaluateWith_log net _ _ _ models)|
            intros; apply (summariseWith_log net _ _ models)].
  - repeat split; intros; exists 0; (split; [lia|]); simpl; now rewrite app_nil_r.
Qed.

Lemma clampQ_range (x : Q) : (0 <= JS.clampQ 0 10 x <= 10)%Q.
Proof.
  unfold JS.clampQ, JS.Qmax, JS.Qmin.
  destruct (Qle_bool 10 x) eqn:H10.
  - change (Qle_bool 0 10) with true. cbv iota. split; discriminate.
  - destruct (Qle_bool 0 x) eqn:H0.
    + apply Qle_bool_iff in H0. split; [assumption|].
      apply Qlt_le_weak, Qnot_le_lt. intros H. apply Qle_bool_iff in H. congruence.
    + split; discriminate.
Qed.

Lemma basicScore_range (answer : string) : 3 <= basicScore answer <= 8.
Proof. rewrite basicScore_formula. destruct (50 <? _), (100 <? _); lia. Qed.

Lemma evaluateWith_range net question answer position (ms : list string) :
  forall log,
    (0 <= PerplexityAPI.score (fst (evaluateWith net question answer position ms log)) <= 10)%Q.
Proof.
  induction ms as [|model rest IH]; intros log; simpl.
  - pose proof (basicScore_range answer) as [H3 H8].
    unfold basicEvaluation. simpl. split.
    + change 0%Q with (inject_Z 0). rewrite <- Zle_Qle. lia.
    + change 10%Q with (inject_Z 10). rewrite <- Zle_Qle. lia.
  - unfold bind, post. destruct (usable _) as [raw|]; [|apply IH].
    simpl. destruct (scoreMatch (JS.trim raw)); [apply clampQ_range|].
    split; discriminate.
Qed.

(** X7. Whatever the key, the network and the replies, the score
    [evaluateAnswer] returns lies between 0 and 10. *)
Theorem evaluateAnswer_score_range apiKey net question answer position log :
  (0 <= PerplexityAPI.score (fst (evaluateAnswer apiKey net question answer position log))
   <= 10)%Q.
Proof.
  unfold evaluateAnswer. destruct (checkApiKey apiKey); cbn [negb].
  - apply evaluateWith_range.
  - simpl. split; discriminate.
Qed.

(** ** The adapter: what [generateQuestions] delivers *)

Lemma numberedQuestions_items (difficulty : string) (lines : list string) :
  Forall (fun q => Item.difficulty q = difficulty
                   /\ Item.timeLimit q = timeLimitOf difficulty
                   /\ 10 < String.length (Item.question q))
         (numberedQuestions difficulty lines).
Proof.
  induction lines as [|line rest IH]; simpl; [constructor|].
  destruct (matchNumbered line); [|assumption].
  destruct (10 <? _) eqn:Hlen; [|assumption].
  constructor; [|assumption]. apply Nat.ltb_lt in Hlen. now repeat split.
Qed.

Lemma looseQuestions_items (difficulty : string) (count : nat) (lines : list string) :
  forall found,
    Forall (fun q => Item.difficulty q = difficulty
                     /\ Item.timeLimit q = timeLimitOf difficulty
                     /\ 10 < String.length (Item.question q))
           (looseQuestions difficulty count found lines).
Proof.
  induction lines as [|line rest IH]; intros found; simpl; [constructor|].
  destruct (20 <? _) eqn:Hlen; simpl; [|apply IH].
  destruct (JS.includes _ _); [|apply IH].
  apply Nat.ltb_lt in Hlen.
  constructor; [repeat split; simpl; lia|].
  destruct (count <=? S found); [constructor|apply IH].
Qed.

Lemma parseQuestions_items (difficulty : string) (count : nat) (raw : string) :
  Forall (fun q => Item.difficulty q = difficulty
                   /\ Item.timeLimit q = timeLimitOf difficulty
                   /\ 10 < String.length (Item.question q))
         (parseQuestions difficulty count raw).
Proof.
  unfold parseQuestions.
  destruct (numberedQuestions difficulty _) eqn:Hnum.
  - apply looseQuestions_items.
  - rewrite <- Hnum. apply numberedQuestions_items.
Qed.

Lemma availableQuestions_spec (difficulty : string) :
  (availableQuestions difficulty = None <-> inherited (JS.toLowerCase difficulty) = true)
  /\ (forall available, availableQuestions difficulty = Some available ->
        length available = 4 /\ Forall (fun text => 10 < String.length text) available).
Proof.
  unfold availableQuestions, fallbackQuestions, inherited.
  destruct (String.eqb_spec (JS.toLowerCase difficulty) "easy") as [->|_];
    [|destruct (String.eqb_spec (JS.toLowerCase difficulty) "medium") as [->|_];
      [|destruct (String.eqb_spec (JS.toLowerCase difficulty) "hard") as [->|_]]].
  4: destruct (_ || _); cbn [String.eqb Ascii.eqb Bool.eqb].
  all: split; [split; try discriminate; try reflexivity|].
  all: try (intros available [= <-]; split; [reflexivity|repeat constructor]).
  intros available [=].
Qed.

Lemma selectedQuestions_items shuffle (difficulty : string) (count : nat) :
  (forall xs, Permutation (shuffle xs) xs) -> 1 <= count ->
  (selectedQuestions shuffle difficulty count = None
   <-> inherited (JS.toLowerCase difficulty) = true)
  /\ (forall questions, selectedQuestions shuffle difficulty count = Some questions ->
        1 <= length questions <= count
        /\ Forall (fun q => Item.difficulty q = difficulty
                            /\ Item.timeLimit q = timeLimitOf difficulty
                            /\ 10 < String.length (Item.question q))
                  questions).
Proof.
  intros Hperm Hcount. unfold selectedQuestions.
  destruct (availableQuestions_spec difficulty) as [Hnone Hsome].
  destruct (availableQuestions difficulty) as [available|].
  - split; [split; [discriminate|]|].
    + intros H. now apply Hnone in H.
    + intros questions [= <-].
      destruct (Hsome available eq_refl) as [Hlen Hall].
      pose proof (Hperm available) as Hp.
      rewrite length_map, length_take, (Permutation_length Hp), Hlen.
      split; [lia|].
      apply List.Forall_map, Forall_take.
      rewrite <- Hp in Hall. eapply Forall_impl; [exact Hall|].
      intros text Htext. now repeat split.
  - split; [split; [intros _; now apply Hnone|reflexivity]|discriminate].
Qed.

Lemma generateWith_items net shuffle position difficulty count (ms : list string) :
  (forall xs, Permutation (shuffle xs) xs) -> 1 <= count ->
  forall log,
    let result := generateWith net shuffle position difficulty count ms log in
    (fst result = None ->
     inherited (JS.toLowerCase difficulty) = true
     /\ snd result
        = log ++ map (fun model => mkRequest model (AskQuestions position difficulty count)) ms)
    /\ (inherited (JS.toLowerCase difficulty) = false -> fst result <> None)
    /\ (forall questions, fst result = Some questions ->
          1 <= length questions <= count
          /\ Forall (fun q => Item.difficulty q = difficulty
                              /\ Item.timeLimit q = timeLimitOf difficulty
                              /\ 10 < String.length (Item.question q))
                    questions).
Proof.
  intros Hperm Hcount.
  induction ms as [|model rest IH]; intros log; cbn zeta; simpl.
  - destruct (selectedQuestions_items shuffle difficulty count Hperm Hcount) as [Hnone Hsome].
    split; [|split].
    + intros H. apply Hnone in H. split; [exact H|]. now rewrite app_nil_r.
    + intros Hown H. apply Hnone in H. congruence.
    + exact Hsome.
  - unfold bind, post.
    assert (forall tail : Net (option (list Item.t)),
               tail = generateWith net shuffle position difficulty count rest ->
               let result :=
                 tail (log ++ [mkRequest model (AskQuestions position difficulty count)]) in
               (fst result = None ->
                inherited (JS.toLowerCase difficulty) = true
                /\ snd result
                   = log ++ mkRequest model (AskQuestions position difficulty count)
                         :: map (fun model => mkRequest model
                                                (AskQuestions position difficulty count)) rest)
               /\ (inherited (JS.toLowerCase difficulty) = false -> fst result <> None)
               /\ (forall questions, fst result = Some questions ->
                     1 <= length questions <= count
                     /\ Forall (fun q => Item.difficulty q = difficulty
                                         /\ Item.timeLimit q = timeLimitOf difficulty
                                         /\ 10 < String.length (Item.question q))
                               questions)) as Hrest.
    { intros tail -> result. subst result.
      destruct (IH (log ++ [mkRequest model (AskQuestions position difficulty count)]))
        as (H1 & H2 & H3).
      split; [|split; assumption].
      intros H. destruct (H1 H) as [Hkey ->]. split; [exact Hkey|].
      now rewrite <- app_assoc. }
    destruct (usable _) as [raw|]; [|now apply Hrest].
    pose proof (parseQuestions_items difficulty count raw) as Hitems.
    destruct (parseQuestions difficulty count raw) as [|q qs]; [now apply Hrest|].
    simpl fst. split; [discriminate|]. split; [discriminate|].
    intros questions [= <-]. unfold JS.slice0. split.
    + rewrite length_take. simpl. lia.
    + now apply Forall_take.
Qed.

(** X8. With a key that [checkApiKey] accepts, a shuffle that permutes its
    argument and a count of at least one: [generateQuestions] returns questions,
    whatever the network replies, unless the lower-cased difficulty is
    [constructor] or [__proto__], the two names the table of fallback questions
    inherits; what it returns is at least one and at most [count] questions,
    each with the difficulty asked for, the time limit of that difficulty (20
    seconds for easy, 60 for medium, 120 otherwise) and a text of more than ten
    characters; and when it throws instead, the difficulty is one of the two
    names and each of the five models has been asked. *)
Theorem generateQuestions_delivers apiKey net shuffle position difficulty count log :
  checkApiKey apiKey = true ->
  (forall xs, Permutation (shuffle xs) xs) ->
  1 <= count ->
  let result := generateQuestions apiKey net shuffle position difficulty count log in
  (inherited (JS.toLowerCase difficulty) = false -> fst result <> None)
  /\ (forall questions, fst result = Some questions ->
        1 <= length questions <= count
        /\ Forall (fun q => Item.difficulty q = difficulty
                            /\ Item.timeLimit q
                               = (if String.eqb difficulty "easy" then 20
                                  else if String.eqb difficulty "medium" then 60 else 120)%Z
                            /\ 10 < String.length (Item.question q))
                  questions)
  /\ (fst result = None ->
      inherited (JS.toLowerCase difficulty) = true
      /\ snd result
         = log ++ map (fun model => mkRequest model (AskQuestions position difficulty count))
                      models).
Proof.
  intros Hkey Hperm Hcount result. subst result.
  unfold generateQuestions. rewrite Hkey. cbn [negb].
  destruct (generateWith_items net shuffle position difficulty count models Hperm Hcount log)
    as (H1 & H2 & H3).
  split; [exact H2|]. split; [exact H3|exact H1].
Qed.

Lemma generateQuestions_delivers_witness :
  fst (generateQuestions goodKey offline keepOrder fullStack "hard" 2 [])
  = Some
      [ Item.mk "Design a scalable architecture for a high-traffic web application." "hard" 120;
        Item.mk "Explain how you would implement real-time features in a web app." "hard" 120 ]
  /\ fst (generateQuestions goodKey offline keepOrder fullStack "Constructor" 2 []) = None
  /\ length (snd (generateQuestions goodKey offline keepOrder fullStack "Constructor" 2 []))
     = 5.
Proof.
  split; [reflexivity|]. split; [reflexivity|].
  destruct (proj2 (proj2 (generateQuestions_delivers goodKey offline keepOrder fullStack
                            "Constructor" 2 [] eq_refl (fun xs => Permutation_refl xs)
                            (le_n_S 0 1 (Nat.le_0_l 1))))
                  eq_refl) as [_ Hlog].
  now rewrite Hlog.
Defined.

(** ** The adapter: replies in the format the prompts ask for *)

Lemma append_String (c : ascii) (s t : string) : String c s +:+ t = String c (s +:+ t).
Proof. reflexivity. Qed.

Lemma append_empty (t : string) : "" +:+ t = t.
Proof. reflexivity. Qed.

Lemma append_empty_r (s : string) : s +:+ "" = s.
Proof. induction s as [|c s IH]; [reflexivity|]. rewrite append_String. now f_equal. Qed.

Lemma append_assoc (s t u : string) : (s +:+ t) +:+ u = s +:+ (t +:+ u).
Proof. induction s as [|c s IH]; [reflexivity|]. rewrite !append_String. now f_equal. Qed.

Lemma isDigit_code (c : ascii) : JS.isDigit c = true <-> 48 <= JS.code c <= 57.
Proof. unfold JS.isDigit. rewrite andb_true_iff, !Nat.leb_le. tauto. Qed.

Lemma isDigit_plain (c : ascii) :
  JS.isDigit c = true ->
  JS.isWhiteSpace c = false /\ isColonOrSpace c = false /\ JS.isLineTerminator c = false
  /\ JS.lowerChar c = c /\ c <> "."%char /\ c <> "f"%char.
Proof.
  intros H. apply isDigit_code in H.
  assert (forall n, n < 48 \/ 57 < n -> (JS.code c =? n) = false) as Hne
      by (intros n Hn; apply Nat.eqb_neq; lia).
  repeat split.
  - unfold JS.isWhiteSpace. cbv zeta. rewrite !Hne by lia. reflexivity.
  - unfold isColonOrSpace, JS.isWhiteSpace. cbv zeta. rewrite !Hne by lia.
    destruct (Ascii.eqb c ":") eqn:E; [|reflexivity].
    apply Ascii.eqb_eq in E. subst c. vm_compute in H. lia.
  - unfold JS.isLineTerminator. cbv zeta. rewrite !Hne by lia. reflexivity.
  - unfold JS.lowerChar. cbv zeta.
    replace (JS.code c <=? 90) with true by (symmetry; apply Nat.leb_le; lia).
    replace (65 <=? JS.code c) with false by (symmetry; apply Nat.leb_gt; lia).
    replace (192 <=? JS.code c) with false by (symmetry; apply Nat.leb_gt; lia).
    reflexivity.
  - intros ->. vm_compute in H. lia.
  - intros ->. vm_compute in H. lia.
Qed.

Lemma uint_digits (d : Decimal.uint) :
  forallChars JS.isDigit (NilEmpty.string_of_uint d) = true.
Proof. induction d; simpl; try reflexivity; exact IHd. Qed.

Lemma showNat_digits (n : nat) :
  forallChars JS.isDigit (JS.showNat n) = true
  /\ exists c rest, JS.showNat n = String c rest /\ JS.isDigit c = true.
Proof.
  unfold JS.showNat, NilZero.string_of_uint.
  destruct (Nat.to_uint n) as [|d|d|d|d|d|d|d|d|d|d] eqn:E;
    (split; [try reflexivity; apply (uint_digits (_ d))
            |eexists _, _; split; reflexivity]).
Qed.

Lemma digitsToZ_uint (d : Decimal.uint) :
  forall acc, (0 <= acc)%Z ->
    digitsToZ acc (NilEmpty.string_of_uint d) = Z.of_nat (Nat.of_uint_acc d (Z.to_nat acc)).
Proof.
  induction d; intros acc Hacc; simpl; [lia|..];
    match goal with
    | |- context [digitValue ?c] =>
        let v := eval vm_compute in (digitValue c) in change (digitValue c) with v
    end;
    (rewrite IHd by lia; f_equal; f_equal; rewrite Nat.tail_mul_spec; lia).
Qed.

Lemma to_uint_not_Nil (n : nat) : Nat.to_uint n <> Decimal.Nil.
Proof.
  rewrite <- (Unsigned.of_to n) at 1. rewrite Unsigned.to_of.
  unfold Decimal.unorm. now destruct (Decimal.nzhead _).
Qed.

Lemma digitsToZ_showNat (n : nat) : digitsToZ 0 (JS.showNat n) = Z.of_nat n.
Proof.
  unfold JS.showNat, NilZero.string_of_uint.
  pose proof (to_uint_not_Nil n) as Hnil.
  assert (NilEmpty.string_of_uint (Nat.to_uint n)
          = match Nat.to_uint n with
            | Decimal.Nil => "0"
            | _ => NilEmpty.string_of_uint (Nat.to_uint n)
            end) as <- by (destruct (Nat.to_uint n); congruence).
  rewrite digitsToZ_uint by lia. change (Z.to_nat 0) with 0.
  change (Nat.of_uint_acc (Nat.to_uint n) 0) with (Nat.of_uint (Nat.to_uint n)).
  now rewrite Unsigned.of_to.
Qed.

Lemma showNat_inj (n m : nat) : JS.showNat n = JS.showNat m -> n = m.
Proof.
  intros H. apply (f_equal (digitsToZ 0)) in H. rewrite !digitsToZ_showNat in H. lia.
Qed.

Lemma spanDigits_app (d r : string) :
  forallChars JS.isDigit d = true ->
  match r with String c _ => JS.isDigit c = false | EmptyString => True end ->
  spanDigits (d +:+ r) = (d, r).
Proof.
  intros Hd Hr. induction d as [|c d IH].
  - rewrite append_empty. destruct r as [|c t]; [reflexivity|]. simpl. now rewrite Hr.
  - simpl in Hd. apply andb_true_iff in Hd as [Hc Hd].
    rewrite append_String. simpl. rewrite Hc, IH by assumption. reflexivity.
Qed.

Lemma spanLine_single (s : string) :
  forallChars (fun c => negb (JS.isLineTerminator c)) s = true -> spanLine s = (s, "").
Proof.
  induction s as [|c s IH]; simpl; [reflexivity|].
  intros H. apply andb_true_iff in H as [Hc Hs].
  apply negb_true_iff in Hc. rewrite Hc, IH by assumption. reflexivity.
Qed.

Lemma lazyGroup_single (c : ascii) (s : string) :
  forallChars (fun c => negb (JS.isLineTerminator c)) (String c s) = true ->
  lazyGroup (String c s) = Some (String c s).
Proof.
  intros H. unfold lazyGroup. rewrite spanLine_single by assumption. reflexivity.
Qed.

Lemma feedbackMatch_skip (c : ascii) (t : string) :
  JS.lowerChar c <> "f"%char -> feedbackMatch (String c t) = feedbackMatch t.
Proof.
  intros Hc.
  assert (startsWithWord "feedback" (String c t) = false) as Hword.
  { unfold startsWithWord.
    change (String.prefix "feedback" (JS.toLowerCase (String c t)))
      with (if ascii_dec "f" (JS.lowerChar c)
            then String.prefix "eedback" (JS.toLowerCase t) else false).
    destruct (ascii_dec "f" (JS.lowerChar c)) as [E|_]; [congruence|reflexivity]. }
  change (feedbackMatch (String c t))
    with (match (if startsWithWord "feedback" (String c t)
                 then feedbackAfterWord (dropChars 8 (String c t)) else None) with
          | Some g => Some g
          | None => feedbackMatch t
          end).
  now rewrite Hword.
Qed.

Lemma feedbackMatch_digits (d rest : string) :
  forallChars JS.isDigit d = true -> feedbackMatch (d +:+ rest) = feedbackMatch rest.
Proof.
  induction d as [|c d IH]; intros H; [reflexivity|].
  simpl in H. apply andb_true_iff in H as [Hc Hd].
  rewrite append_String, feedbackMatch_skip; [now apply IH|].
  destruct (isDigit_plain c Hc) as (_ & _ & _ & -> & _ & Hf). exact Hf.
Qed.

Lemma scoreMatch_here (s : string) (q : Q) :
  startsWithWord "score" s = true -> scoreAfterWord (dropChars 5 s) = Some q ->
  scoreMatch s = Some q.
Proof.
  intros H1 H2. destruct s as [|c t]; [discriminate H1|].
  change (scoreMatch (String c t))
    with (match (if startsWithWord "score" (String c t)
                 then scoreAfterWord (dropChars 5 (String c t)) else None) with
          | Some x => Some x
          | None => scoreMatch t
          end).
  now rewrite H1, H2.
Qed.

Lemma feedbackMatch_here (s g : string) :
  startsWithWord "feedback" s = true -> feedbackAfterWord (dropChars 8 s) = Some g ->
  feedbackMatch s = Some g.
Proof.
  intros H1 H2. destruct s as [|c t]; [discriminate H1|].
  change (feedbackMatch (String c t))
    with (match (if startsWithWord "feedback" (String c t)
                 then feedbackAfterWord (dropChars 8 (String c t)) else None) with
          | Some x => Some x
          | None => feedbackMatch t
          end).
  now rewrite H1, H2.
Qed.

Lemma clamp_nat (n : nat) :
  JS.clampQ 0 10 (Qmake (Z.of_nat n) 1) = inject_Z (Z.of_nat (Nat.min n 10)).
Proof.
  unfold JS.clampQ, JS.Qmax, JS.Qmin, Qle_bool. simpl Qnum. simpl Qden.
  destruct (10 * 1 <=? Z.of_nat n * 1)%Z eqn:H.
  - apply Z.leb_le in H. replace (Nat.min n 10) with 10 by lia. reflexivity.
  - apply Z.leb_gt in H. replace (Nat.min n 10) with n by lia.
    simpl Qnum. simpl Qden.
    replace (0 * 1 <=? Z.of_nat n * 1)%Z with true by (symmetry; apply Z.leb_le; lia).
    reflexivity.
Qed.

(** X9. A reply in the format the prompt asks for, a line [Score: n] with a
    decimal number [n] followed by a line [Feedback: text] whose text is a
    single line that starts with neither a colon nor white space, is read as the
    score [n], capped at 10, and the trimmed text. *)
Theorem parseEvaluation_reads_the_format (n : nat) (c : ascii) (rest : string) :
  let feedback := String c rest in
  isColonOrSpace c = false ->
  forallChars (fun c => negb (JS.isLineTerminator c)) feedback = true ->
  parseEvaluation ("Score: " +:+ JS.showNat n +:+ JS.nl +:+ "Feedback: " +:+ feedback)
  = mkEvaluation (inject_Z (Z.of_nat (Nat.min n 10))) (JS.trim feedback).
Proof.
  intros feedback Hc Hline.
  destruct (showNat_digits n) as (Hdigits & c0 & d0 & Hshow & Hc0).
  unfold parseEvaluation. f_equal.
  - rewrite (scoreMatch_here _ (Qmake (Z.of_nat n) 1)); [apply clamp_nat|reflexivity|].
    change (dropChars 5 _)
      with (String ":" (String " " (JS.showNat n +:+ JS.nl +:+ "Feedback: " +:+ feedback))).
    unfold scoreAfterWord.
    assert (skipColonSpace
              (String ":" (String " " (JS.showNat n +:+ JS.nl +:+ "Feedback: " +:+ feedback)))
            = JS.showNat n +:+ JS.nl +:+ "Feedback: " +:+ feedback) as ->.
    { rewrite Hshow, append_String. simpl.
      now destruct (isDigit_plain c0 Hc0) as (_ & -> & _). }
    rewrite spanDigits_app by (assumption || reflexivity).
    rewrite Hshow at 1. cbn [isEmpty].
    change (JS.nl +:+ "Feedback: " +:+ feedback)
      with (String JS.newline ("Feedback: " +:+ feedback)).
    change JS.newline with "010"%char. cbv iota.
    unfold decimal. rewrite append_empty_r, digitsToZ_showNat. reflexivity.
  - replace (feedbackMatch _) with (Some feedback); [reflexivity|]. symmetry.
    rewrite !append_String, append_empty.
    do 7 (rewrite feedbackMatch_skip; [|vm_compute; discriminate]).
    rewrite feedbackMatch_digits by assumption.
    unfold JS.nl. rewrite append_String, !append_empty.
    rewrite feedbackMatch_skip; [|vm_compute; discriminate].
    apply feedbackMatch_here; [reflexivity|].
    change (dropChars 8 _) with (String ":" (String " " feedback)).
    subst feedback. simpl. rewrite Hc.
    now rewrite lazyGroup_single by assumption.
Qed.

Lemma parseEvaluation_reads_the_format_witness :
  parseEvaluation ("Score: " +:+ JS.showNat 12 +:+ JS.nl +:+ "Feedback: " +:+ "Clear and correct.")
  = mkEvaluation 10 "Clear and correct.".
Proof.
  exact (parseEvaluation_reads_the_format 12 "C" "lear and correct." eq_refl eq_refl).
Defined.

Lemma trimStart_length (s : string) : String.length (JS.trimStart s) <= String.length s.
Proof.
  induction s as [|c s IH]; simpl; [lia|]. destruct (JS.isWhiteSpace c); simpl; lia.
Qed.

Lemma trimEnd_length (s : string) : String.length (JS.trimEnd s) <= String.length s.
Proof.
  induction s as [|c s IH]; simpl; [lia|].
  destruct (JS.trimEnd s); [destruct (JS.isWhiteSpace c)|]; simpl in *; lia.
Qed.

(** A text that [trim] leaves as it is neither starts nor ends with white
    space. *)
Lemma trim_fixed (s : string) :
  JS.trim s = s -> JS.trimStart s = s /\ JS.trimEnd s = s.
Proof.
  unfold JS.trim. intros H.
  assert (JS.trimStart s = s) as Hstart.
  { pose proof (trimEnd_length (JS.trimStart s)) as H1. rewrite H in H1.
    destruct s as [|c s]; [reflexivity|]. simpl in *.
    destruct (JS.isWhiteSpace c); [|reflexivity].
    pose proof (trimStart_length s). lia. }
  split; [assumption|]. now rewrite Hstart in H.
Qed.

Lemma trimEnd_append (s t : string) :
  t <> "" -> JS.trimEnd t = t -> JS.trimEnd (s +:+ t) = s +:+ t.
Proof.
  intros Hne Ht. induction s as [|c s IH]; [exact Ht|].
  rewrite append_String. simpl. rewrite IH.
  destruct (s +:+ t) eqn:E; [|reflexivity].
  destruct s; [|discriminate]. simpl in E. contradiction.
Qed.

Lemma splitLines_line (l rest : string) :
  forallChars (fun c => negb (JS.isLineTerminator c)) l = true ->
  JS.splitLines (l +:+ JS.nl +:+ rest) = l :: JS.splitLines rest.
Proof.
  induction l as [|c l IH]; intros H.
  - reflexivity.
  - simpl in H. apply andb_true_iff in H as [Hc Hl].
    rewrite append_String. simpl. rewrite (IH Hl).
    replace (Ascii.eqb c JS.newline) with false; [reflexivity|].
    symmetry. apply Ascii.eqb_neq. intros ->. discriminate.
Qed.

Lemma splitLines_last (l : string) :
  forallChars (fun c => negb (JS.isLineTerminator c)) l = true ->
  JS.splitLines l = [l].
Proof.
  induction l as [|c l IH]; intros H; [reflexivity|].
  simpl in H. apply andb_true_iff in H as [Hc Hl]. simpl. rewrite (IH Hl).
  replace (Ascii.eqb c JS.newline) with false; [reflexivity|].
  symmetry. apply Ascii.eqb_neq. intros ->. discriminate.
Qed.

Lemma splitLines_join (lines : list string) :
  lines <> [] ->
  Forall (fun l => forallChars (fun c => negb (JS.isLineTerminator c)) l = true) lines ->
  JS.splitLines (JS.join JS.nl lines) = lines.
Proof.
  induction lines as [|l [|l' ls] IH]; intros Hne Hall; [contradiction| |].
  - simpl. apply splitLines_last. now inversion Hall.
  - inversion Hall as [|? ? Hl Hrest]; subst.
    change (JS.join JS.nl (l :: l' :: ls)) with (l +:+ JS.nl +:+ JS.join JS.nl (l' :: ls)).
    rewrite splitLines_line by assumption. f_equal. now apply IH.
Qed.

Lemma forallChars_append (p : ascii -> bool) (s t : string) :
  forallChars p (s +:+ t) = forallChars p s && forallChars p t.
Proof.
  induction s as [|c s IH]; [reflexivity|].
  rewrite append_String. simpl. now rewrite IH, andb_assoc.
Qed.

Lemma digits_single_line (d : string) :
  forallChars JS.isDigit d = true ->
  forallChars (fun c => negb (JS.isLineTerminator c)) d = true.
Proof.
  induction d as [|c d IH]; simpl; [reflexivity|].
  intros H. apply andb_true_iff in H as [Hc Hd].
  destruct (isDigit_plain c Hc) as (_ & _ & -> & _). now rewrite IH.
Qed.

Lemma trimEnd_keeps (c : ascii) (s : string) :
  JS.isWhiteSpace c = false -> isEmpty (JS.trimEnd (String c s)) = false.
Proof. intros H. simpl. destruct (JS.trimEnd s); [now rewrite H|reflexivity]. Qed.

(** The line [k. q] of a numbered list, for a question [q] that takes one
    line and has no white space at either end. *)
Lemma numbered_line (k : nat) (q : string) :
  q <> "" -> JS.trim q = q ->
  forallChars (fun c => negb (JS.isLineTerminator c)) q = true ->
  let line := JS.showNat k +:+ ". " +:+ q in
  matchNumbered line = Some q
  /\ forallChars (fun c => negb (JS.isLineTerminator c)) line = true
  /\ isEmpty (JS.trim line) = false
  /\ JS.trimStart line = line
  /\ exists head, line = head +:+ q.
Proof.
  intros Hne Htrim Hline line.
  destruct (showNat_digits k) as (Hdigits & c0 & d0 & Hshow & Hc0).
  destruct (trim_fixed q Htrim) as [Hstart Hend].
  destruct q as [|c t]; [contradiction|].
  assert (JS.isWhiteSpace c = false) as Hc.
  { simpl in Hstart. destruct (JS.isWhiteSpace c); [|reflexivity].
    pose proof (trimStart_length t) as Hlen. rewrite Hstart in Hlen. simpl in Hlen. lia. }
  assert (JS.trimStart line = line) as Hls.
  { subst line. rewrite Hshow, append_String. simpl.
    now destruct (isDigit_plain c0 Hc0) as (-> & _). }
  repeat split.
  - subst line. unfold matchNumbered.
    rewrite spanDigits_app by (assumption || reflexivity).
    rewrite Hshow at 1. cbn [isEmpty].
    change (". " +:+ String c t) with (String "." (String " " (String c t))). cbv iota.
    change (JS.trimStart (String " " (String c t))) with (JS.trimStart (String c t)).
    rewrite Hstart. cbn [isEmpty]. now rewrite Hline.
  - subst line. rewrite !forallChars_append, Hline, digits_single_line by assumption.
    reflexivity.
  - unfold JS.trim. rewrite Hls. subst line. rewrite Hshow, append_String.
    apply trimEnd_keeps. now destruct (isDigit_plain c0 Hc0) as (-> & _).
  - exact Hls.
  - exists (JS.showNat k +:+ ". "). subst line. now rewrite append_assoc.
Qed.

Lemma join_first (l : string) (ls : list string) :
  exists tail, JS.join JS.nl (l :: ls) = l +:+ tail.
Proof.
  destruct ls as [|l' ls].
  - exists "". simpl. now rewrite append_empty_r.
  - now exists (JS.nl +:+ JS.join JS.nl (l' :: ls)).
Qed.

Lemma join_last (ls : list string) (l : string) :
  exists head, JS.join JS.nl (ls ++ [l]) = head +:+ l.
Proof.
  induction ls as [|a ls (head & IH)].
  - now exists "".
  - exists (a +:+ JS.nl +:+ head).
    change (JS.join JS.nl ((a :: ls) ++ [l])) with (JS.join JS.nl (a :: (ls ++ [l]))).
    destruct (ls ++ [l]) as [|b bs] eqn:E; [now destruct ls|].
    change (JS.join JS.nl (a :: b :: bs)) with (a +:+ JS.nl +:+ JS.join JS.nl (b :: bs)).
    now rewrite IH, !append_assoc.
Qed.

Lemma trimStart_append (s t : string) :
  s <> "" -> JS.trimStart s = s -> JS.trimStart (s +:+ t) = s +:+ t.
Proof.
  intros Hne Hs. destruct s as [|c s]; [contradiction|].
  rewrite append_String. simpl in *. destruct (JS.isWhiteSpace c); [|reflexivity].
  pose proof (trimStart_length s) as Hlen. rewrite Hs in Hlen. simpl in Hlen. lia.
Qed.

Lemma numberedQuestions_lines (difficulty : string) (qs : list string) :
  forall start,
    Forall (fun q => 10 < String.length q /\ JS.trim q = q
                     /\ forallChars (fun c => negb (JS.isLineTerminator c)) q = true) qs ->
    let lines := zip_with (fun k q => JS.showNat k +:+ ". " +:+ q)
                          (seq start (length qs)) qs in
    numberedQuestions difficulty lines = map (mkItem difficulty) qs
    /\ Forall (fun l => forallChars (fun c => negb (JS.isLineTerminator c)) l = true) lines
    /\ Forall (fun l => negb (isEmpty (JS.trim l))) lines.
Proof.
  induction qs as [|q qs IH]; intros start Hall lines; subst lines; simpl.
  - repeat split; constructor.
  - inversion Hall as [|? ? (Hlen & Htrim & Hline) Hrest]; subst.
    assert (q <> "") as Hne by (intros ->; simpl in Hlen; lia).
    destruct (numbered_line start q Hne Htrim Hline) as (Hmatch & Hsingle & Hkeep & _).
    destruct (IH (S start) Hrest) as (IH1 & IH2 & IH3).
    rewrite Hmatch, Htrim, (proj2 (Nat.ltb_lt _ _) Hlen), IH1.
    repeat split; constructor; try assumption. now rewrite Hkeep.
Qed.

Lemma filter_all {A} (P : A -> Prop) `{!forall x, Decision (P x)} (xs : list A) :
  Forall P xs -> filter P xs = xs.
Proof.
  induction 1 as [|x xs Hx _ IH]; [reflexivity|].
  now rewrite filter_cons_True, IH.
Qed.

(** X10. A reply that is a numbered list, the lines [1. q1], [2. q2] and so on
    joined by line feeds, each question a single trimmed line of more than ten
    characters, is read as exactly these questions in their order, each with the
    difficulty asked for and the time limit of that difficulty. *)
Theorem parseQuestions_reads_a_numbered_list (difficulty : string) (count : nat)
        (qs : list string) :
  qs <> [] ->
  Forall (fun q => 10 < String.length q /\ JS.trim q = q
                   /\ forallChars (fun c => negb (JS.isLineTerminator c)) q = true) qs ->
  let lines := zip_with (fun k q => JS.showNat k +:+ ". " +:+ q) (seq 1 (length qs)) qs in
  parseQuestions difficulty count (JS.join JS.nl lines)
  = map (fun q => Item.mk q difficulty
                    (if String.eqb difficulty "easy" then 20
                     else if String.eqb difficulty "medium" then 60 else 120)%Z) qs.
Proof.
  intros Hne Hall lines.
  destruct (numberedQuestions_lines difficulty qs 1 Hall) as (Hnum & Hsingle & Hkeep).
  fold lines in Hnum, Hsingle, Hkeep.
  assert (lines <> []) as Hlines.
  { subst lines. destruct qs; [contradiction|discriminate]. }
  assert (JS.trim (JS.join JS.nl lines) = JS.join JS.nl lines) as Htrim.
  { unfold JS.trim.
    assert (JS.trimStart (JS.join JS.nl lines) = JS.join JS.nl lines) as ->.
    { subst lines. destruct qs as [|q qs]; [contradiction|]. simpl zip_with.
      inversion Hall as [|? ? (Hlen & Hq & Hline) _]; subst.
      assert (q <> "") as Hq0 by (intros ->; simpl in Hlen; lia).
      destruct (numbered_line 1 q Hq0 Hq Hline) as (_ & _ & _ & Hstart & head & Hhead).
      destruct (join_first (JS.showNat 1 +:+ ". " +:+ q)
                  (zip_with (fun k q => JS.showNat k +:+ ". " +:+ q)
                            (seq 2 (length qs)) qs)) as (tail & ->).
      apply trimStart_append; [|exact Hstart].
      destruct (showNat_digits 1) as (_ & c0 & d0 & -> & _). discriminate. }
    destruct (exists_last Hne) as (qs' & q & ->).
    apply Forall_app in Hall as [_ Hlast].
    inversion Hlast as [|? ? (Hlen & Hq & Hline) _]; subst.
    assert (q <> "") as Hq0 by (intros ->; simpl in Hlen; lia).
    subst lines. rewrite length_app, seq_app. simpl seq.
    rewrite zip_with_app by now rewrite length_seq.
    simpl zip_with.
    destruct (numbered_line (S (length qs')) q Hq0 Hq Hline) as (_ & _ & _ & _ & head & ->).
    destruct (join_last (zip_with (fun k q => JS.showNat k +:+ ". " +:+ q)
                                  (seq 1 (length qs')) qs') (head +:+ q)) as (head' & ->).
    rewrite <- append_assoc. apply trimEnd_append; [assumption|].
    now destruct (trim_fixed q Hq). }
  unfold parseQuestions. rewrite Htrim, splitLines_join by assumption.
  rewrite filter_all by assumption. rewrite Hnum.
  destruct qs; [contradiction|reflexivity].
Qed.

Lemma parseQuestions_reads_a_numbered_list_witness :
  parseQuestions "medium" 2
    ("1. How would you debounce a burst of input events?" +:+ JS.nl
     +:+ "2. How would you cache the replies of a slow service?")
  = [ Item.mk "How would you debounce a burst of input events?" "medium" 60;
      Item.mk "How would you cache the replies of a slow service?" "medium" 60 ].
Proof.
  apply (parseQuestions_reads_a_numbered_list
           "medium" 2 [ "How would you debounce a burst of input events?";
                        "How would you cache the replies of a slow service?" ]).
  - discriminate.
  - repeat (constructor; [split; [vm_compute; lia|split; reflexivity]|]). constructor.
Defined.

(** ** Question ids and the answers shown in the detail view *)

Lemma questionId_inj (prefix : string) (now i j : nat) :
  questionId prefix now i = questionId prefix now j -> i = j.
Proof.
  unfold questionId. intros H.
  do 4 apply (inj (append _)) in H. now apply showNat_inj.
Qed.

Lemma NoDup_batch_ids (prefix : string) (now : nat) {A} (g : nat -> A -> Question.t)
      (items : list A) :
  (forall idx item, Question.id (g idx item) = questionId prefix now idx) ->
  NoDup (map Question.id (imap g items)).
Proof.
  intros Hid. apply NoDup_alt. intros i j x Hi Hj.
  change (map Question.id (imap g items)) with (Question.id <$> imap g items) in Hi, Hj.
  rewrite list_lookup_fmap, list_lookup_imap in Hi, Hj.
  destruct (items !! i) as [a|]; [|discriminate].
  destruct (items !! j) as [b|]; [|discriminate].
  simpl in Hi, Hj. rewrite Hid in Hi, Hj.
  apply (questionId_inj prefix now). congruence.
Qed.

Lemma generateQuestionsBatch_shape apiKey net shuffle now timeoutAt (c : Candidate.t) log :
  let batch := fst (generateQuestionsBatch apiKey net shuffle now timeoutAt c log) in
  batch = defaultBatch now \/ exists items, batch = generatedBatch now items.
Proof.
  unfold generateQuestionsBatch, raced.
  destruct (isApiKeyAvailable apiKey); [|now left].
  unfold bind. destruct (testConnection apiKey net log) as [connectionTest log0].
  destruct (success connectionTest); [|now left].
  destruct (generateQuestions apiKey net shuffle _ "easy" 2 log0) as [[easy|] log1];
    destruct (lostRace timeoutAt (length log) 0); try (now left).
  destruct (generateQuestions apiKey net shuffle _ "medium" 2 log1) as [[medium|] log2];
    destruct (lostRace timeoutAt (length log) 1); try (now left).
  destruct (generateQuestions apiKey net shuffle _ "hard" 2 log2) as [[hard|] log3];
    destruct (lostRace timeoutAt (length log) 2); try (now left).
  unfold ret. simpl fst.
  destruct (easy ++ medium ++ hard) as [|q qs] eqn:Hall; [now left|].
  right. now exists (q :: qs).
Qed.

Lemma NoDup_generateQuestionsBatch apiKey net shuffle now timeoutAt (c : Candidate.t) log :
  NoDup (map Question.id
             (fst (generateQuestionsBatch apiKey net shuffle now timeoutAt c log))).
Proof.
  destruct (generateQuestionsBatch_shape apiKey net shuffle now timeoutAt c log)
    as [->|(items & ->)].
  - now apply (NoDup_batch_ids "default" now).
  - now apply (NoDup_batch_ids "generated" now).
Qed.

Lemma Paired_submit isoNow (c : Candidate.t) (q : Question.t) text evaluation :
  Paired c -> questionToAnswer c = Some q -> Paired (submitted isoNow c q text evaluation).
Proof.
  intros (Hstep & Hdup & Hids) Hq. split; [now apply InStep_submit|].
  split; [exact Hdup|].
  unfold submitted. simpl. rewrite map_app, length_app, Hids. simpl.
  destruct Hstep as [Hlen _].
  unfold questionToAnswer in Hq. destruct (6 <=? _); [discriminate|].
  rewrite <- Hlen in Hq.
  replace (length (Candidate.answers c) + 1) with (S (length (Candidate.answers c))) by lia.
  symmetry. apply take_S_r.
  change (map Question.id (Candidate.questions c))
    with (Question.id <$> Candidate.questions c).
  now rewrite list_lookup_fmap, Hq.
Qed.

Lemma Paired_generate apiKey net shuffle now timeoutAt (c : Candidate.t) log first :
  Paired c -> Candidate.questions c = [] ->
  Paired (withQuestions c (fst (generateQuestionsBatch apiKey net shuffle now timeoutAt c log))
                        first).
Proof.
  intros (Hstep & _ & _) Hnil. split; [now apply InStep_generate|].
  split; [simpl; apply NoDup_generateQuestionsBatch|].
  destruct Hstep as [Hlen Hzero]. rewrite (Hzero Hnil) in Hlen.
  simpl. destruct (Candidate.answers c); [reflexivity|discriminate].
Qed.

Lemma answerOf_paired (c : Candidate.t) (i : nat) (q : Question.t) :
  Paired c -> Candidate.questions c !! i = Some q ->
  CandidateDetailView.answerOf c q = Candidate.answers c !! i.
Proof.
  intros (_ & Hdup & Hids) Hq. unfold CandidateDetailView.answerOf.
  set (ids := Question.id <$> Candidate.questions c).
  assert (ids !! i = Some (Question.id q)) as Hi
      by (subst ids; now rewrite list_lookup_fmap, Hq).
  assert (forall j a, Candidate.answers c !! j = Some a ->
                      ids !! j = Some (Answer.questionId a)) as Hanswer.
  { intros j a Ha.
    assert ((Answer.questionId <$> Candidate.answers c) !! j = Some (Answer.questionId a))
      as Hj by now rewrite list_lookup_fmap, Ha.
    change (Answer.questionId <$> Candidate.answers c)
      with (map Answer.questionId (Candidate.answers c)) in Hj.
    rewrite Hids in Hj. apply lookup_take_Some in Hj. now destruct Hj. }
  change (map Question.id (Candidate.questions c)) with ids in Hdup.
  destruct (JS.find _ _) as [a|] eqn:Hfind.
  - apply find_Some_index in Hfind as (j & _ & Ha & Hmatch).
    apply String.eqb_eq in Hmatch.
    pose proof (Hanswer j a Ha) as Hj. rewrite Hmatch in Hj.
    assert (j = i) as -> by (eapply NoDup_lookup; eassumption).
    now rewrite Ha.
  - destruct (Candidate.answers c !! i) as [a|] eqn:Ha; [|reflexivity].
    exfalso. pose proof (Hanswer i a Ha) as Hj. rewrite Hi in Hj. injection Hj as Hj.
    rewrite find_findIndex in Hfind.
    destruct (JS.findIndex _ _) as [k|] eqn:Hk.
    + apply findIndex_lookup in Hk as (x & Hx & _). congruence.
    + assert (String.eqb (Answer.questionId a) (Question.id q) = false) as Hno.
      { apply (proj1 (findIndex_None _ _) Hk a). now apply list_elem_of_lookup_2 in Ha. }
      apply String.eqb_neq in Hno. congruence.
Qed.

(** X11. In a session whose answers are those to its first questions in order
    and whose question ids are distinct, the answer the detail view finds for
    the question at position [i] is the answer recorded at position [i], and
    none when fewer answers are recorded. A candidate as the form creates it is
    such a session, and mounting the component and every step of it keep all
    sessions it holds such, as long as the out-of-range guard of the
    initialisation effect does not fire. *)
Theorem detail_view_pairs_answers apiKey net shuffle now isoNow timeoutAt :
  (forall (c : Candidate.t) i q,
      Paired c -> Candidate.questions c !! i = Some q ->
      CandidateDetailView.answerOf c q = Candidate.answers c !! i)
  /\ (forall c : Candidate.t, Unstarted c -> Candidate.answers c = [] -> Paired c)
  /\ (forall st log,
         Forall Paired (Slice.candidates st) ->
         clamps (mount apiKey net st log) = 0 ->
         Everywhere Paired (mount apiKey net st log))
  /\ (forall s e,
         Everywhere Paired s ->
         clamps (step apiKey net shuffle now isoNow timeoutAt s e) = clamps s ->
         Everywhere Paired (step apiKey net shuffle now isoNow timeoutAt s e)).
Proof.
  split; [|split; [|split]].
  - intros c i q. apply answerOf_paired.
  - intros c (_ & Hq & Hindex) Hanswers. unfold Paired, InStep.
    rewrite Hq, Hindex, Hanswers. repeat split. constructor.
  - intros st log Hst Hclamps.
    apply (mount_invariant apiKey net Paired False); try assumption;
      [intros []|intros current c H; exact H|].
    right. exact Hclamps.
  - intros s e Hs Hclamps.
    apply (step_invariant apiKey net shuffle now isoNow timeoutAt Paired False);
      try assumption; try (now right).
    + intros c paused t H. exact H.
    + intros c q text evaluation. apply Paired_submit.
    + intros c z text H. exact H.
    + intros c log first. apply Paired_generate.
    + intros [].
    + intros current c H. exact H.
Qed.

Lemma detail_view_pairs_answers_witness :
  Paired Cases.adaPaired
  /\ CandidateDetailView.answerOf Cases.adaPaired Cases.secondQuestion
     = Candidate.answers Cases.adaPaired !! 1
  /\ Everywhere Paired (mount "" offline twoCandidates []).
Proof.
  assert (Paired Cases.adaPaired) as Hpaired.
  { split; [split; [reflexivity|discriminate]|]. split; [|reflexivity].
    change (NoDup (map Question.id (defaultBatch 17))).
    apply (bool_decide_unpack (NoDup (map Question.id (defaultBatch 17)))).
    vm_compute. exact I. }
  split; [exact Hpaired|]. split.
  - exact (proj1 (detail_view_pairs_answers "" offline keepOrder 17 clock inTime)
                 Cases.adaPaired 1 Cases.secondQuestion Hpaired eq_refl).
  - apply (proj1 (proj2 (proj2 (detail_view_pairs_answers "" offline keepOrder 17 clock inTime)))
                 twoCandidates []); [|reflexivity].
    repeat constructor; discriminate.
Defined.

(** X12. The questions of a batch that [generateQuestionsBatch] returns have
    distinct ids, whether they come from the provider or from the question bank. *)
Theorem batch_ids_are_distinct apiKey net shuffle now timeoutAt (c : Candidate.t) log :
  NoDup (map Question.id
             (fst (generateQuestionsBatch apiKey net shuffle now timeoutAt c log))).
Proof. apply NoDup_generateQuestionsBatch. Qed.

(** ** The dashboard *)

Section Sorting.

Context {A : Type} (compare : A -> A -> Z).

Hypothesis before_total :
  forall a b, ~ comesBefore compare a b -> comesBefore compare b a.
Hypothesis before_trans :
  forall a b c,
    comesBefore compare a b -> comesBefore compare b c -> comesBefore compare a c.

Lemma insert_Permutation (x : A) (sorted : list A) :
  Permutation (ES.insert compare x sorted) (x :: sorted).
Proof.
  induction sorted as [|y rest IH]; simpl; [reflexivity|].
  destruct (compare x y <=? 0)%Z; [reflexivity|].
  rewrite IH. apply perm_swap.
Qed.

Lemma sort_Permutation (xs : list A) : Permutation (ES.sort compare xs) xs.
Proof.
  induction xs as [|x xs IH]; simpl; [reflexivity|].
  unfold ES.sort in *. simpl. rewrite insert_Permutation. now constructor.
Qed.

Lemma insert_sorted (x : A) (sorted : list A) :
  StronglySorted (comesBefore compare) sorted ->
  StronglySorted (comesBefore compare) (ES.insert compare x sorted).
Proof.
  induction 1 as [|y rest Hsorted IH Hall]; simpl.
  - repeat constructor.
  - destruct (compare x y <=? 0)%Z eqn:Hxy.
    + apply Z.leb_le in Hxy. constructor; [now constructor|].
      constructor; [exact Hxy|].
      eapply Forall_impl; [exact Hall|]. intros z Hz. now apply (before_trans x y z).
    + apply Z.leb_gt in Hxy. constructor; [exact IH|].
      rewrite insert_Permutation. constructor; [|exact Hall].
      apply before_total. unfold comesBefore. lia.
Qed.

Lemma sort_sorted (xs : list A) : StronglySorted (comesBefore compare) (ES.sort compare xs).
Proof.
  induction xs as [|x xs IH]; [constructor|]. now apply insert_sorted.
Qed.

Lemma sorted_lookup (l : list A) :
  StronglySorted (comesBefore compare) l ->
  forall i j a b, i < j -> l !! i = Some a -> l !! j = Some b -> comesBefore compare a b.
Proof.
  induction 1 as [|x rest Hsorted IH Hall]; intros i j a b Hij Ha Hb; [discriminate|].
  destruct j as [|j]; [lia|]. simpl in Hb. destruct i as [|i].
  - injection Ha as <-. rewrite Forall_forall in Hall. apply Hall.
    now apply list_elem_of_lookup_2 in Hb.
  - simpl in Ha. apply (IH i j); [lia|assumption..].
Qed.

End Sorting.

Lemma compare_cases timeOf (a b : Candidate.t) :
  (InterviewerTab.compare timeOf a b <= 0)%Z
  <-> (InterviewerTab.isCompleted a = true /\ InterviewerTab.isCompleted b = false)
      \/ (InterviewerTab.isCompleted a = true /\ InterviewerTab.isCompleted b = true
          /\ (InterviewerTab.scoreOr0 b <= InterviewerTab.scoreOr0 a)%Z)
      \/ (InterviewerTab.isCompleted a = false /\ InterviewerTab.isCompleted b = false
          /\ (timeOf (Candidate.createdAt b) <= timeOf (Candidate.createdAt a))%Z).
Proof.
  unfold InterviewerTab.compare.
  destruct (InterviewerTab.isCompleted a), (InterviewerTab.isCompleted b); simpl;
    intuition (try discriminate; lia).
Qed.

Lemma filteredCandidates_all (candidates : list Candidate.t) :
  InterviewerTab.filteredCandidates candidates "" = candidates.
Proof.
  unfold InterviewerTab.filteredCandidates. apply filter_all.
  apply Forall_forall. intros c _. unfold InterviewerTab.matchesSearch.
  destruct (JS.toLowerCase (Candidate.name c)); reflexivity.
Qed.

(** X13. The dashboard lists exactly the candidates the search text selects,
    each as often as it is stored, and all candidates when the search text is
    empty. In the list every completed interview comes before every unfinished
    one, completed interviews come by score from the highest to the lowest, a
    missing score counting as 0, and unfinished ones by creation date from the
    newest to the oldest. *)
Theorem sortedCandidates_order timeOf (candidates : list Candidate.t) (searchText : string) :
  let listed := InterviewerTab.sortedCandidates timeOf candidates searchText in
  Permutation listed (InterviewerTab.filteredCandidates candidates searchText)
  /\ (forall i j a b,
         i < j -> listed !! i = Some a -> listed !! j = Some b ->
         (InterviewerTab.isCompleted b = true -> InterviewerTab.isCompleted a = true)
         /\ (InterviewerTab.isCompleted a = true -> InterviewerTab.isCompleted b = true ->
             (InterviewerTab.scoreOr0 b <= InterviewerTab.scoreOr0 a)%Z)
         /\ (InterviewerTab.isCompleted a = false -> InterviewerTab.isCompleted b = false ->
             (timeOf (Candidate.createdAt b) <= timeOf (Candidate.createdAt a))%Z))
  /\ Permutation (InterviewerTab.sortedCandidates timeOf candidates "") candidates.
Proof.
  intros listed. subst listed. unfold InterviewerTab.sortedCandidates.
  split; [apply sort_Permutation|]. split.
  - intros i j a b Hij Ha Hb.
    assert (InterviewerTab.compare timeOf a b <= 0)%Z as Hab.
    { apply (sorted_lookup (InterviewerTab.compare timeOf)
               (ES.sort (InterviewerTab.compare timeOf)
                        (InterviewerTab.filteredCandidates candidates searchText)))
        with (i := i) (j := j); try assumption.
      apply sort_sorted.
      - intros x y Hxy. apply compare_cases.
        assert (~ ((InterviewerTab.isCompleted x = true /\ InterviewerTab.isCompleted y = false)
                   \/ (InterviewerTab.isCompleted x = true /\ InterviewerTab.isCompleted y = true
                       /\ (InterviewerTab.scoreOr0 y <= InterviewerTab.scoreOr0 x)%Z)
                   \/ (InterviewerTab.isCompleted x = false
                       /\ InterviewerTab.isCompleted y = false
                       /\ (timeOf (Candidate.createdAt y) <= timeOf (Candidate.createdAt x))%Z)))
          as Hn by (intros H; apply Hxy; now apply compare_cases).
        destruct (InterviewerTab.isCompleted x), (InterviewerTab.isCompleted y);
          intuition (try discriminate; lia).
      - intros x y z Hxy Hyz. apply compare_cases in Hxy, Hyz. apply compare_cases.
        destruct (InterviewerTab.isCompleted x), (InterviewerTab.isCompleted y),
          (InterviewerTab.isCompleted z); intuition (try discriminate; lia). }
    apply compare_cases in Hab.
    destruct (InterviewerTab.isCompleted a), (InterviewerTab.isCompleted b);
      intuition (try discriminate; lia).
  - rewrite sort_Permutation. now rewrite filteredCandidates_all.
Qed.

(** ** The component: effects on a session at a question *)

Lemma initEffect_at_question apiKey net (r s : Chat) (c : Candidate.t) (q : Question.t) :
  activeCandidate r = Some c -> AtQuestion c q ->
  initEffect apiKey net r s
  = (let newTimeLeft := JS.orZ (Candidate.timeLeft c) (Question.timeLimit q) in
     setInitCleanup true
       (setLoading false
          (if negb (timeLeft r =? newTimeLeft)%Z
           then setTimeLeft newTimeLeft (setGenerationTimeoutRef None s)
           else setGenerationTimeoutRef None s)),
     false).
Proof.
  intros Hactive (Hstatus & Hq & Hlt). unfold initEffect. rewrite Hactive, Hstatus.
  rewrite andb_false_r. cbn [InterviewStatus_eqb].
  rewrite (proj2 (Nat.ltb_lt _ _) Hlt).
  destruct (Candidate.questions c) as [|q0 qs] eqn:Hqs; [discriminate|].
  pose proof (lookup_lt_Some _ _ _ Hq) as Hlen.
  rewrite (proj2 (Nat.leb_gt _ _) Hlen). rewrite Hq. reflexivity.
Qed.

Lemma timerEffect_arms (r s : Chat) (c : Candidate.t) (q : Question.t) :
  activeCandidate r = Some c -> AtQuestion c q -> isPaused r = false ->
  timerEffect r s
  = setTimerRef (Some (mkClosure c (answer r)))
      (if (timeLeft r <=? 0)%Z
       then setTimeLeft (JS.orZ (Question.timeLimit q)
                                (getTimeLimit (Candidate.currentQuestionIndex c)))
                        (setTimerRef None s)
       else setTimerRef None s).
Proof.
  intros Hactive (Hstatus & Hq & Hlt) Hpaused. unfold timerEffect.
  rewrite Hactive, Hpaused, Hstatus, Hq. cbn [InterviewStatus_eqb orb].
  rewrite (proj2 (Nat.leb_gt _ _) Hlt). reflexivity.
Qed.

Lemma timerEffect_paused (r s : Chat) :
  isPaused r = true -> timerEffect r s = setTimerRef None s.
Proof.
  intros Hpaused. unfold timerEffect. rewrite Hpaused.
  now destruct (activeCandidate r).
Qed.

Lemma commit_at_question apiKey net (before s : Chat) (c : Candidate.t) (q : Question.t) :
  activeCandidate s = Some c -> AtQuestion c q ->
  commit apiKey net before true s
  = (let s1 := if initCleanup s then setTimerRef None s else s in
     let s2 := if timerDeps before s then setTimerRef None s1 else s1 in
     let s3 := fst (initEffect apiKey net s s2) in
     if timerDeps before s then timerEffect s s3 else s3).
Proof.
  intros Hactive Hq. unfold commit, effects. cbn [andb].
  rewrite (initEffect_at_question apiKey net s _ c q Hactive Hq).
  cbv zeta. cbn [fst snd]. reflexivity.
Qed.

Lemma initEffect_fresh_any apiKey net (r s : Chat) (c : Candidate.t) :
  activeCandidate r = Some c -> Unstarted c -> hasGeneratedQuestions s = false ->
  initEffect apiKey net r s
  = (setInitCleanup true
       (addTask (Generating c)
          (setLoading true
             (setGenerationTimeoutRef (Some (loading r))
                (setHasGeneratedQuestions true
                   (setRequests (snd (testConnection apiKey net (requests s)))
                      (setGenerationTimeoutRef None s)))))),
     false).
Proof.
  intros Hactive (Hstatus & Hquestions & Hindex) Hflag.
  unfold initEffect. rewrite Hactive, Hstatus, Hquestions, Hindex.
  unfold runNet. change (requests (setGenerationTimeoutRef None s)) with (requests s).
  destruct (testConnection apiKey net (requests s)) as [connectionTest log'].
  simpl (hasGeneratedQuestions _). rewrite Hflag.
  cbn [negb andb InterviewStatus_eqb snd].
  simpl (hasGeneratedQuestions _). rewrite Hflag. cbn [negb].
  destruct s; reflexivity.
Qed.

Lemma mount_fresh_any apiKey net (st : Slice.State) log (c : Candidate.t) :
  Slice.activeCandidate st = Some c -> Unstarted c ->
  mount apiKey net st log
  = mkChat st (Candidate.timeLeft c) "" (Candidate.isPaused c) true None false false None
           true [Generating c] (snd (testConnection apiKey net log)) 0.
Proof.
  intros Hactive Hfresh.
  unfold mount, effects.
  assert (activeCandidate (firstRender st log) = Some c) as Hr by exact Hactive.
  cbn [andb]. simpl (initCleanup _). cbv iota.
  rewrite (initEffect_fresh_any apiKey net _ _ c); try assumption; [|reflexivity].
  rewrite (timerEffect_idle _ _ c); [|assumption|].
  2: { destruct Hfresh as (_ & -> & _). reflexivity. }
  unfold firstRender. rewrite Hactive. reflexivity.
Qed.

Lemma generateQuestionsBatch_nonempty apiKey net shuffle now timeoutAt (c : Candidate.t) log :
  exists first rest,
    fst (generateQuestionsBatch apiKey net shuffle now timeoutAt c log) = first :: rest.
Proof.
  destruct (generateQuestionsBatch_spec apiKey net shuffle now timeoutAt c log)
    as [E|((H1 & _) & _)].
  - rewrite E. eexists _, _. reflexivity.
  - destruct (fst _) as [|first rest]; [simpl in H1; lia|]. now eexists _, _.
Qed.

Lemma idle_ticks apiKey net shuffle now isoNow timeoutAt (s : Chat) (n : nat) :
  timerRef s = None ->
  run apiKey net shuffle now isoNow timeoutAt s (repeat Tick n) = s.
Proof.
  intros Hnone. induction n as [|n IH]; [reflexivity|].
  unfold run in *. simpl. now rewrite Hnone.
Qed.

Lemma settle_generating apiKey net shuffle now isoNow timeoutAt (before s : Chat)
      (c : Candidate.t) (first : Question.t) (rest : list Question.t) (log' : list Request) :
  generateQuestionsBatch apiKey net shuffle now timeoutAt c (requests s) = (first :: rest, log') ->
  settle apiKey net shuffle now isoNow timeoutAt (Generating c) before s
  = (let limit := JS.orZ (Question.timeLimit first) (getTimeLimit 0) in
     let c' := withQuestions c (first :: rest) limit in
     let s1 := setHasGeneratedQuestions false (setGenerationTimeoutRef None (setRequests log' s)) in
     commit apiKey net before (replacesActive c' s1)
       (setLoading false (setTimeLeft limit (dispatchUpdate c' s1)))).
Proof. intros H. unfold settle, runNet. rewrite H. reflexivity. Qed.

Lemma replacesActive_same (s : Chat) (c c' : Candidate.t) :
  activeCandidate s = Some c -> Candidate.id c' = Candidate.id c -> replacesActive c' s = true.
Proof.
  intros Hactive Hid. unfold replacesActive. rewrite Hactive, Hid. apply String.eqb_refl.
Qed.

(** X14. When the component is mounted on a session that has not started and is
    not paused, and the generation of its questions settles, the session is at
    its first question and the interview screen is shown, not paused, with the
    time of that question on display; but no interval is running, so that no
    number of seconds passing changes anything: the timer effect depends on the
    question index and the pause flag alone, and neither changed. *)
Theorem first_countdown_is_not_armed
        apiKey net shuffle now isoNow timeoutAt (st : Slice.State) log (c : Candidate.t) :
  Slice.activeCandidate st = Some c ->
  Unstarted c ->
  Candidate.isPaused c = false ->
  let started :=
    step apiKey net shuffle now isoNow timeoutAt (mount apiKey net st log) (Settle 0) in
  (exists c' q, activeCandidate started = Some c' /\ AtQuestion c' q
                /\ Candidate.currentQuestionIndex c' = 0
                /\ timeLeft started = Candidate.timeLeft c')
  /\ mainVisible started = true
  /\ isPaused started = false
  /\ timerRef started = None
  /\ forall n, run apiKey net shuffle now isoNow timeoutAt started (repeat Tick n) = started.
Proof.
  intros Hactive Hfresh Hpaused started. subst started.
  rewrite (mount_fresh_any apiKey net st log c) by assumption. rewrite Hpaused.
  set (before := mkChat _ _ _ _ _ _ _ _ _ _ _ _ _).
  destruct (generateQuestionsBatch_nonempty apiKey net shuffle now timeoutAt c
              (snd (testConnection apiKey net log))) as (first & rest & Hbatch).
  destruct (generateQuestionsBatch apiKey net shuffle now timeoutAt c
              (snd (testConnection apiKey net log))) as [batch log'] eqn:Hrun.
  simpl in Hbatch. subst batch.
  set (limit := JS.orZ (Question.timeLimit first) (getTimeLimit 0)).
  set (c' := withQuestions c (first :: rest) limit).
  set (s1 := setHasGeneratedQuestions false
               (setGenerationTimeoutRef None (setRequests log' (setInFlight [] before)))).
  set (s2 := setLoading false (setTimeLeft limit (dispatchUpdate c' s1))).
  assert (limit <> 0%Z) as Hlimit.
  { subst limit. unfold JS.orZ. destruct (Question.timeLimit first =? 0)%Z eqn:E.
    - discriminate.
    - now apply Z.eqb_neq in E. }
  assert (activeCandidate s2 = Some c') as Hactive'.
  { unfold activeCandidate.
    change (store s2) with (Slice.updateCandidate st (Payload.of_candidate c')).
    now apply (activeCandidate_update st c c'). }
  assert (AtQuestion c' first) as Hat by (repeat split; simpl; lia).
  assert (step apiKey net shuffle now isoNow timeoutAt before (Settle 0)
          = commit apiKey net before true s2) as ->.
  { unfold step. change (inFlight before !! 0) with (Some (Generating c)). cbv iota.
    rewrite (settle_generating _ _ _ _ _ _ _ _ c first rest log') by exact Hrun.
    change (commit apiKey net before (replacesActive c' s1) s2
            = commit apiKey net before true s2).
    now rewrite (replacesActive_same s1 c c') by (exact Hactive || reflexivity). }
  assert (timerDeps before s2 = false) as Hdeps.
  { unfold timerDeps. rewrite Hactive'.
    replace (activeCandidate before) with (Some c) by (symmetry; exact Hactive).
    destruct Hfresh as (_ & _ & Hindex). simpl. rewrite Hindex. reflexivity. }
  rewrite (commit_at_question apiKey net before s2 c' first Hactive' Hat).
  cbv zeta. rewrite Hdeps.
  rewrite (initEffect_at_question apiKey net s2 _ c' first Hactive' Hat).
  cbv zeta. cbn [fst].
  change (Candidate.timeLeft c') with limit.
  replace (JS.orZ limit (Question.timeLimit first)) with limit
    by (unfold JS.orZ; now rewrite (proj2 (Z.eqb_neq _ _) Hlimit)).
  change (timeLeft s2) with limit. rewrite Z.eqb_refl. cbn [negb].
  set (final := setInitCleanup true _).
  assert (timerRef final = None) as Htimer by reflexivity.
  split; [|split; [|split; [|split]]].
  - exists c', first. repeat split; try (simpl; lia).
    unfold activeCandidate. change (store final) with (store s2). exact Hactive'.
  - unfold mainVisible, activeCandidate. change (store final) with (store s2).
    unfold activeCandidate in Hactive'. rewrite Hactive'. reflexivity.
  - reflexivity.
  - exact Htimer.
  - intros n. now apply idle_ticks.
Qed.

Lemma first_countdown_is_not_armed_witness :
  Slice.activeCandidate twoCandidates = Some ada
  /\ Unstarted ada
  /\ timerRef (step "" offline keepOrder 17 clock inTime
                    (mount "" offline twoCandidates []) (Settle 0)) = None
  /\ run "" offline keepOrder 17 clock inTime
         (step "" offline keepOrder 17 clock inTime (mount "" offline twoCandidates [])
               (Settle 0))
         (repeat Tick 20)
     = step "" offline keepOrder 17 clock inTime (mount "" offline twoCandidates []) (Settle 0).
Proof.
  split; [reflexivity|]. split; [repeat split|].
  pose proof (first_countdown_is_not_armed
                "" offline keepOrder 17 clock inTime twoCandidates [] ada
                eq_refl (conj eq_refl (conj eq_refl eq_refl)) eq_refl)
    as (_ & _ & _ & Hidle & Hticks).
  split; [exact Hidle|exact (Hticks 20)].
Defined.

Lemma AtQuestion_withPause (c : Candidate.t) (q : Question.t) (paused : bool) (t : Z) :
  AtQuestion c q -> AtQuestion (withPause c paused t) q.
Proof. intros H. exact H. Qed.

Lemma orZ_nonzero (n d : Z) : n <> 0%Z -> JS.orZ n d = n.
Proof. intros H. unfold JS.orZ. now rewrite (proj2 (Z.eqb_neq _ _) H). Qed.

(** The state a toggle of the pause button leads to, for a session at a
    question with time left on the clock. *)
Lemma togglePause_at_question apiKey net shuffle now isoNow timeoutAt
      (s : Chat) (c : Candidate.t) (q : Question.t) :
  activeCandidate s = Some c -> AtQuestion c q -> loading s = false ->
  (0 < timeLeft s)%Z ->
  let s' := step apiKey net shuffle now isoNow timeoutAt s TogglePause in
  let c' := withPause c (negb (isPaused s)) (timeLeft s) in
  activeCandidate s' = Some c'
  /\ isPaused s' = negb (isPaused s)
  /\ timeLeft s' = timeLeft s
  /\ answer s' = answer s
  /\ loading s' = false
  /\ inFlight s' = inFlight s
  /\ requests s' = requests s
  /\ timerRef s' = if isPaused s then Some (mkClosure c' (answer s)) else None.
Proof.
  intros Hactive Hat Hloading Htime s' c'. subst s'.
  unfold step. rewrite Hactive.
  assert (mainVisible s = true) as ->.
  { unfold mainVisible. rewrite Hactive, Hloading.
    destruct Hat as (-> & _). reflexivity. }
  fold c'.
  set (s2 := dispatchUpdate c' (setIsPaused (negb (isPaused s)) s)).
  assert (activeCandidate s2 = Some c') as Hactive2.
  { unfold activeCandidate.
    change (store s2) with (Slice.updateCandidate (store s) (Payload.of_candidate c')).
    now apply (activeCandidate_update (store s) c c'). }
  assert (AtQuestion c' q) as Hat2 by exact Hat.
  assert (timerDeps s s2 = true) as Hdeps.
  { unfold timerDeps. change (isPaused s2) with (negb (isPaused s)).
    destruct (isPaused s); simpl; now rewrite orb_true_r. }
  rewrite (commit_at_question apiKey net s s2 c' q Hactive2 Hat2).
  cbv zeta. rewrite Hdeps.
  rewrite (initEffect_at_question apiKey net s2 _ c' q Hactive2 Hat2).
  cbv zeta. cbn [fst].
  change (Candidate.timeLeft c') with (timeLeft s).
  rewrite orZ_nonzero by lia.
  change (timeLeft s2) with (timeLeft s). rewrite Z.eqb_refl. cbn [negb].
  set (s3 := setInitCleanup true _).
  assert (store s3 = store s2 /\ isPaused s3 = negb (isPaused s) /\ timeLeft s3 = timeLeft s
          /\ answer s3 = answer s /\ loading s3 = false /\ inFlight s3 = inFlight s
          /\ requests s3 = requests s) as (E1 & E2 & E3 & E4 & E5 & E6 & E7).
  { subst s3. destruct (initCleanup s2); repeat split. }
  clearbody s3. unfold activeCandidate in *.
  destruct (isPaused s) eqn:Hpaused.
  - rewrite (timerEffect_arms s2 s3 c' q Hactive2 Hat2) by reflexivity.
    change (timeLeft s2) with (timeLeft s).
    rewrite (proj2 (Z.leb_gt _ _) Htime).
    set (final := setTimerRef (Some _) _).
    change (store final) with (store s3). change (isPaused final) with (isPaused s3).
    change (timeLeft final) with (timeLeft s3). change (answer final) with (answer s3).
    change (loading final) with (loading s3). change (inFlight final) with (inFlight s3).
    change (requests final) with (requests s3).
    rewrite E1, E2, E3, E4, E5, E6, E7. now repeat split.
  - rewrite (timerEffect_paused s2 s3) by reflexivity.
    set (final := setTimerRef None s3).
    change (store final) with (store s3). change (isPaused final) with (isPaused s3).
    change (timeLeft final) with (timeLeft s3). change (answer final) with (answer s3).
    change (loading final) with (loading s3). change (inFlight final) with (inFlight s3).
    change (requests final) with (requests s3).
    rewrite E1, E2, E3, E4, E5, E6, E7. now repeat split.
Qed.

(** X15. Pausing a session that is at a question, with time left and nothing
    loading, stops the countdown and stores the pause with the time left; while
    paused no number of seconds passing changes anything. Resuming restores the
    same time left, stores the resumption and starts the countdown again. *)
Theorem pause_keeps_the_remaining_time apiKey net shuffle now isoNow timeoutAt
        (s : Chat) (c : Candidate.t) (q : Question.t) :
  activeCandidate s = Some c -> AtQuestion c q ->
  loading s = false -> isPaused s = false -> (0 < timeLeft s)%Z ->
  let paused := step apiKey net shuffle now isoNow timeoutAt s TogglePause in
  let resumed := step apiKey net shuffle now isoNow timeoutAt paused TogglePause in
  (isPaused paused = true
   /\ timerRef paused = None
   /\ (forall n, run apiKey net shuffle now isoNow timeoutAt paused (repeat Tick n) = paused)
   /\ activeCandidate paused = Some (withPause c true (timeLeft s)))
  /\ (isPaused resumed = false
      /\ timeLeft resumed = timeLeft s
      /\ timerRef resumed
         = Some (mkClosure (withPause c false (timeLeft s)) (answer s))
      /\ activeCandidate resumed = Some (withPause c false (timeLeft s))).
Proof.
  intros Hactive Hat Hloading Hpaused Htime paused resumed.
  destruct (togglePause_at_question apiKey net shuffle now isoNow timeoutAt s c q
              Hactive Hat Hloading Htime)
    as (P1 & P2 & P3 & P4 & P5 & P6 & P7 & P8).
  fold paused in P1, P2, P3, P4, P5, P6, P7, P8.
  rewrite Hpaused in P1, P2, P8. cbn [negb] in P1, P2.
  split.
  - repeat split; try assumption. intros n. now apply idle_ticks.
  - assert (0 < timeLeft paused)%Z as Htime' by now rewrite P3.
    destruct (togglePause_at_question apiKey net shuffle now isoNow timeoutAt paused
                (withPause c true (timeLeft s)) q P1 Hat P5 Htime')
      as (R1 & R2 & R3 & R4 & R5 & R6 & R7 & R8).
    fold resumed in R1, R2, R3, R4, R5, R6, R7, R8.
    rewrite P2, P3, ?P4 in *. cbn [negb] in *.
    assert (withPause (withPause c true (timeLeft s)) false (timeLeft s)
            = withPause c false (timeLeft s)) as E by reflexivity.
    rewrite E in R1, R8. now repeat split.
Qed.

Lemma pause_keeps_the_remaining_time_witness :
  let s := run "" offline keepOrder 17 clock inTime
               (mount "" offline Cases.startedStore []) [Tick; Tick; Tick] in
  AtQuestion Cases.adaStarted Cases.firstQuestion
  /\ timeLeft s = 17%Z
  /\ timeLeft (run "" offline keepOrder 17 clock inTime s [TogglePause; TogglePause]) = 17%Z.
Proof.
  intros s.
  assert (AtQuestion Cases.adaStarted Cases.firstQuestion) as Hat
      by (repeat split; repeat constructor).
  assert (activeCandidate s = Some Cases.adaStarted) as Hactive by (vm_compute; reflexivity).
  assert (loading s = false) as Hloading by (vm_compute; reflexivity).
  assert (isPaused s = false) as Hpaused by (vm_compute; reflexivity).
  assert (0 < timeLeft s)%Z as Hleft by (vm_compute; reflexivity).
  assert (timeLeft s = 17%Z) as Hs by (vm_compute; reflexivity).
  split; [exact Hat|]. split; [exact Hs|].
  transitivity (timeLeft s); [|exact Hs].
  apply (pause_keeps_the_remaining_time "" offline keepOrder 17 clock inTime s
           Cases.adaStarted Cases.firstQuestion Hactive Hat Hloading Hpaused Hleft).
Defined.

Lemma settle_submitting apiKey net shuffle now isoNow timeoutAt (before s : Chat)
      (c : Candidate.t) (text : string) (q : Question.t)
      (evaluation : Evaluation) (log' : list Request) :
  questionToAnswer c = Some q ->
  evaluateAnswer apiKey net (Question.question q) (answerToSubmit text)
                 (roleInfo (Candidate.skills c)) (requests s) = (evaluation, log') ->
  settle apiKey net shuffle now isoNow timeoutAt (Submitting c text) before s
  = (let updated := submitted isoNow c q (answerToSubmit text) evaluation in
     let s1 := setRequests log' s in
     let s2 := setAnswer "" (dispatchUpdate updated s1) in
     let s3 := match Candidate.questions c !! (Candidate.currentQuestionIndex c + 1) with
               | Some _ => setTimeLeft (Candidate.timeLeft updated) s2
               | None => s2
               end in
     commit apiKey net before (replacesActive updated s1) (setLoading false s3)).
Proof.
  intros Hq Heval. unfold settle, runNet, submitAnswer. rewrite Hq.
  unfold bind, ret. rewrite Heval. reflexivity.
Qed.

Lemma AtQuestion_questionToAnswer (c : Candidate.t) (q : Question.t) :
  AtQuestion c q -> questionToAnswer c = Some q.
Proof.
  intros (_ & Hq & Hlt). unfold questionToAnswer.
  now rewrite (proj2 (Nat.leb_gt _ _) Hlt).
Qed.

Lemma clickSubmit_at_question apiKey net shuffle now isoNow timeoutAt
      (s : Chat) (c : Candidate.t) (q : Question.t) :
  activeCandidate s = Some c -> AtQuestion c q -> loading s = false -> isPaused s = false ->
  step apiKey net shuffle now isoNow timeoutAt s ClickSubmit
  = addTask (Submitting c (answer s)) (setLoading true s).
Proof.
  intros Hactive Hat Hloading Hpaused. unfold step. rewrite Hactive.
  assert (mainVisible s = true) as ->.
  { unfold mainVisible. rewrite Hactive, Hloading. destruct Hat as (-> & _). reflexivity. }
  rewrite Hpaused. cbn [negb andb]. unfold startSubmit. cbn [captured capturedAnswer].
  now rewrite (AtQuestion_questionToAnswer c q Hat).
Qed.

Lemma getTimeLimit_nonzero (index : nat) (limit : Z) :
  JS.orZ limit (getTimeLimit index) <> 0%Z.
Proof.
  unfold JS.orZ. destruct (limit =? 0)%Z eqn:E; [|now apply Z.eqb_neq in E].
  unfold getTimeLimit. destruct (index <? 2); [discriminate|].
  destruct (index <? 4); discriminate.
Qed.

(** X16. Submitting an answer to a question that is not the last one, in a
    session that is not paused with nothing loading or pending, shows the
    loading state until the evaluation settles; then the store holds the session
    with the answer appended and the index advanced, the text area is empty, the
    time left is the time limit of the next question, or the limit of its
    position when the question carries none, and the countdown runs for the
    updated session with an empty captured answer. *)
Theorem submission_arms_the_next_question apiKey net shuffle now isoNow timeoutAt
        (s : Chat) (c : Candidate.t) (q next : Question.t) :
  activeCandidate s = Some c -> AtQuestion c q ->
  Candidate.questions c !! (Candidate.currentQuestionIndex c + 1) = Some next ->
  Candidate.currentQuestionIndex c + 1 < 6 ->
  loading s = false -> isPaused s = false -> inFlight s = [] ->
  let clicked := step apiKey net shuffle now isoNow timeoutAt s ClickSubmit in
  let settled := step apiKey net shuffle now isoNow timeoutAt clicked (Settle 0) in
  let evaluation :=
    fst (evaluateAnswer apiKey net (Question.question q) (answerToSubmit (answer s))
                        (roleInfo (Candidate.skills c)) (requests s)) in
  let updated := submitted isoNow c q (answerToSubmit (answer s)) evaluation in
  loading clicked = true
  /\ activeCandidate settled = Some updated
  /\ AtQuestion updated next
  /\ answer settled = ""
  /\ loading settled = false
  /\ inFlight settled = []
  /\ timeLeft settled
     = JS.orZ (Question.timeLimit next) (getTimeLimit (Candidate.currentQuestionIndex c + 1))
  /\ timerRef settled = Some (mkClosure updated "").
Proof.
  intros Hactive Hat Hnext Hlt Hloading Hpaused Hidle clicked settled evaluation updated.
  subst clicked settled.
  rewrite (clickSubmit_at_question apiKey net shuffle now isoNow timeoutAt s c q)
    by assumption.
  set (clicked := addTask _ _).
  split; [reflexivity|].
  destruct (evaluateAnswer apiKey net (Question.question q) (answerToSubmit (answer s))
                           (roleInfo (Candidate.skills c)) (requests s))
    as [evaluation0 log'] eqn:Heval.
  simpl in evaluation. subst evaluation.
  set (nextTime := JS.orZ (Question.timeLimit next)
                          (getTimeLimit (Candidate.currentQuestionIndex c + 1))).
  assert (Candidate.timeLeft updated = nextTime) as Htime.
  { subst updated nextTime. unfold submitted. cbv zeta. rewrite Hnext. reflexivity. }
  assert (nextTime <> 0%Z) as Hnonzero by apply getTimeLimit_nonzero.
  assert (AtQuestion updated next) as Hat'.
  { destruct Hat as (Hstatus & _ & _). repeat split; [exact Hstatus|exact Hnext|exact Hlt]. }
  set (s1 := setRequests log' (setInFlight [] clicked)).
  set (s4 := setLoading false
               (setTimeLeft nextTime (setAnswer "" (dispatchUpdate updated s1)))).
  assert (activeCandidate s4 = Some updated) as Hactive4.
  { unfold activeCandidate.
    change (store s4) with (Slice.updateCandidate (store s) (Payload.of_candidate updated)).
    now apply (activeCandidate_update (store s) c updated). }
  assert (step apiKey net shuffle now isoNow timeoutAt clicked (Settle 0)
          = commit apiKey net clicked true s4) as ->.
  { unfold step.
    replace (inFlight clicked !! 0) with (Some (Submitting c (answer s)))
      by (subst clicked; unfold addTask; simpl; now rewrite Hidle).
    cbv iota.
    rewrite (settle_submitting _ _ _ _ _ _ _ _ c (answer s) q evaluation0 log');
      [|now apply AtQuestion_questionToAnswer|exact Heval].
    cbv zeta. rewrite Hnext. fold updated. rewrite Htime.
    replace (inFlight clicked) with [Submitting c (answer s)]
      by (subst clicked; unfold addTask; simpl; now rewrite Hidle).
    change (commit apiKey net clicked (replacesActive updated s1) s4
            = commit apiKey net clicked true s4).
    now rewrite (replacesActive_same s1 c updated) by (exact Hactive || reflexivity). }
  assert (timerDeps clicked s4 = true) as Hdeps.
  { unfold timerDeps. rewrite Hactive4.
    replace (activeCandidate clicked) with (Some c) by (symmetry; exact Hactive).
    simpl. replace (_ =? _) with false; [reflexivity|].
    symmetry. apply Nat.eqb_neq. lia. }
  rewrite (commit_at_question apiKey net clicked s4 updated next Hactive4 Hat').
  cbv zeta. rewrite Hdeps.
  rewrite (initEffect_at_question apiKey net s4 _ updated next Hactive4 Hat').
  cbv zeta. cbn [fst]. rewrite Htime, (orZ_nonzero nextTime) by assumption.
  change (timeLeft s4) with nextTime. rewrite Z.eqb_refl. cbn [negb].
  set (s5 := setInitCleanup true _).
  assert (store s5 = store s4 /\ timeLeft s5 = nextTime /\ answer s5 = ""
          /\ loading s5 = false /\ inFlight s5 = []) as (E1 & E2 & E3 & E4 & E5).
  { subst s5. destruct (initCleanup s4); repeat split. }
  clearbody s5.
  rewrite (timerEffect_arms s4 s5 updated next Hactive4 Hat') by exact Hpaused.
  change (timeLeft s4) with nextTime. change (answer s4) with "".
  unfold activeCandidate in *.
  set (final := setTimerRef (Some _) _).
  assert (timeLeft final = nextTime) as Hfinal.
  { subst final. destruct (nextTime <=? 0)%Z; [reflexivity|exact E2]. }
  assert (store final = store s5 /\ answer final = answer s5 /\ loading final = loading s5
          /\ inFlight final = inFlight s5) as (F1 & F2 & F3 & F4)
      by (subst final; destruct (nextTime <=? 0)%Z; repeat split).
  rewrite F1, F2, F3, F4, E1, E3, E4, E5, Hfinal.
  split; [exact Hactive4|]. split; [exact Hat'|]. repeat split.
Qed.

Lemma submission_arms_the_next_question_witness :
  AtQuestion Cases.adaStarted Cases.firstQuestion
  /\ timeLeft (run "" offline keepOrder 17 clock inTime
                   (mount "" offline Cases.startedStore [])
                   [Typing "They differ in scope."; ClickSubmit; Settle 0])
     = 20%Z
  /\ answer (run "" offline keepOrder 17 clock inTime
                 (mount "" offline Cases.startedStore [])
                 [Typing "They differ in scope."; ClickSubmit; Settle 0])
     = "".
Proof.
  split; [repeat split; repeat constructor|].
  pose proof (submission_arms_the_next_question
                "" offline keepOrder 17 clock inTime
                (step "" offline keepOrder 17 clock inTime
                      (mount "" offline Cases.startedStore [])
                      (Typing "They differ in scope."))
                Cases.adaStarted Cases.firstQuestion Cases.secondQuestion
                eq_refl (conj eq_refl (conj eq_refl (le_n_S _ _ (Nat.le_0_l 5))))
                eq_refl (le_n_S _ _ (le_n_S _ _ (Nat.le_0_l 4)))
                eq_refl eq_refl eq_refl)
    as (_ & _ & _ & Hanswer & _ & _ & Htime & _).
  split; [exact Htime|exact Hanswer].
Defined.

Lemma initEffect_after_last apiKey net (r s : Chat) (c : Candidate.t) :
  activeCandidate r = Some c ->
  Candidate.interviewStatus c = in_progress ->
  Candidate.currentQuestionIndex c = 6 ->
  Candidate.questions c <> [] ->
  Candidate.score c = None ->
  hasFinishedInterview s = false ->
  initEffect apiKey net r s
  = (setInitCleanup true
       (addTask (Finishing c)
          (setLoading true
             (setHasFinishedInterview true (setGenerationTimeoutRef None s)))),
     false).
Proof.
  intros Hactive Hstatus Hindex Hquestions Hscore Hflag.
  unfold initEffect. rewrite Hactive, Hstatus, Hindex, Hscore.
  rewrite andb_false_r. cbn [InterviewStatus_eqb Nat.ltb Nat.leb andb noScore].
  destruct (Candidate.questions c) as [|q0 qs]; [contradiction|].
  cbn [length Nat.eqb negb].
  change (hasFinishedInterview (setGenerationTimeoutRef None s))
    with (hasFinishedInterview s).
  rewrite Hflag. reflexivity.
Qed.

Lemma timerEffect_after_last (r s : Chat) (c : Candidate.t) :
  activeCandidate r = Some c -> 6 <= Candidate.currentQuestionIndex c ->
  timerEffect r s = setTimerRef None s.
Proof.
  intros Hactive Hindex. unfold timerEffect. rewrite Hactive.
  rewrite (proj2 (Nat.leb_le _ _) Hindex). now rewrite !orb_true_r.
Qed.

Lemma settle_finishing apiKey net shuffle now isoNow timeoutAt (before s : Chat)
      (c : Candidate.t) :
  settle apiKey net shuffle now isoNow timeoutAt (Finishing c) before s
  = (let summary :=
       generateSummary apiKey net c (roleInfo (Candidate.skills c)) (requests s) in
     let done := withCompletion c (averageScore (Candidate.answers c)) (fst summary) isoNow in
     let s1 := setRequests (snd summary) s in
     commit apiKey net before (replacesActive done s1)
       (setHasFinishedInterview false (setLoading false (dispatchUpdate done s1)))).
Proof.
  unfold settle, runNet. rewrite finishInterview_unfold. reflexivity.
Qed.

(** X17. Submitting the answer to the sixth question of a session of six
    questions leaves, once the evaluation settles, the call of [finishInterview]
    as the one pending task, with the loading state shown and no countdown
    running; when that settles the session is completed with the six answers,
    the score that [averageScore] computes from them in floating-point
    arithmetic and a summary that is not empty, and nothing is pending, loading
    or counting down. *)
Theorem sixth_answer_completes_the_interview apiKey net shuffle now isoNow timeoutAt
        (s : Chat) (c : Candidate.t) (q : Question.t) :
  activeCandidate s = Some c -> AtQuestion c q ->
  Candidate.currentQuestionIndex c = 5 ->
  Candidate.questions c !! 6 = None ->
  Candidate.score c = None ->
  loading s = false -> isPaused s = false -> inFlight s = [] ->
  hasFinishedInterview s = false ->
  let answered := run apiKey net shuffle now isoNow timeoutAt s [ClickSubmit; Settle 0] in
  let finished := step apiKey net shuffle now isoNow timeoutAt answered (Settle 0) in
  let evaluation :=
    fst (evaluateAnswer apiKey net (Question.question q) (answerToSubmit (answer s))
                        (roleInfo (Candidate.skills c)) (requests s)) in
  let updated := submitted isoNow c q (answerToSubmit (answer s)) evaluation in
  (inFlight answered = [Finishing updated]
   /\ loading answered = true
   /\ timerRef answered = None
   /\ activeCandidate answered = Some updated)
  /\ exists done,
      activeCandidate finished = Some done
      /\ Candidate.interviewStatus done = completed
      /\ Candidate.answers done = Candidate.answers updated
      /\ Candidate.score done = Some (averageScore (Candidate.answers updated))
      /\ Candidate.summary done <> ""
      /\ inFlight finished = []
      /\ loading finished = false
      /\ timerRef finished = None.
Proof.
  intros Hactive Hat Hindex Hlast Hscore Hloading Hpaused Hidle Hflag
         answered finished evaluation updated.
  subst finished answered. unfold run. cbn [fold_left].
  rewrite (clickSubmit_at_question apiKey net shuffle now isoNow timeoutAt s c q)
    by assumption.
  set (clicked := addTask _ _).
  destruct (evaluateAnswer apiKey net (Question.question q) (answerToSubmit (answer s))
                           (roleInfo (Candidate.skills c)) (requests s))
    as [evaluation0 log'] eqn:Heval.
  simpl in evaluation. subst evaluation.
  assert (Candidate.questions c <> []) as Hquestions.
  { destruct Hat as (_ & Hq & _). intros E. rewrite E in Hq. discriminate. }
  set (s1 := setRequests log' (setInFlight [] clicked)).
  set (s4 := setLoading false (setAnswer "" (dispatchUpdate updated s1))).
  assert (activeCandidate s4 = Some updated) as Hactive4.
  { unfold activeCandidate.
    change (store s4) with (Slice.updateCandidate (store s) (Payload.of_candidate updated)).
    now apply (activeCandidate_update (store s) c updated). }
  assert (step apiKey net shuffle now isoNow timeoutAt clicked (Settle 0)
          = commit apiKey net clicked true s4) as ->.
  { unfold step.
    replace (inFlight clicked !! 0) with (Some (Submitting c (answer s)))
      by (subst clicked; unfold addTask; simpl; now rewrite Hidle).
    cbv iota.
    rewrite (settle_submitting _ _ _ _ _ _ _ _ c (answer s) q evaluation0 log');
      [|now apply AtQuestion_questionToAnswer|exact Heval].
    cbv zeta. rewrite Hindex. change (5 + 1) with 6. rewrite Hlast. fold updated.
    replace (inFlight clicked) with [Submitting c (answer s)]
      by (subst clicked; unfold addTask; simpl; now rewrite Hidle).
    change (commit apiKey net clicked (replacesActive updated s1) s4
            = commit apiKey net clicked true s4).
    now rewrite (replacesActive_same s1 c updated) by (exact Hactive || reflexivity). }
  assert (Candidate.currentQuestionIndex updated = 6) as Hindex'
      by (subst updated; simpl; now rewrite Hindex).
  assert (timerDeps clicked s4 = true) as Hdeps.
  { unfold timerDeps. rewrite Hactive4.
    replace (activeCandidate clicked) with (Some c) by (symmetry; exact Hactive).
    simpl. now rewrite Hindex. }
  assert (commit apiKey net clicked true s4
          = setTimerRef None
              (setInitCleanup true
                 (addTask (Finishing updated)
                    (setLoading true
                       (setHasFinishedInterview true
                          (setGenerationTimeoutRef None
                             (setTimerRef None
                                (if initCleanup s4 then setTimerRef None s4 else s4))))))))
    as ->.
  { unfold commit, effects. rewrite Hdeps. cbn [andb].
    rewrite (initEffect_after_last apiKey net s4 _ updated); try assumption.
    - cbn [fst snd]. now rewrite (timerEffect_after_last s4 _ updated) by (assumption || lia).
    - destruct Hat as (Hstatus & _). exact Hstatus.
    - now destruct (initCleanup s4). }
  set (answered := setTimerRef None _).
  assert (inFlight answered = [Finishing updated] /\ loading answered = true
          /\ timerRef answered = None /\ store answered = store s4
          /\ isPaused answered = isPaused s /\ initCleanup answered = true)
    as (A1 & A2 & A3 & A4 & A5 & A6).
  { subst answered. unfold addTask. destruct (initCleanup s4); repeat split. }
  split.
  { unfold activeCandidate. rewrite A4. now repeat split. }
  clearbody answered.
  unfold step. rewrite A1. cbn [lookup list_lookup]. cbv iota.
  rewrite settle_finishing. cbv zeta. cbn [delete list_delete].
  set (summary := generateSummary apiKey net updated (roleInfo (Candidate.skills updated))
                                  (requests (setInFlight [] answered))).
  set (done := withCompletion updated (averageScore (Candidate.answers updated))
                              (fst summary) isoNow).
  set (s6 := setRequests (snd summary) (setInFlight [] answered)).
  set (s7 := setHasFinishedInterview false (setLoading false (dispatchUpdate done s6))).
  assert (activeCandidate s6 = Some updated) as Hactive6.
  { unfold activeCandidate. change (store s6) with (store answered). now rewrite A4. }
  assert (activeCandidate s7 = Some done) as Hactive7.
  { unfold activeCandidate.
    change (store s7)
      with (Slice.updateCandidate (store answered) (Payload.of_candidate done)).
    apply (activeCandidate_completion (store answered) updated done);
      [|reflexivity|discriminate].
    now rewrite A4. }
  rewrite (replacesActive_same s6 updated done) by (exact Hactive6 || reflexivity).
  assert (timerDeps answered s7 = false) as Hdeps7.
  { unfold timerDeps. rewrite Hactive7. unfold activeCandidate at 1. rewrite A4.
    unfold activeCandidate in Hactive4. rewrite Hactive4. simpl.
    rewrite Nat.eqb_refl. change (isPaused s7) with (isPaused answered).
    now destruct (isPaused answered). }
  exists done.
  unfold commit, effects. rewrite Hdeps7. cbn [andb].
  rewrite (initEffect_completed apiKey net s7 _ done Hactive7) by reflexivity.
  cbn [fst snd].
  set (final := setInitCleanup false _).
  assert (store final = store s7 /\ inFlight final = [] /\ loading final = false
          /\ timerRef final = None) as (F1 & F2 & F3 & F4).
  { subst final. change (initCleanup s7) with (initCleanup answered). rewrite A6.
    repeat split. }
  unfold activeCandidate in *. rewrite F1.
  split; [exact Hactive7|]. split; [reflexivity|]. split; [reflexivity|].
  split; [reflexivity|]. split; [|now repeat split].
  subst done. simpl. apply generateSummary_nonempty.
Qed.

Lemma sixth_answer_completes_the_interview_witness :
  let s := mount "" offline Cases.lastStore [] in
  let finished :=
    step "" offline keepOrder 17 clock inTime
         (run "" offline keepOrder 17 clock inTime s [ClickSubmit; Settle 0]) (Settle 0) in
  AtQuestion Cases.adaAtLast Cases.lastQuestion
  /\ exists done,
      activeCandidate finished = Some done
      /\ Candidate.interviewStatus done = completed
      /\ length (Candidate.answers done) = 6
      /\ Candidate.score done = Some 67%Z.
Proof.
  intros s finished.
  assert (AtQuestion Cases.adaAtLast Cases.lastQuestion) as Hat
      by (repeat split; repeat constructor).
  split; [exact Hat|].
  assert (activeCandidate s = Some Cases.adaAtLast) as Hactive by (vm_compute; reflexivity).
  assert (loading s = false) as Hloading by (vm_compute; reflexivity).
  assert (isPaused s = false) as Hpaused by (vm_compute; reflexivity).
  assert (inFlight s = []) as Hflight by (vm_compute; reflexivity).
  assert (hasFinishedInterview s = false) as Hflag by (vm_compute; reflexivity).
  destruct (proj2 (sixth_answer_completes_the_interview
                     "" offline keepOrder 17 clock inTime s
                     Cases.adaAtLast Cases.lastQuestion
                     Hactive Hat eq_refl eq_refl eq_refl Hloading Hpaused Hflight Hflag))
    as (done & Hdone & Hstatus & Hanswers & Hscore & _).
  exists done. split; [exact Hdone|]. split; [exact Hstatus|].
  rewrite Hanswers, Hscore. split; vm_compute; reflexivity.
Defined.

(** ** The component without a credential *)

Lemma evaluateAnswer_without_key apiKey net question answer position log :
  checkApiKey apiKey = false ->
  evaluateAnswer apiKey net question answer position log
  = (mkEvaluation 5 "Using default evaluation due to missing API key.", log).
Proof. intros H. unfold evaluateAnswer. now rewrite H. Qed.

Lemma generateSummary_without_key apiKey net (candidateData : Candidate.t) position log :
  checkApiKey apiKey = false ->
  generateSummary apiKey net candidateData position log
  = ("Using default summary due to missing API key.", log).
Proof. intros H. unfold generateSummary. now rewrite H. Qed.

Lemma submitAnswer_without_key apiKey net isoNow (active : Candidate.t) answer log :
  checkApiKey apiKey = false ->
  submitAnswer apiKey net isoNow active answer log
  = (match questionToAnswer active with
     | Some q =>
         Some (submitted isoNow active q (answerToSubmit answer)
                 (mkEvaluation 5 "Using default evaluation due to missing API key."))
     | None => None
     end, log).
Proof.
  intros H. unfold submitAnswer. destruct (questionToAnswer active) as [q|]; [|reflexivity].
  unfold bind. now rewrite evaluateAnswer_without_key.
Qed.

Lemma finishInterview_without_key apiKey net isoNow (active : Candidate.t) log :
  checkApiKey apiKey = false ->
  finishInterview apiKey net isoNow active log
  = (withCompletion active (averageScore (Candidate.answers active))
                    "Using default summary due to missing API key." isoNow, log).
Proof.
  intros H. unfold finishInterview, bind. now rewrite generateSummary_without_key.
Qed.

Lemma requests_runNet {A} (m : Net A) (s : Chat) :
  snd (m (requests s)) = requests s -> requests (snd (runNet m s)) = requests s.
Proof. unfold runNet. destruct (m (requests s)). simpl. intros ->. now destruct s. Qed.

Lemma requests_timerEffect (r s : Chat) : requests (timerEffect r s) = requests s.
Proof.
  unfold timerEffect.
  destruct (activeCandidate r); [|reflexivity].
  destruct (_ || _ || _); [reflexivity|].
  destruct (_ !! _); [|reflexivity].
  destruct (timeLeft r <=? 0)%Z; reflexivity.
Qed.

Section WithoutKey.

Variables (apiKey : string) (net : Network) (shuffle : list string -> list string).
Variables (now : nat) (isoNow : string) (timeoutAt : nat -> option nat).

Hypothesis no_key : checkApiKey apiKey = false.

Lemma requests_initEffect (r s : Chat) :
  requests (fst (initEffect apiKey net r s)) = requests s.
Proof.
  unfold initEffect.
  destruct (activeCandidate r); [|reflexivity].
  set (s0 := if _ && _ then snd (runNet (testConnection apiKey net) _) else _).
  assert (requests s0 = requests s) as E.
  { subst s0. destruct (_ && _); [|reflexivity].
    rewrite requests_runNet; [reflexivity|].
    now rewrite testConnection_without_key. }
  clearbody s0.
  repeat match goal with
         | |- context [if ?x then _ else _] => destruct x
         | |- context [match ?x with _ => _ end] => destruct x
         end; chat_unfold; assumption.
Qed.

Lemma requests_effects (runInit runTimer : bool) (r s : Chat) :
  requests (fst (effects apiKey net runInit runTimer r s)) = requests s.
Proof.
  unfold effects.
  set (s1 := if runInit && initCleanup s then setTimerRef None s else s).
  assert (requests s1 = requests s) as E1 by (subst s1; now destruct (runInit && initCleanup s)).
  clearbody s1.
  set (s2 := if runTimer then setTimerRef None s1 else s1).
  assert (requests s2 = requests s) as E2 by (subst s2; now destruct runTimer).
  clearbody s2.
  destruct runInit.
  - pose proof (requests_initEffect r s2) as H3.
    destruct (initEffect apiKey net r s2) as [s3 dispatched]. simpl in *.
    destruct runTimer; simpl; [rewrite requests_timerEffect|]; congruence.
  - destruct runTimer; simpl; [rewrite requests_timerEffect|]; congruence.
Qed.

Lemma requests_commit (before : Chat) (dispatched : bool) (s : Chat) :
  requests (commit apiKey net before dispatched s) = requests s.
Proof.
  unfold commit.
  pose proof (requests_effects dispatched (timerDeps before s) s s) as H1.
  destruct (effects apiKey net dispatched (timerDeps before s) s s) as [s1 again].
  simpl in *. destruct again; [|assumption].
  now rewrite requests_effects.
Qed.

Lemma requests_mount (st : Slice.State) (log : list Request) :
  requests (mount apiKey net st log) = log.
Proof.
  unfold mount.
  pose proof (requests_effects true true (firstRender st log) (firstRender st log)) as H1.
  destruct (effects apiKey net true true (firstRender st log) (firstRender st log))
    as [s1 again].
  simpl in H1. destruct again; [|exact H1].
  now rewrite requests_effects.
Qed.

Lemma requests_startSubmit (cl : Closure) (s : Chat) :
  requests (startSubmit cl s) = requests s.
Proof. unfold startSubmit. now destruct (questionToAnswer _). Qed.

Lemma requests_settle (task : Task) (before s : Chat) :
  requests (settle apiKey net shuffle now isoNow timeoutAt task before s) = requests s.
Proof.
  destruct task as [active|active text|active]; unfold settle.
  - pose proof (requests_runNet (generateQuestionsBatch apiKey net shuffle now timeoutAt active) s)
      as Hlog.
    rewrite generateQuestionsBatch_without_key in Hlog by exact no_key.
    specialize (Hlog eq_refl).
    destruct (runNet _ s) as [batch s1]. simpl in Hlog.
    destruct batch; [exact Hlog|]. now rewrite requests_commit.
  - pose proof (requests_runNet (submitAnswer apiKey net isoNow active text) s) as Hlog.
    rewrite submitAnswer_without_key in Hlog by exact no_key.
    specialize (Hlog eq_refl).
    destruct (runNet _ s) as [result s1]. simpl in Hlog.
    destruct result; [|exact Hlog]. rewrite requests_commit.
    now destruct (_ !! _).
  - pose proof (requests_runNet (finishInterview apiKey net isoNow active) s) as Hlog.
    rewrite finishInterview_without_key in Hlog by exact no_key.
    specialize (Hlog eq_refl).
    destruct (runNet _ s) as [updated s1]. simpl in Hlog.
    now rewrite requests_commit.
Qed.

Lemma requests_step (s : Chat) (e : Event) :
  requests (step apiKey net shuffle now isoNow timeoutAt s e) = requests s.
Proof.
  destruct e as [text| | | |i|i| |]; simpl.
  - now destruct (_ && _).
  - destruct (activeCandidate s); [|reflexivity].
    destruct (mainVisible s); [|reflexivity]. now rewrite requests_commit.
  - destruct (activeCandidate s); [|reflexivity].
    destruct (_ && _); [|reflexivity]. now rewrite requests_startSubmit.
  - destruct (timerRef s); [|reflexivity].
    destruct (_ <=? 0)%Z; [|reflexivity]. now rewrite requests_startSubmit.
  - destruct (inFlight s !! i); [|reflexivity]. now rewrite requests_settle.
  - destruct (inFlight s !! i) as [[| |]|]; reflexivity.
  - now destruct (generationTimeoutRef s) as [[|]|].
  - now rewrite requests_commit.
Qed.

Lemma requests_run (events : list Event) (s : Chat) :
  requests (run apiKey net shuffle now isoNow timeoutAt s events) = requests s.
Proof.
  revert s. induction events as [|e events IH]; intros s; [reflexivity|].
  unfold run in *. simpl. now rewrite IH, requests_step.
Qed.

End WithoutKey.

(** X18. With a key that [checkApiKey] refuses, the component sends no request,
    whatever the store it is mounted on and whatever events follow. Every answer
    submitted to a question is then recorded with the score 5 and the notice of
    the missing key as feedback, and [finishInterview] completes the session
    with the score that [averageScore] computes from the recorded answers in
    floating-point arithmetic and the notice of the missing key as summary. *)
Theorem no_credential_no_request apiKey net shuffle now isoNow timeoutAt :
  checkApiKey apiKey = false ->
  (forall st log events,
      requests (run apiKey net shuffle now isoNow timeoutAt (mount apiKey net st log) events)
      = log)
  /\ (forall (active : Candidate.t) q answer log,
         questionToAnswer active = Some q ->
         exists updated,
           submitAnswer apiKey net isoNow active answer log = (Some updated, log)
           /\ Candidate.answers updated
              = Candidate.answers active
                ++ [Answer.mk (Question.id q) (answerToSubmit answer) (Some 5%Q)
                      (Some "Using default evaluation due to missing API key.") isoNow])
  /\ (forall (active : Candidate.t) log,
         exists done,
           finishInterview apiKey net isoNow active log = (done, log)
           /\ Candidate.interviewStatus done = completed
           /\ Candidate.score done = Some (averageScore (Candidate.answers active))
           /\ Candidate.summary done = "Using default summary due to missing API key.").
Proof.
  intros Hkey. split; [|split].
  - intros st log events. rewrite requests_run by exact Hkey. now apply requests_mount.
  - intros active q answer log Hq. eexists. split.
    + rewrite submitAnswer_without_key by exact Hkey. now rewrite Hq.
    + reflexivity.
  - intros active log. eexists. split.
    + now apply finishInterview_without_key.
    + repeat split.
Qed.

Lemma no_credential_no_request_witness :
  checkApiKey "pplx" = false
  /\ requests (run "pplx" terse keepOrder 17 clock inTime (mount "pplx" terse twoCandidates [])
                   [Settle 0; ClickSubmit; Settle 0])
     = [].
Proof.
  split; [reflexivity|].
  exact (proj1 (no_credential_no_request "pplx" terse keepOrder 17 clock inTime eq_refl)
               twoCandidates [] [Settle 0; ClickSubmit; Settle 0]).
Defined.

(** ** The tabs, the detail view and the shell *)

Lemma find_app_last {A} (f : A -> bool) (xs : list A) (y : A) :
  JS.find f (xs ++ [y])
  = match JS.find f xs with
    | Some x => Some x
    | None => if f y then Some y else None
    end.
Proof.
  induction xs as [|x r IH]; simpl; [reflexivity|].
  now destruct (f x).
Qed.

Lemma find_none {A} (f : A -> bool) (xs : list A) :
  Forall (fun x => f x = false) xs -> JS.find f xs = None.
Proof.
  induction 1 as [|x r Hx _ IH]; simpl; [reflexivity|]. now rewrite Hx.
Qed.

Lemma showNat_nonempty (n : nat) : exists c t, JS.showNat n = String c t.
Proof.
  destruct (JS.showNat n) as [|c t] eqn:E; [|now exists c, t].
  pose proof (digitsToZ_showNat n) as H. rewrite E in H.
  assert (JS.showNat 0 = "0") as H0 by reflexivity.
  assert (n = 0) as -> by (simpl in H; lia).
  rewrite H0 in E. discriminate.
Qed.

(** X19. [onFinish] appends the candidate it builds from the form and selects
    its id, and the tab shows the interview component. The session the store
    then resolves is the first stored candidate that already carries this id,
    when there is one, and the new candidate otherwise; when no stored candidate
    carries the id, the component mounted on the store starts the generation of
    questions for the new candidate, as its one pending task, with the loading
    state shown and no countdown running. *)
Theorem onFinish_opens_a_session apiKey net (state : Slice.State)
        (values : IntervieweeTab.Values) (now : nat) (isoNow : string) (log : list Request) :
  let candidate := IntervieweeTab.candidateData values now isoNow in
  let opened := IntervieweeTab.onFinish state values now isoNow in
  Slice.candidates opened = Slice.candidates state ++ [candidate]
  /\ Slice.activeCandidate opened
     = Some (default candidate
               (JS.find (Slice.idMatches (Some (JS.showNat now))) (Slice.candidates state)))
  /\ (forall D (parsedData : option D),
         IntervieweeTab.render parsedData (Some candidate) opened
         = IntervieweeTab.InterviewChat)
  /\ (Forall (fun c => Candidate.id c <> JS.showNat now) (Slice.candidates state) ->
      Slice.activeCandidate opened = Some candidate
      /\ mount apiKey net opened log
         = mkChat opened 0 "" false true None false false None true
                  [Generating candidate] (snd (testConnection apiKey net log)) 0).
Proof.
  intros candidate opened.
  assert (Slice.activeCandidate opened
          = Some (default candidate
                    (JS.find (Slice.idMatches (Some (JS.showNat now)))
                             (Slice.candidates state)))) as Hactive.
  { unfold Slice.activeCandidate, opened, IntervieweeTab.onFinish. simpl.
    rewrite find_app_last. destruct (JS.find _ _); [reflexivity|].
    simpl. now rewrite String.eqb_refl. }
  assert (Forall (fun c => Candidate.id c <> JS.showNat now) (Slice.candidates state) ->
          Slice.activeCandidate opened = Some candidate) as Hnew.
  { intros Hfresh. rewrite Hactive, find_none; [reflexivity|].
    eapply Forall_impl; [exact Hfresh|]. intros c Hc. simpl. now apply String.eqb_neq. }
  split; [reflexivity|]. split; [exact Hactive|]. split; [reflexivity|].
  intros Hfresh. split; [now apply Hnew|].
  rewrite (mount_fresh_any apiKey net opened log candidate); [reflexivity|now apply Hnew|].
  repeat split.
Qed.

Lemma onFinish_opens_a_session_witness :
  let candidate := IntervieweeTab.candidateData Cases.adaValues 17 clock in
  let opened := IntervieweeTab.onFinish twoCandidates Cases.adaValues 17 clock in
  Candidate.id candidate = "17"
  /\ Slice.activeCandidate opened = Some candidate
  /\ inFlight (mount "" offline opened []) = [Generating candidate].
Proof.
  intros candidate opened. split; [reflexivity|].
  destruct (proj2 (proj2 (proj2 (onFinish_opens_a_session
                                   "" offline twoCandidates Cases.adaValues 17 clock []))))
    as [Hactive Hmount]; [repeat constructor; discriminate|].
  split; [exact Hactive|]. fold candidate opened in Hmount. now rewrite Hmount.
Defined.

Lemma findIndex_first (candidates : list Candidate.t) (index : nat) (stored : Candidate.t)
      (candidateId : string) :
  candidates !! index = Some stored ->
  Candidate.id stored = candidateId ->
  (forall j c, j < index -> candidates !! j = Some c -> Candidate.id c <> candidateId) ->
  JS.findIndex (Slice.idMatches (Some candidateId)) candidates = Some index.
Proof.
  intros Hstored Hid Hfirst. apply findIndex_Some. exists stored.
  split; [assumption|]. split; [simpl; now apply String.eqb_eq|].
  intros j c Hj Hc. simpl. apply String.eqb_neq. now apply (Hfirst j).
Qed.

(** X20. Restarting the interview of a stored candidate resets the first entry
    with its id, closes the session and shows the tabs; the welcome-back dialog
    opens and lists the reset candidate. Selecting it there makes it the current
    candidate, but the tab does not show the interview component for it: without
    a candidate submitted in this visit it shows the workflow, at the upload
    step or, with a parsed resume, at the form. *)
Theorem restarted_interview_is_not_resumed (state : Slice.State) (candidate : Candidate.t)
        (index : nat) (stored : Candidate.t) :
  Slice.candidates state !! index = Some stored ->
  Candidate.id stored = Candidate.id candidate ->
  (forall j c, j < index -> Slice.candidates state !! j = Some c ->
               Candidate.id c <> Candidate.id candidate) ->
  let restarted := InterviewerTab.restartInterview state candidate in
  let selected :=
    IntervieweeTab.selectUnfinishedSession restarted (Candidate.id candidate) in
  Slice.candidates restarted = <[index := Slice.resetCandidate stored]> (Slice.candidates state)
  /\ Slice.activeCandidate restarted = None
  /\ App.renderContent restarted = App.Tabs (Slice.activeTab state)
  /\ IntervieweeTab.opensWelcomeBack restarted = true
  /\ Slice.resetCandidate stored
     ∈ IntervieweeTab.unfinishedCandidates (Slice.candidates restarted)
  /\ Slice.activeCandidate selected = Some (Slice.resetCandidate stored)
  /\ (forall D (parsedData : option D),
         IntervieweeTab.render parsedData None selected
         = IntervieweeTab.Workflow (match parsedData with Some _ => 1 | None => 0 end)).
Proof.
  intros Hstored Hid Hfirst restarted selected.
  pose proof (findIndex_first _ _ _ _ Hstored Hid Hfirst) as Hindex.
  assert (Slice.candidates restarted
          = <[index := Slice.resetCandidate stored]> (Slice.candidates state)) as Hcandidates.
  { unfold restarted, InterviewerTab.restartInterview, Slice.resetInterview.
    now rewrite Hindex, Hstored. }
  assert (Slice.resetCandidate stored ∈ Slice.candidates restarted) as Hin.
  { rewrite Hcandidates. apply (list_elem_of_lookup_2 _ index).
    apply list_lookup_insert_eq. now apply lookup_lt_Some in Hstored. }
  assert (Slice.resetCandidate stored
          ∈ IntervieweeTab.unfinishedCandidates (Slice.candidates restarted)) as Hlisted.
  { unfold IntervieweeTab.unfinishedCandidates. apply list_elem_of_filter. now split. }
  assert (Slice.activeCandidate selected = Some (Slice.resetCandidate stored)) as Hactive.
  { unfold Slice.activeCandidate.
    change (Slice.currentCandidateId selected) with (Some (Candidate.id candidate)).
    change (Slice.candidates selected) with (Slice.candidates restarted).
    rewrite Hcandidates. apply find_insert_first; [assumption|].
    simpl. now apply String.eqb_eq. }
  split; [exact Hcandidates|].
  split; [apply find_none, Forall_forall; reflexivity|].
  split.
  { unfold App.renderContent, restarted, InterviewerTab.restartInterview,
      Slice.resetInterview.
    rewrite Hindex, Hstored. reflexivity. }
  split.
  { unfold IntervieweeTab.opensWelcomeBack.
    destruct (IntervieweeTab.unfinishedCandidates (Slice.candidates restarted));
      [inversion Hlisted|reflexivity]. }
  split; [exact Hlisted|]. split; [exact Hactive|].
  intros D parsedData. unfold IntervieweeTab.render, IntervieweeTab.getCurrentStep.
  rewrite Hactive. now destruct parsedData.
Qed.

Lemma restarted_interview_is_not_resumed_witness :
  Slice.candidates completedStore !! 0 = Some adaCompleted
  /\ IntervieweeTab.opensWelcomeBack
       (InterviewerTab.restartInterview completedStore adaCompleted) = true
  /\ IntervieweeTab.render
       (Some Cases.adaValues) None
       (IntervieweeTab.selectUnfinishedSession
          (InterviewerTab.restartInterview completedStore adaCompleted) "1730000000000")
     = IntervieweeTab.Workflow 1.
Proof.
  split; [reflexivity|].
  pose proof (restarted_interview_is_not_resumed
                completedStore adaCompleted 0 adaCompleted eq_refl eq_refl
                (fun j c Hj => match Nat.nlt_0_r j Hj with end))
    as (_ & _ & _ & Hopens & _ & _ & Hrender).
  split; [exact Hopens|exact (Hrender _ (Some Cases.adaValues))].
Defined.

(** X21. Opening the details of a stored candidate with a non-empty id makes the
    shell render the detail view, for a stored candidate with that id, which is
    the candidate itself when the stored ids are distinct. Going back leaves the
    candidates as they were, selects the interviewer tab and the tabs view and
    clears the current candidate: the session that was open before is not
    reopened, and the interviewee tab shows the workflow. *)
Theorem details_round_trip (state : Slice.State) (candidate : Candidate.t) :
  candidate ∈ Slice.candidates state ->
  Candidate.id candidate <> "" ->
  let details := InterviewerTab.viewCandidateDetails state candidate in
  let back := CandidateDetailView.goBack details in
  App.renderContent details = App.CandidateDetailView
  /\ (exists shown, Slice.activeCandidate details = Some shown
                    /\ Candidate.id shown = Candidate.id candidate
                    /\ (NoDup (map Candidate.id (Slice.candidates state)) ->
                        shown = candidate))
  /\ back = Slice.mkState (Slice.candidates state) None "interviewer" "tabs"
  /\ App.renderContent back = App.Tabs "interviewer"
  /\ Slice.activeCandidate back = None
  /\ (forall D (parsedData : option D),
         IntervieweeTab.render parsedData None back
         = IntervieweeTab.Workflow (match parsedData with Some _ => 1 | None => 0 end)).
Proof.
  intros Hin Hid details back.
  assert (exists shown, Slice.activeCandidate details = Some shown) as [shown Hshown].
  { unfold Slice.activeCandidate. simpl.
    destruct (JS.find _ _) as [shown|] eqn:Hfind; [now exists shown|].
    rewrite find_findIndex in Hfind.
    destruct (JS.findIndex _ _) as [i|] eqn:Hi.
    - apply findIndex_lookup in Hi as (x & Hx & _). congruence.
    - pose proof (proj1 (findIndex_None _ _) Hi candidate Hin) as Hno.
      simpl in Hno. now rewrite String.eqb_refl in Hno. }
  assert (Candidate.id shown = Candidate.id candidate) as Hsame.
  { apply find_Some_index in Hshown as (_ & _ & _ & Hf). now apply String.eqb_eq in Hf. }
  split.
  { unfold App.renderContent. rewrite Hshown. simpl.
    destruct (Candidate.id candidate); [contradiction|reflexivity]. }
  split.
  { exists shown. split; [exact Hshown|]. split; [exact Hsame|].
    intros Hdup. apply find_elem in Hshown. simpl in Hshown.
    apply list_elem_of_lookup in Hshown as [i Hi]. apply list_elem_of_lookup in Hin as [j Hj].
    assert (i = j) as ->; [|congruence].
    apply (NoDup_lookup _ i j (Candidate.id candidate) Hdup).
    - change (map Candidate.id (Slice.candidates state))
        with (Candidate.id <$> Slice.candidates state).
      now rewrite list_lookup_fmap, Hi, <- Hsame.
    - change (map Candidate.id (Slice.candidates state))
        with (Candidate.id <$> Slice.candidates state).
      now rewrite list_lookup_fmap, Hj. }
  assert (Slice.activeCandidate back = None) as Hback
      by (apply find_none, Forall_forall; reflexivity).
  split; [reflexivity|]. split; [reflexivity|]. split; [exact Hback|].
  intros D parsedData. unfold IntervieweeTab.render, IntervieweeTab.getCurrentStep.
  rewrite Hback. now destruct parsedData.
Qed.

Lemma details_round_trip_witness :
  grace ∈ Slice.candidates twoCandidates
  /\ App.renderContent (InterviewerTab.viewCandidateDetails twoCandidates grace)
     = App.CandidateDetailView
  /\ Slice.activeCandidate
       (CandidateDetailView.goBack (InterviewerTab.viewCandidateDetails twoCandidates grace))
     = None.
Proof.
  assert (grace ∈ Slice.candidates twoCandidates) as Hin by (right; left).
  split; [exact Hin|].
  pose proof (details_round_trip twoCandidates grace Hin
                ltac:(discriminate)) as (Hshown & _ & _ & _ & Hback & _).
  split; [exact Hshown|exact Hback].
Defined.

(** X22. The interviewee tab shows the interview component exactly when a
    candidate was submitted in this visit or the current candidate is stored
    with an interview in progress or completed; otherwise it shows the workflow
    at the upload step, or at the form once a resume is parsed. The third step
    of the workflow is never the current one: wherever [getCurrentStep] would
    answer 2, the tab has returned the interview component before. *)
Theorem workflow_never_shows_the_third_step {D} (parsedData : option D)
        (submittedCandidate : option Candidate.t) (state : Slice.State) :
  IntervieweeTab.render parsedData submittedCandidate state
  = (if match submittedCandidate with Some _ => true | None => false end
        || match Slice.activeCandidate state with
           | Some c => negb (InterviewStatus_eqb (Candidate.interviewStatus c) not_started)
           | None => false
           end
     then IntervieweeTab.InterviewChat
     else IntervieweeTab.Workflow (match parsedData with Some _ => 1 | None => 0 end))
  /\ IntervieweeTab.render parsedData submittedCandidate state <> IntervieweeTab.Workflow 2.
Proof.
  unfold IntervieweeTab.render, IntervieweeTab.getCurrentStep, IntervieweeTab.resumes.
  destruct submittedCandidate; [split; [reflexivity|discriminate]|].
  destruct (Slice.activeCandidate state) as [c|].
  - destruct (Candidate.interviewStatus c); simpl; destruct parsedData;
      (split; [reflexivity|discriminate]).
  - destruct parsedData; (split; [reflexivity|discriminate]).
Qed.

(** ** The upload *)

Lemma isLt5M_spec (file : File.t) :
  IntervieweeTab.isLt5M file = true <-> (File.size file < 5242880)%N.
Proof.
  unfold IntervieweeTab.isLt5M. rewrite negb_true_iff, <- not_true_iff_false, Qle_bool_iff.
  unfold Qle, Qdiv, Qmult, Qinv, inject_Z. simpl Qnum. simpl Qden.
  split; intros H; lia.
Qed.

(** X23. [validateFile] accepts a file exactly when its type is that of a PDF,
    of a DOCX or of a Word 97 document and its size is below 5 MiB. The parser
    reads a file of PDF type with the PDF reader; a file of DOCX type with the
    DOCX reader unless its name ends in [.pdf]; and a Word 97 file, which
    [validateFile] accepts, after its name: with the PDF or the DOCX reader when
    the name ends in [.pdf] or [.docx], and as plain text otherwise. *)
Theorem upload_accepts_and_reads (file : File.t) :
  let pdf := "application/pdf" in
  let docx := "application/vnd.openxmlformats-officedocument.wordprocessingml.document" in
  let doc := "application/msword" in
  (IntervieweeTab.validateFile file = true
   <-> (File.type file = pdf \/ File.type file = docx \/ File.type file = doc)
       /\ (File.size file < 5 * 1024 * 1024)%N)
  /\ (File.type file = pdf -> ResumeParser.reader file = ResumeParser.extractTextFromPDF)
  /\ (File.type file = docx ->
      ResumeParser.reader file
      = if ResumeParser.nameEndsWith file ".pdf"
        then ResumeParser.extractTextFromPDF else ResumeParser.extractTextFromDOCX)
  /\ (File.type file = doc ->
      ResumeParser.reader file
      = if ResumeParser.nameEndsWith file ".pdf" then ResumeParser.extractTextFromPDF
        else if ResumeParser.nameEndsWith file ".docx" then ResumeParser.extractTextFromDOCX
             else ResumeParser.plainText).
Proof.
  intros pdf docx doc. subst pdf docx doc. split; [|split; [|split]].
  - unfold IntervieweeTab.validateFile.
    pose proof (isLt5M_spec file) as Hsize.
    change (5 * 1024 * 1024)%N with 5242880%N.
    destruct (String.eqb_spec (File.type file) "application/pdf") as [Hpdf|Hpdf];
      destruct (String.eqb_spec
                  (File.type file)
                  "application/vnd.openxmlformats-officedocument.wordprocessingml.document")
        as [Hdocx|Hdocx];
      destruct (String.eqb_spec (File.type file) "application/msword") as [Hdoc|Hdoc];
      destruct (IntervieweeTab.isLt5M file); cbn [negb andb orb];
      (split;
       [ intros Hvalid; first [discriminate Hvalid|split; [auto|now apply Hsize]]
       | intros [[Htype|[Htype|Htype]] Hlt]; try contradiction; try reflexivity;
         apply Hsize in Hlt; discriminate Hlt ]).
  - intros Htype. unfold ResumeParser.reader, ResumeParser.isPDF. now rewrite Htype.
  - intros Htype. unfold ResumeParser.reader, ResumeParser.isPDF, ResumeParser.isDOCX.
    rewrite Htype. simpl. now destruct (ResumeParser.nameEndsWith file ".pdf").
  - intros Htype. unfold ResumeParser.reader, ResumeParser.isPDF, ResumeParser.isDOCX.
    rewrite Htype. simpl.
    destruct (ResumeParser.nameEndsWith file ".pdf"); [reflexivity|].
    now destruct (ResumeParser.nameEndsWith file ".docx").
Qed.

Lemma upload_accepts_and_reads_witness :
  IntervieweeTab.validateFile Cases.resumePdf = true
  /\ IntervieweeTab.validateFile Cases.resumeDoc = true
  /\ ResumeParser.reader Cases.resumePdf = ResumeParser.extractTextFromPDF
  /\ ResumeParser.reader Cases.resumeDoc = ResumeParser.plainText.
Proof.
  split; [|split; [|split]].
  - apply (proj1 (upload_accepts_and_reads Cases.resumePdf)).
    split; [now left|reflexivity].
  - apply (proj1 (upload_accepts_and_reads Cases.resumeDoc)).
    split; [now right; right|reflexivity].
  - exact (proj1 (proj2 (upload_accepts_and_reads Cases.resumePdf)) eq_refl).
  - exact (proj2 (proj2 (proj2 (upload_accepts_and_reads Cases.resumeDoc))) eq_refl).
Defined.
